(** * uf2conv: a shallow embedding of [scripts/uf2conv.py]

    The firmware-image converter translates between raw binary, Intel HEX
    and UF2.  Python values are modelled as follows:

    - [int] is [Z]; [&], [|], [<<], [~] are [Z.land], [Z.lor], [Z.shiftl],
      [Z.lnot] (Python integers are unbounded two's complement);
    - [bytes] / [bytearray] is [list byte];
    - [str] is a list of code points ([list N]);
    - a raised exception is the [Raise] case of [result];
    - the module globals [appstartaddr] and [familyid] are passed in and,
      where a function assigns them, returned. *)

From Stdlib Require Import ZArith List Lia Bool Ascii String.
From Stdlib Require Import Init.Byte.
From Stdlib Require Strings.Byte.
From stdpp Require Import base option list gmap.

Local Open Scope Z_scope.

(** ** Exceptions *)

Inductive exn : Type :=
  | StructError      (* struct.error *)
  | TypeError
  | IndexError
  | ValueError
  | AttributeError
  | AssertionError
  | OSError
  | SystemExit (code : Z).

Inductive result (A : Type) : Type :=
  | Ok (a : A)
  | Raise (e : exn).
Arguments Ok {A} a.
Arguments Raise {A} e.

#[global] Instance result_ret : MRet result := fun A a => Ok a.
#[global] Instance result_bind : MBind result := fun A B f m =>
  match m with
  | Ok a => f a
  | Raise e => Raise e
  end.

Definition is_ok {A} (r : result A) : bool :=
  match r with Ok _ => true | Raise _ => false end.

(** ** Bytes and [struct] *)

Definition Z_of_byte (b : byte) : Z := Z.of_N (Byte.to_N b).

Definition byte_of_Z (z : Z) : byte :=
  match Byte.of_N (Z.to_N (z mod 256)) with
  | Some b => b
  | None => x00
  end.

(** [buf[a:b]] for indices [0 <= a <= b] *)
Definition slice {A} (l : list A) (a b : nat) : list A :=
  take (b - a) (drop a l).

(** one little-endian 32-bit word, [struct.pack("<I", v)] *)
Definition pack_I (v : Z) : result (list byte) :=
  if (0 <=? v) && (v <? 2 ^ 32)
  then Ok [byte_of_Z v; byte_of_Z (v / 2 ^ 8);
           byte_of_Z (v / 2 ^ 16); byte_of_Z (v / 2 ^ 24)]
  else Raise StructError.

Fixpoint pack_Is (vs : list Z) : result (list byte) :=
  match vs with
  | [] => Ok []
  | v :: vs' => b ← pack_I v; bs ← pack_Is vs'; Ok (b ++ bs)
  end.

Definition le_u32 (b0 b1 b2 b3 : byte) : Z :=
  Z_of_byte b0 + 2 ^ 8 * Z_of_byte b1
  + 2 ^ 16 * Z_of_byte b2 + 2 ^ 24 * Z_of_byte b3.

Fixpoint le_words (bs : list byte) : list Z :=
  match bs with
  | b0 :: b1 :: b2 :: b3 :: r => le_u32 b0 b1 b2 b3 :: le_words r
  | _ => []
  end.

(** [struct.unpack("<I"*n, buf)]: the buffer must have exactly [4n] bytes *)
Definition unpack_Is (n : nat) (buf : list byte) : result (list Z) :=
  if (length buf =? 4 * n)%nat then Ok (le_words buf) else Raise StructError.

(** ** UF2 constants and the block header *)

Definition UF2_MAGIC_START0 : Z := 0x0A324655.
Definition UF2_MAGIC_START1 : Z := 0x9E5D5157.
Definition UF2_MAGIC_END : Z := 0x0AB16F30.

(** the tuple [hd] of [struct.unpack(b"<IIIIIIII", block[0:32])];
    field [k] is [hd[k]] *)
Record header : Type := Header {
  hd0 : Z;   (* magicStart0 *)
  hd1 : Z;   (* magicStart1 *)
  hd2 : Z;   (* flags *)
  hd3 : Z;   (* targetAddr *)
  hd4 : Z;   (* payloadSize *)
  hd5 : Z;   (* blockNo *)
  hd6 : Z;   (* numBlocks *)
  hd7 : Z    (* fileSize / familyID *)
}.

Definition unpack_header (buf : list byte) : result header :=
  ws ← unpack_Is 8 buf;
  match ws with
  | [w0; w1; w2; w3; w4; w5; w6; w7] => Ok (Header w0 w1 w2 w3 w4 w5 w6 w7)
  | _ => Raise StructError
  end.

(** truthiness of a Python [int] *)
Definition truthy (z : Z) : bool := negb (z =? 0).

(** [a == b] where either side may be [None] *)
Definition opt_eqb (a b : option Z) : bool :=
  match a, b with
  | Some x, Some y => x =? y
  | None, None => true
  | _, _ => false
  end.

(** ** convert_from_uf2 *)

Record dstate : Type := DState {
  curraddr : option Z;
  currfamilyid : option Z;
  families_found : gmap Z Z;
  prev_flag : option Z;
  all_flags_same : bool;
  outp : list (list byte);
  appstartaddr : Z            (* the module global *)
}.

Definition dstate_init (appstartaddr0 : Z) : dstate :=
  DState None None ∅ None true [] appstartaddr0.

Definition zero4 : list byte := [x00; x00; x00; x00].

(** [while padding > 0: padding -= 4; outp.append(b"\x00\x00\x00\x00")];
    the loop is entered with [fuel = padding], which bounds its iterations *)
Fixpoint pad_loop (fuel : nat) (padding : Z) (out : list (list byte))
  : list (list byte) :=
  match fuel with
  | O => out
  | S fuel' =>
      if padding >? 0 then pad_loop fuel' (padding - 4) (out ++ [zero4])
      else out
  end.

(** [if (hd[2] & 0x2000) and (currfamilyid == None): currfamilyid = hd[7]] *)
Definition adopt_family (hd : header) (st : dstate) : dstate :=
  if truthy (Z.land (hd2 hd) 0x2000) && opt_eqb (currfamilyid st) None
  then DState (curraddr st) (Some (hd7 hd)) (families_found st)
              (prev_flag st) (all_flags_same st) (outp st) (appstartaddr st)
  else st.

(** [if curraddr == None or ((hd[2] & 0x2000) and hd[7] != currfamilyid): ...] *)
Definition reset_cursor (familyid : Z) (hd : header) (st : dstate) : dstate :=
  if opt_eqb (curraddr st) None
     || (truthy (Z.land (hd2 hd) 0x2000)
         && negb (opt_eqb (Some (hd7 hd)) (currfamilyid st)))
  then DState (Some (hd3 hd)) (Some (hd7 hd)) (families_found st)
              (prev_flag st) (all_flags_same st) (outp st)
              (if (familyid =? 0) || (familyid =? hd7 hd)
               then hd3 hd else appstartaddr st)
  else st.

(** the cursor against which the padding of a block is computed *)
Definition block_cursor (familyid : Z) (hd : header) (st : dstate) : option Z :=
  curraddr (reset_cursor familyid hd (adopt_family hd st)).

(** [padding = newaddr - curraddr] *)
Definition block_padding (familyid : Z) (hd : header) (st : dstate) : result Z :=
  match block_cursor familyid hd st with
  | Some c => Ok (hd3 hd - c)
  | None => Raise TypeError
  end.

(** the family bookkeeping at the end of the loop body *)
Definition note_family (hd : header) (ff : gmap Z Z) : gmap Z Z :=
  if truthy (Z.land (hd2 hd) 0x2000) then
    match ff !! hd7 hd with
    | Some a => if a >? hd3 hd then <[hd7 hd := hd3 hd]> ff else ff
    | None => <[hd7 hd := hd3 hd]> ff
    end
  else ff.

(** the loop body from [datalen = hd[4]] down to the flag bookkeeping, for a
    block with good magic and the no-flash bit clear.  The message of each
    [assert False, "..." + ptr] concatenates a [str] and an [int], so
    what is raised is a [TypeError]. *)
Definition accept_block (familyid : Z) (hd : header) (block : list byte)
    (st : dstate) : result dstate :=
  let datalen := hd4 hd in
  if datalen >? 476 then Raise TypeError else
  let newaddr := hd3 hd in
  let st1 := reset_cursor familyid hd (adopt_family hd st) in
  padding ← block_padding familyid hd st;
  if padding <? 0 then Raise TypeError else
  if padding >? 10 * 1024 * 1024 then Raise TypeError else
  if negb (padding mod 4 =? 0) then Raise TypeError else
  let out1 := pad_loop (Z.to_nat padding) padding (outp st1) in
  let out2 :=
    if (familyid =? 0)
       || (truthy (Z.land (hd2 hd) 0x2000) && (familyid =? hd7 hd))
    then out1 ++ [slice block 32 (32 + Z.to_nat datalen)]
    else out1 in
  let pf := match prev_flag st1 with None => Some (hd2 hd) | p => p end in
  Ok (DState (Some (newaddr + datalen)) (currfamilyid st1)
             (note_family hd (families_found st1))
             pf
             (if negb (opt_eqb pf (Some (hd2 hd))) then false
              else all_flags_same st1)
             out2 (appstartaddr st1)).

(** the part of the body run [if blockno == (numblocks - 1)]; the header
    summary it prints is not modelled *)
Definition last_block (familyid : Z) (st : dstate) : dstate :=
  if (1 <? Z.of_nat (size (families_found st))) && (familyid =? 0)
  then DState (curraddr st) (currfamilyid st) (families_found st)
              (prev_flag st) (all_flags_same st) [] 0
  else st.

(** one iteration of [for blockno in range(numblocks)].  On a bad magic the
    argument of [print] concatenates a [str] and the [int] [ptr], which
    raises [TypeError] before [continue] is reached. *)
Definition block_body (familyid : Z) (buf : list byte) (numblocks : nat)
    (blockno : nat) (st : dstate) : result dstate :=
  let ptr := (blockno * 512)%nat in
  let block := slice buf ptr (ptr + 512) in
  hd ← unpack_header (slice block 0 32);
  if negb (hd0 hd =? UF2_MAGIC_START0) || negb (hd1 hd =? UF2_MAGIC_START1)
  then Raise TypeError
  else if truthy (Z.land (hd2 hd) 1) then Ok st
  else
    st' ← accept_block familyid hd block st;
    Ok (if (blockno =? numblocks - 1)%nat then last_block familyid st'
        else st').

(** a [for] loop over a list of indices, stopping at the first exception *)
Fixpoint for_each {S : Type} (body : nat → S → result S) (l : list nat)
    (st : S) : result S :=
  match l with
  | [] => Ok st
  | i :: l' => st' ← body i st; for_each body l' st'
  end.

(** returns the joined output and the final value of the global
    [appstartaddr] *)
Definition convert_from_uf2 (familyid appstartaddr0 : Z) (buf : list byte)
  : result (list byte * Z) :=
  let numblocks := (length buf / 512)%nat in
  st ← for_each (block_body familyid buf numblocks) (seq 0 numblocks)
                (dstate_init appstartaddr0);
  Ok (concat (outp st), appstartaddr st).

(** ** convert_to_uf2 *)

(** [while len(datapadding) < 512 - 256 - 32 - 4: datapadding += b"\x00\x00\x00\x00"] *)
Fixpoint datapadding_loop (fuel : nat) (datapadding : list byte) : list byte :=
  match fuel with
  | O => datapadding
  | S fuel' =>
      if (length datapadding <? 512 - 256 - 32 - 4)%nat
      then datapadding_loop fuel' (datapadding ++ zero4)
      else datapadding
  end.

Definition datapadding : list byte := datapadding_loop (512 - 256 - 32 - 4) [].

(** [while len(chunk) < 256: chunk += b"\x00"] *)
Fixpoint chunk_pad_loop (fuel : nat) (chunk : list byte) : list byte :=
  match fuel with
  | O => chunk
  | S fuel' =>
      if (length chunk <? 256)%nat then chunk_pad_loop fuel' (chunk ++ [x00])
      else chunk
  end.

Definition family_flags (familyid : Z) : Z :=
  if truthy familyid then Z.lor 0 0x2000 else 0.

(** the body of [for blockno in range(numblocks)] in [convert_to_uf2] *)
Definition to_uf2_body (familyid appstartaddr0 : Z) (file_content : list byte)
    (numblocks : nat) (blockno : nat) (out : list (list byte))
  : result (list (list byte)) :=
  let ptr := (256 * blockno)%nat in
  let chunk := slice file_content ptr (ptr + 256) in
  let flags := family_flags familyid in
  hd ← pack_Is [UF2_MAGIC_START0; UF2_MAGIC_START1; flags;
                Z.of_nat ptr + appstartaddr0; 256; Z.of_nat blockno;
                Z.of_nat numblocks; familyid];
  let chunk' := chunk_pad_loop 256 chunk in
  magic_end ← pack_I UF2_MAGIC_END;
  let block := hd ++ chunk' ++ datapadding ++ magic_end in
  if (length block =? 512)%nat then Ok (out ++ [block])
  else Raise AssertionError.

Definition convert_to_uf2 (familyid appstartaddr0 : Z)
    (file_content : list byte) : result (list byte) :=
  let numblocks := ((length file_content + 255) / 256)%nat in
  out ← for_each (to_uf2_body familyid appstartaddr0 file_content numblocks)
                 (seq 0 numblocks) [];
  Ok (concat out).

(** ** Python [str]

    A [str] is a sequence of Unicode code points.  What [int()] and
    [str.upper()] do on code points above the ASCII range is read from the
    Unicode character database; the model takes that database as a
    parameter and fixes the behaviour on ASCII itself. *)

Definition str : Type := list N.

Definition chr (a : ascii) : N := N_of_ascii a.

Definition str_of_string (s : string) : str := map chr (list_ascii_of_string s).

Class unicode_db : Type := UnicodeDb {
  uni_isspace : N → bool;          (* Py_UNICODE_ISSPACE *)
  uni_todecimal : N → option Z;    (* Py_UNICODE_TODECIMAL *)
  uni_upper : N → str              (* full upper-case mapping *)
}.

(** a database in which no code point above ASCII is a space or a digit
    and none has an upper-case mapping *)
Definition ascii_db : unicode_db :=
  UnicodeDb (fun _ => false) (fun _ => None) (fun c => [c]).

(** [s.split('\n')] *)
Fixpoint split_lines_aux (s : str) (cur : str) : list str :=
  match s with
  | [] => [cur]
  | c :: s' =>
      if (c =? 10)%N then cur :: split_lines_aux s' []
      else split_lines_aux s' (cur ++ [c])
  end.

Definition split_lines (s : str) : list str := split_lines_aux s [].

(** [", ".join(l)] *)
Fixpoint join_comma (l : list str) : str :=
  match l with
  | [] => []
  | [x] => x
  | x :: l' => x ++ str_of_string ", " ++ join_comma l'
  end.

Section Python_str.
Context {U : unicode_db}.

(** [str.upper()], code point by code point *)
Definition upper_char (c : N) : str :=
  if ((97 <=? c) && (c <=? 122))%N then [(c - 32)%N]
  else if (c <? 128)%N then [c]
  else uni_upper c.

Definition py_upper (s : str) : str := concat (map upper_char s).

(** *** [int(s, base)]

    CPython first rewrites a [str] to ASCII: Unicode spaces become [' '],
    Unicode decimal digits become ['0'..'9'], and any other code point
    above ASCII makes the literal invalid.  The ASCII text is then read by
    [PyLong_FromString]. *)

Definition to_ascii_char (c : N) : option N :=
  if (c <? 128)%N then Some c
  else if uni_isspace c then Some 32%N
  else match uni_todecimal c with
       | Some d => if (0 <=? d) && (d <=? 9) then Some (48 + Z.to_N d)%N
                   else None
       | None => None
       end.

Fixpoint to_ascii (s : str) : option (list N) :=
  match s with
  | [] => Some []
  | c :: s' =>
      match to_ascii_char c, to_ascii s' with
      | Some c', Some r => Some (c' :: r)
      | _, _ => None
      end
  end.

(** [Py_ISSPACE] *)
Definition py_isspace (c : N) : bool :=
  ((9 <=? c) && (c <=? 13) || (c =? 32))%N.

(** [_PyLong_DigitValue] *)
Definition digit_value (c : N) : option Z :=
  if ((48 <=? c) && (c <=? 57))%N then Some (Z.of_N c - 48)
  else if ((97 <=? c) && (c <=? 122))%N then Some (Z.of_N c - 97 + 10)
  else if ((65 <=? c) && (c <=? 90))%N then Some (Z.of_N c - 65 + 10)
  else None.

Fixpoint skip_space (s : list N) : list N :=
  match s with
  | c :: s' => if py_isspace c then skip_space s' else s
  | [] => []
  end.

(** the digit scan: digits below [base] with single underscores between
    them; returns the value, the number of digits and the unread rest *)
Fixpoint scan_digits (base : Z) (s : list N) (prev_underscore : bool)
    (acc : Z) (ndigits : nat) : result (Z * nat * list N) :=
  let finish :=
    if prev_underscore then Raise ValueError else Ok (acc, ndigits, s) in
  match s with
  | [] => finish
  | c :: s' =>
      if (c =? 95)%N then
        if prev_underscore then Raise ValueError
        else scan_digits base s' true acc ndigits
      else
        match digit_value c with
        | Some d =>
            if d <? base
            then scan_digits base s' false (acc * base + d) (S ndigits)
            else finish
        | None => finish
        end
  end.

Definition starts_with (c : N) (s : list N) : bool :=
  match s with
  | c' :: _ => (c' =? c)%N
  | [] => false
  end.

(** default of [sys.get_int_max_str_digits()]; it applies to bases that
    are not a power of two *)
Definition int_max_str_digits : nat := 4300.

Definition is_pow2_base (base : Z) : bool :=
  (base =? 2) || (base =? 4) || (base =? 8) || (base =? 16) || (base =? 32).

Definition is_prefix_letter (base : Z) (c : N) : bool :=
  ((base =? 16) && ((c =? 120) || (c =? 88))%N)      (* x X *)
  || ((base =? 8) && ((c =? 111) || (c =? 79))%N)    (* o O *)
  || ((base =? 2) && ((c =? 98) || (c =? 66))%N).    (* b B *)

(** an optional sign *)
Definition strip_sign (s : list N) : Z * list N :=
  if starts_with 43 s then (1, tail s)              (* + *)
  else if starts_with 45 s then (-1, tail s)        (* - *)
  else (1, s).

(** base 0 reads the base off the prefix; a leading zero without a prefix
    letter is only allowed for the number zero *)
Definition detect_base (base0 : Z) (s : list N) : Z * bool :=
  if base0 =? 0 then
    if starts_with 48 s then
      match tail s with
      | c :: _ =>
          if is_prefix_letter 16 c then (16, false)
          else if is_prefix_letter 8 c then (8, false)
          else if is_prefix_letter 2 c then (2, false)
          else (10, true)
      | [] => (10, true)
      end
    else (10, false)
  else (base0, false).

(** the prefix [0x], [0o] or [0b] that fits the base, and one underscore
    after it *)
Definition strip_prefix (base : Z) (s : list N) : list N :=
  match s with
  | c0 :: c :: r =>
      if (c0 =? 48)%N && is_prefix_letter base c
      then (if starts_with 95 r then tail r else r)
      else s
  | _ => s
  end.

Definition read_digits (sign base : Z) (error_if_nonzero : bool) (s : list N)
  : result Z :=
  if starts_with 95 s then Raise ValueError
  else
    '(v, ndigits, rest) ← scan_digits base s false 0 0;
    if negb (is_pow2_base base) && (int_max_str_digits <? ndigits)%nat
    then Raise ValueError
    else if error_if_nonzero && negb (v =? 0) then Raise ValueError
    else if (ndigits =? 0)%nat then Raise ValueError
    else match skip_space rest with
         | [] => Ok (sign * v)
         | _ :: _ => Raise ValueError
         end.

Definition py_long_from_string (base0 : Z) (s : list N) : result Z :=
  let '(sign, s2) := strip_sign (skip_space s) in
  let '(base, error_if_nonzero) := detect_base base0 s2 in
  read_digits sign base error_if_nonzero (strip_prefix base s2).

(** [int(s, base)] for a [str] argument and [base] 0 or in 2..36 *)
Definition py_int (s : str) (base : Z) : result Z :=
  match to_ascii s with
  | Some a => py_long_from_string base a
  | None => Raise ValueError
  end.

End Python_str.

(** ** UTF-8 *)

Definition is_cont (b : Z) : bool := (0x80 <=? b) && (b <=? 0xBF).

(** one well-formed UTF-8 sequence at the head of [bs]: the code point and
    the bytes after it.  Overlong forms, surrogates and code points above
    U+10FFFF are ill-formed. *)
Definition utf8_step (bs : list Z) : option (N * list Z) :=
  match bs with
  | [] => None
  | b0 :: r =>
      if b0 <? 0x80 then Some (Z.to_N b0, r)
      else if (0xC2 <=? b0) && (b0 <=? 0xDF) then
        match r with
        | b1 :: r' =>
            if is_cont b1
            then Some (Z.to_N ((b0 - 0xC0) * 64 + (b1 - 0x80)), r')
            else None
        | _ => None
        end
      else if (0xE0 <=? b0) && (b0 <=? 0xEF) then
        match r with
        | b1 :: b2 :: r' =>
            if is_cont b1 && is_cont b2
               && implb (b0 =? 0xE0) (0xA0 <=? b1)
               && implb (b0 =? 0xED) (b1 <=? 0x9F)
            then Some (Z.to_N ((b0 - 0xE0) * 4096 + (b1 - 0x80) * 64
                               + (b2 - 0x80)), r')
            else None
        | _ => None
        end
      else if (0xF0 <=? b0) && (b0 <=? 0xF4) then
        match r with
        | b1 :: b2 :: b3 :: r' =>
            if is_cont b1 && is_cont b2 && is_cont b3
               && implb (b0 =? 0xF0) (0x90 <=? b1)
               && implb (b0 =? 0xF4) (b1 <=? 0x8F)
            then Some (Z.to_N ((b0 - 0xF0) * 262144 + (b1 - 0x80) * 4096
                               + (b2 - 0x80) * 64 + (b3 - 0x80)), r')
            else None
        | _ => None
        end
      else None
  end.

(** [bytes.decode("utf-8")]: [None] stands for [UnicodeDecodeError] *)
Fixpoint utf8_decode_aux (fuel : nat) (bs : list Z) : option str :=
  match bs with
  | [] => Some []
  | _ :: _ =>
      match fuel with
      | O => None
      | S fuel' =>
          match utf8_step bs with
          | Some (c, r) => cons c <$> utf8_decode_aux fuel' r
          | None => None
          end
      end
  end.

Definition utf8_decode (buf : list byte) : option str :=
  utf8_decode_aux (length buf) (map Z_of_byte buf).

(** ** Format detection *)

(** [is_uf2]: [struct.unpack("<II", buf[0:8])] needs eight bytes *)
Definition is_uf2 (buf : list byte) : result bool :=
  w ← unpack_Is 2 (slice buf 0 8);
  match w with
  | [w0; w1] => Ok ((w0 =? UF2_MAGIC_START0) && (w1 =? UF2_MAGIC_START1))
  | _ => Raise StructError
  end.

(** the byte class [[:0-9a-fA-F\r\n]] *)
Definition hex_class (b : byte) : bool :=
  let c := Z_of_byte b in
  (c =? 58) || ((48 <=? c) && (c <=? 57)) || ((97 <=? c) && (c <=? 102))
  || ((65 <=? c) && (c <=? 70)) || (c =? 13) || (c =? 10).

(** [re.match(rb"^[:0-9a-fA-F\r\n]+$", buf)] is a match object exactly when
    [buf] is non-empty and every byte is in the class: the greedy run stops
    at the first byte outside the class, and [$] only matches at the end of
    the buffer or just before a final newline, which is in the class. *)
Definition re_match_hex (buf : list byte) : bool :=
  negb (length buf =? 0)%nat && forallb hex_class buf.

Definition is_hex (buf : list byte) : result bool :=
  match utf8_decode (slice buf 0 30) with
  | None => Ok false                    (* except UnicodeDecodeError *)
  | Some w =>
      match w with
      | [] => Raise IndexError          (* w[0] *)
      | c :: _ => Ok ((c =? chr ":")%N && re_match_hex buf)
      end
  end.

Inductive format : Type := FmtUF2 | FmtHex | FmtBinary.

(** the order in which [main] probes the input *)
Definition detect_format (buf : list byte) : result format :=
  from_uf2 ← is_uf2 buf;
  if from_uf2 : bool then Ok FmtUF2
  else
    h ← is_hex buf;
    if h : bool then Ok FmtHex else Ok FmtBinary.

(** ** convert_from_hex_to_uf2 *)

(** [class Block]: [self.addr] and [self.bytes = bytearray(256)] *)
Record Block : Type := MkBlock {
  addr : Z;
  bytes : list byte
}.

Definition Block_init (a : Z) : Block := MkBlock a (replicate 256 x00).

(** [while len(hd) < 512 - 4: hd += b"\x00"] *)
Fixpoint encode_pad_loop (fuel : nat) (hd : list byte) : list byte :=
  match fuel with
  | O => hd
  | S fuel' =>
      if (length hd <? 512 - 4)%nat then encode_pad_loop fuel' (hd ++ [x00])
      else hd
  end.

(** [Block.encode(self, blockno, numblocks)] *)
Definition Block_encode (familyid : Z) (self : Block) (blockno numblocks : Z)
  : result (list byte) :=
  let flags := family_flags familyid in
  hd ← pack_Is [UF2_MAGIC_START0; UF2_MAGIC_START1; flags; addr self; 256;
                blockno; numblocks; familyid];
  let hd := hd ++ slice (bytes self) 0 256 in
  let hd := encode_pad_loop (512 - 4) hd in
  magic_end ← pack_I UF2_MAGIC_END;
  Ok (hd ++ magic_end).

(** The locals of [convert_from_hex_to_uf2].  Every [Block] object is
    appended to [blocks] when it is created and [currblock] is a second
    reference to one of them: it is modelled as an index into [blocks]. *)
Record hstate : Type := HState {
  h_appstartaddr : option Z;    (* the module global, [None] at entry *)
  upper : Z;
  currblock : option nat;
  blocks : list Block
}.

Definition hstate_init : hstate := HState None 0 None [].

(** [l[i]] on a Python list *)
Definition index {A} (l : list A) (i : nat) : result A :=
  match l !! i with
  | Some x => Ok x
  | None => Raise IndexError
  end.

(** [addr & ~0xff] *)
Definition align256 (a : Z) : Z := Z.land a (Z.lnot 0xff).

(** [not currblock or currblock.addr & ~0xff != addr & ~0xff]; a [Block]
    defines neither [__bool__] nor [__len__], so it is always true-ish *)
Definition needs_new_block (a : Z) (st : hstate) : result bool :=
  match currblock st with
  | None => Ok true
  | Some k =>
      b ← index (blocks st) k;
      Ok (negb (align256 (addr b) =? align256 a))
  end.

(** [bytearray.__setitem__]: the value must be in [range(0, 256)] *)
Definition bytearray_set (bs : list byte) (i : nat) (v : Z)
  : result (list byte) :=
  if (0 <=? v) && (v <? 256) then
    if (i <? length bs)%nat then Ok (<[i := byte_of_Z v]> bs)
    else Raise IndexError
  else Raise ValueError.

(** one iteration of the inner [while i < len(rec) - 1] of a data record,
    for the byte [v = rec[i]] going to address [a] *)
Definition put_byte (a v : Z) (st : hstate) : result hstate :=
  fresh ← needs_new_block a st;
  let st1 :=
    if fresh : bool
    then HState (h_appstartaddr st) (upper st) (Some (length (blocks st)))
                (blocks st ++ [Block_init (align256 a)])
    else st in
  match currblock st1 with
  | None => Raise AttributeError
  | Some k =>
      b ← index (blocks st1) k;
      bs ← bytearray_set (bytes b) (Z.to_nat (Z.land a 0xff)) v;
      Ok (HState (h_appstartaddr st1) (upper st1) (currblock st1)
                 (<[k := MkBlock (addr b) bs]> (blocks st1)))
  end.

Fixpoint data_loop (fuel : nat) (rec : list Z) (i : nat) (a : Z)
    (st : hstate) : result hstate :=
  match fuel with
  | O => Ok st
  | S fuel' =>
      if Z.of_nat i <? Z.of_nat (length rec) - 1 then
        v ← index rec i;
        st' ← put_byte a v st;
        data_loop fuel' rec (i + 1) (a + 1) st'
      else Ok st
  end.

Section Hex.
Context {U : unicode_db}.

(** [while i < len(line) - 1: rec.append(int(line[i:i+2], 16)); i += 2] *)
Fixpoint parse_rec (fuel : nat) (line : str) (i : nat) (rec : list Z)
  : result (list Z) :=
  match fuel with
  | O => Ok rec
  | S fuel' =>
      if Z.of_nat i <? Z.of_nat (length line) - 1 then
        v ← py_int (slice line i (i + 2)) 16;
        parse_rec fuel' line (i + 2) (rec ++ [v])
      else Ok rec
  end.

(** the body of [for line in buf.split('\n')]; the boolean tells whether
    the loop was left by [break] *)
Definition hex_line (line : str) (st : hstate) : result (bool * hstate) :=
  c0 ← index line 0;
  if negb (c0 =? chr ":")%N then Ok (false, st)
  else
    rec ← parse_rec (length line) line 1 [];
    tp ← index rec 3;
    if tp =? 4 then
      r4 ← index rec 4;
      r5 ← index rec 5;
      Ok (false, HState (h_appstartaddr st)
                        (Z.shiftl (Z.lor (Z.shiftl r4 8) r5) 16)
                        (currblock st) (blocks st))
    else if tp =? 2 then
      r4 ← index rec 4;
      r5 ← index rec 5;
      Ok (false, HState (h_appstartaddr st)
                        (Z.shiftl (Z.lor (Z.shiftl r4 8) r5) 4)
                        (currblock st) (blocks st))
    else if tp =? 1 then Ok (true, st)
    else if tp =? 0 then
      r1 ← index rec 1;
      r2 ← index rec 2;
      let a := upper st + Z.lor (Z.shiftl r1 8) r2 in
      let st1 :=
        match h_appstartaddr st with
        | None => HState (Some a) (upper st) (currblock st) (blocks st)
        | Some _ => st
        end in
      st2 ← data_loop (length rec) rec 4 a st1;
      Ok (false, st2)
    else Ok (false, st).

Fixpoint hex_lines (lines : list str) (st : hstate) : result hstate :=
  match lines with
  | [] => Ok st
  | line :: lines' =>
      '(brk, st') ← hex_line line st;
      if brk : bool then Ok st' else hex_lines lines' st'
  end.

(** [resfile += blocks[i].encode(i, numblocks)] *)
Definition encode_body (familyid : Z) (bl : list Block) (numblocks : nat)
    (i : nat) (resfile : list byte) : result (list byte) :=
  b ← index bl i;
  e ← Block_encode familyid b (Z.of_nat i) (Z.of_nat numblocks);
  Ok (resfile ++ e).

Definition encode_blocks (familyid : Z) (bl : list Block) : result (list byte) :=
  let numblocks := length bl in
  for_each (encode_body familyid bl numblocks) (seq 0 numblocks) [].

(** returns [resfile] and the final value of the global [appstartaddr] *)
Definition convert_from_hex_to_uf2 (familyid : Z) (buf : str)
  : result (list byte * option Z) :=
  st ← hex_lines (split_lines buf) hstate_init;
  resfile ← encode_blocks familyid (blocks st);
  Ok (resfile, h_appstartaddr st).

End Hex.

(** ** convert_to_carray *)

Fixpoint dec_go (fuel : nat) (n : N) (acc : str) : str :=
  match fuel with
  | O => acc
  | S fuel' =>
      let acc' := (48 + n mod 10)%N :: acc in
      if (n / 10 =? 0)%N then acc' else dec_go fuel' (n / 10)%N acc'
  end.

(** ["%d" % n] for [n >= 0] *)
Definition fmt_d (n : nat) : str :=
  dec_go (S (N.to_nat (N.size (N.of_nat n)))) (N.of_nat n) [].

Definition hex_digit (n : N) : N :=
  if (n <? 10)%N then (48 + n)%N else (97 + (n - 10))%N.

(** ["0x%02x, " % b] for a byte [b] *)
Definition fmt_02x (b : byte) : str :=
  let n := Byte.to_N b in
  str_of_string "0x" ++ [hex_digit (n / 16); hex_digit (n mod 16)]
  ++ str_of_string ", ".

Fixpoint carray_loop (file_content : list byte) (i : nat) (out : str) : str :=
  match file_content with
  | [] => out
  | b :: rest =>
      let out1 := if (i mod 16 =? 0)%nat then out ++ [10%N] else out in
      carray_loop rest (S i) (out1 ++ fmt_02x b)
  end.

(** [bytes(outp, "utf-8")] for text that is ASCII throughout *)
Definition ascii_bytes (s : str) : list byte :=
  map (fun c => byte_of_Z (Z.of_N c)) s.

Definition convert_to_carray (file_content : list byte) : list byte :=
  let out := str_of_string "const unsigned long bindata_len = "
             ++ fmt_d (length file_content) ++ str_of_string ";" ++ [10%N] in
  let out := out ++ str_of_string
    "const unsigned char bindata[] __attribute__((aligned(16))) = {" in
  let out := carray_loop file_content 0 out in
  let out := out ++ [10%N] ++ str_of_string "};" ++ [10%N] in
  ascii_bytes out.

(** ** The family registry *)

Record family_entry : Type := Family {
  f_id : string;
  f_short_name : string;
  f_description : string
}.

Definition chip_families : list family_entry := [
  Family "0x16573617" "ATMEGA32"
         "Microchip (Atmel) ATmega32";
  Family "0x1851780a" "SAML21"
         "Microchip (Atmel) SAML21";
  Family "0x1b57745f" "NRF52"
         "Nordic NRF52";
  Family "0x1c5f21b0" "ESP32"
         "ESP32";
  Family "0x1e1f432d" "STM32L1"
         "ST STM32L1xx";
  Family "0x202e3a91" "STM32L0"
         "ST STM32L0xx";
  Family "0x21460ff0" "STM32WL"
         "ST STM32WLxx";
  Family "0x22e0d6fc" "RTL8710B"
         "Realtek AmebaZ RTL8710B";
  Family "0x2abc77ec" "LPC55"
         "NXP LPC55xx";
  Family "0x300f5633" "STM32G0"
         "ST STM32G0xx";
  Family "0x31d228c6" "GD32F350"
         "GD32F350";
  Family "0x3379CFE2" "RTL8720D"
         "Realtek AmebaD RTL8720D";
  Family "0x04240bdf" "STM32L5"
         "ST STM32L5xx";
  Family "0x4c71240a" "STM32G4"
         "ST STM32G4xx";
  Family "0x4fb2d5bd" "MIMXRT10XX"
         "NXP i.MX RT10XX";
  Family "0x51e903a8" "XR809"
         "Xradiotech 809";
  Family "0x53b80f00" "STM32F7"
         "ST STM32F7xx";
  Family "0x55114460" "SAMD51"
         "Microchip (Atmel) SAMD51";
  Family "0x57755a57" "STM32F4"
         "ST STM32F4xx";
  Family "0x5a18069b" "FX2"
         "Cypress FX2";
  Family "0x5d1a0a2e" "STM32F2"
         "ST STM32F2xx";
  Family "0x5ee21072" "STM32F1"
         "ST STM32F103";
  Family "0x621e937a" "NRF52833"
         "Nordic NRF52833";
  Family "0x647824b6" "STM32F0"
         "ST STM32F0xx";
  Family "0x675a40b0" "BK7231U"
         "Beken 7231U/7231T";
  Family "0x68ed2b88" "SAMD21"
         "Microchip (Atmel) SAMD21";
  Family "0x6a82cc42" "BK7251"
         "Beken 7251/7252";
  Family "0x6b846188" "STM32F3"
         "ST STM32F3xx";
  Family "0x6d0922fa" "STM32F407"
         "ST STM32F407";
  Family "0x6db66082" "STM32H7"
         "ST STM32H7xx";
  Family "0x70d16653" "STM32WB"
         "ST STM32WBxx";
  Family "0x7b3ef230" "BK7231N"
         "Beken 7231N";
  Family "0x7eab61ed" "ESP8266"
         "ESP8266";
  Family "0x7f83e793" "KL32L2"
         "NXP KL32L2x";
  Family "0x8fb060fe" "STM32F407VG"
         "ST STM32F407VG";
  Family "0x9fffd543" "RTL8710A"
         "Realtek Ameba1 RTL8710A";
  Family "0xada52840" "NRF52840"
         "Nordic NRF52840";
  Family "0xbfdd4eee" "ESP32S2"
         "ESP32-S2";
  Family "0xc47e5767" "ESP32S3"
         "ESP32-S3";
  Family "0xd42ba06c" "ESP32C3"
         "ESP32-C3";
  Family "0x2b88d29c" "ESP32C2"
         "ESP32-C2";
  Family "0x332726f6" "ESP32H2"
         "ESP32-H2";
  Family "0x540ddf62" "ESP32C6"
         "ESP32-C6";
  Family "0x3d308e94" "ESP32P4"
         "ESP32-P4";
  Family "0xf71c0343" "ESP32C5"
         "ESP32-C5";
  Family "0x77d850c4" "ESP32C61"
         "ESP32-C61";
  Family "0xde1270b7" "BL602"
         "Boufallo 602";
  Family "0xe08f7564" "RTL8720C"
         "Realtek AmebaZ2 RTL8720C";
  Family "0xe48bff56" "RP2040"
         "Raspberry Pi RP2040";
  Family "0xe48bff57" "RP2XXX_ABSOLUTE"
         "Raspberry Pi Microcontrollers: Absolute (unpartitioned) download";
  Family "0xe48bff58" "RP2XXX_DATA"
         "Raspberry Pi Microcontrollers: Data partition download";
  Family "0xe48bff59" "RP2350_ARM_S"
         "Raspberry Pi RP2350, Secure Arm image";
  Family "0xe48bff5a" "RP2350_RISCV"
         "Raspberry Pi RP2350, RISC-V image";
  Family "0xe48bff5b" "RP2350_ARM_NS"
         "Raspberry Pi RP2350, Non-secure Arm image";
  Family "0x00ff6919" "STM32L4"
         "ST STM32L4xx";
  Family "0x9af03e33" "GD32VF103"
         "GigaDevice GD32VF103";
  Family "0x4f6ace52" "CSK4"
         "LISTENAI CSK300x/400x";
  Family "0x6e7348a8" "CSK6"
         "LISTENAI CSK60xx";
  Family "0x11de784a" "M0SENSE"
         "M0SENSE BL702";
  Family "0x4b684d71" "MaixPlay-U4"
         "Sipeed MaixPlay-U4(BL618)";
  Family "0x9517422f" "RZA1LU"
         "Renesas RZ/A1LU (R7S7210xx)";
  Family "0x2dc309c5" "STM32F411xE"
         "ST STM32F411xE";
  Family "0x06d1097b" "STM32F411xC"
         "ST STM32F411xC";
  Family "0x72721d4e" "NRF52832xxAA"
         "Nordic NRF52832xxAA";
  Family "0x6f752678" "NRF52832xxAB"
         "Nordic NRF52832xxAB";
  Family "0xa0c97b8e" "AT32F415"
         "ArteryTek AT32F415";
  Family "0x699b62ec" "CH32V"
         "WCH CH32V2xx and CH32V3xx";
  Family "0x7be8976d" "RA4M1"
         "Renesas RA4M1"
].

(** a Python [dict] with [str] keys, in insertion order *)
Fixpoint dict_set (d : list (str * Z)) (k : str) (v : Z) : list (str * Z) :=
  match d with
  | [] => [(k, v)]
  | (k', v') :: d' =>
      if bool_decide (k' = k) then (k', v) :: d'
      else (k', v') :: dict_set d' k v
  end.

Fixpoint dict_get (d : list (str * Z)) (k : str) : option Z :=
  match d with
  | [] => None
  | (k', v') :: d' => if bool_decide (k' = k) then Some v' else dict_get d' k
  end.

(** ** The command line driver *)

Inductive event : Type :=
  | EStderr (msg : str)                    (* print(msg, file=sys.stderr) *)
  | EOpen (name : str)                     (* open(name, "wb"): created or truncated *)
  | EWrite (name : str) (data : list byte). (* f.write(buf) *)

Inductive outcome (A : Type) : Type :=
  | Return (a : A)
  | Uncaught (e : exn)
  | Polling.          (* still in the device-wait loop *)
Arguments Return {A} a.
Arguments Uncaught {A} e.
Arguments Polling {A}.

Inductive io (A : Type) : Type := IO (trace : list event) (o : outcome A).
Arguments IO {A} trace o.

Definition trace_of {A} (m : io A) : list event :=
  match m with IO t _ => t end.
Definition outcome_of {A} (m : io A) : outcome A :=
  match m with IO _ o => o end.

#[global] Instance io_ret : MRet io := fun A a => IO [] (Return a).
#[global] Instance io_bind : MBind io := fun A B f m =>
  match m with
  | IO t (Return a) => match f a with IO t' o => IO (t ++ t') o end
  | IO t (Uncaught e) => IO t (Uncaught e)
  | IO t Polling => IO t Polling
  end.

Definition lift {A} (r : result A) : io A :=
  match r with
  | Ok a => IO [] (Return a)
  | Raise e => IO [] (Uncaught e)
  end.

(** [error(msg)]: print to standard error, then [sys.exit(1)] *)
Definition error {A} (msg : str) : io A :=
  IO [EStderr msg] (Uncaught (SystemExit 1)).

(** the value of [outbuf]: [bytes], or the [str] that the info branch
    assigns *)
Inductive pybuf : Type :=
  | PBytes (b : list byte)
  | PStr (s : str).

Inductive ext_t : Type := ExtUf2 | ExtBin | ExtH.

Definition ext_str (e : ext_t) : str :=
  match e with
  | ExtUf2 => str_of_string "uf2"
  | ExtBin => str_of_string "bin"
  | ExtH => str_of_string "h"
  end.

Definition is_ext_uf2 (e : ext_t) : bool :=
  match e with ExtUf2 => true | _ => false end.

(** the parsed command line *)
Record args : Type := Args {
  arg_input : option str;
  arg_base : str;
  arg_family : str;
  arg_output : option str;
  arg_device_path : option str;
  arg_list : bool;
  arg_convert : bool;
  arg_deploy : bool;
  arg_wait : bool;
  arg_carray : bool;
  arg_info : bool
}.

(** what the operating system answers *)
Record env : Type := Env {
  read_input : str → result (list byte);   (* open(name, 'rb').read() *)
  open_wb : str → bool;                    (* does open(name, "wb") succeed *)
  get_drives : nat → result (list str);    (* the n-th call of get_drives() *)
  board_id : str → result str
}.

(** truthiness of an optional [str] *)
Definition str_truthy (o : option str) : bool :=
  match o with
  | Some (_ :: _) => true
  | _ => false
  end.

(** [write_file(name, buf)]; writing a [str] to a binary file raises
    [TypeError] after the file has been opened *)
Definition write_file (E : env) (name : str) (buf : pybuf) : io unit :=
  if open_wb E name then
    match buf with
    | PBytes b => IO [EOpen name; EWrite name b] (Return ())
    | PStr _ => IO [EOpen name] (Uncaught TypeError)
    end
  else IO [] (Uncaught OSError).

Fixpoint for_io {A} (body : A → io unit) (l : list A) : io unit :=
  match l with
  | [] => mret ()
  | x :: l' => _ ← body x; for_io body l'
  end.

(** [list_drives()] *)
Definition list_drives (E : env) : io unit :=
  ds ← lift (get_drives E 0);
  for_io (fun d => _ ← lift (board_id E d); mret ()) ds.

(** [while len(drives) == 0: sleep(0.1); drives = get_drives()], watched
    for [patience] polls, the first of which is call number [n] *)
Fixpoint wait_loop (E : env) (patience : nat) (n : nat) : io (list str) :=
  match patience with
  | O => IO [] Polling
  | S p =>
      ds ← lift (get_drives E n);
      match ds with
      | [] => wait_loop E p (S n)
      | _ :: _ => mret ds
      end
  end.

Section Main.
Context {U : unicode_db}.

Fixpoint load_families_loop (fams : list family_entry)
    (families : list (str * Z)) : result (list (str * Z)) :=
  match fams with
  | [] => Ok families
  | f :: fams' =>
      v ← py_int (str_of_string (f_id f)) 0;
      load_families_loop fams'
        (dict_set families (str_of_string (f_short_name f)) v)
  end.

Definition load_families : result (list (str * Z)) :=
  load_families_loop chip_families [].

(** [main], the resolution of [args.family] *)
Definition resolve_family (families : list (str * Z)) (family : str) : io Z :=
  match dict_get families (py_upper family) with
  | Some v => mret v
  | None =>
      match py_int family 0 with
      | Ok v => mret v
      | Raise ValueError =>
          error (str_of_string "Family ID needs to be a number or one of: "
                 ++ join_comma (map fst families))
      | Raise e => IO [] (Uncaught e)
      end
  end.

(** [main], the chain that computes [outbuf] and [ext]; also returns the
    global [appstartaddr], which the hex converter may leave [None] *)
Definition convert_input (a : args) (familyid appstartaddr0 : Z)
    (inpbuf : list byte) (from_uf2 : bool)
  : result (pybuf * ext_t * option Z) :=
  if arg_deploy a then Ok (PBytes inpbuf, ExtUf2, Some appstartaddr0)
  else if from_uf2 && negb (arg_info a) then
    '(o, s) ← convert_from_uf2 familyid appstartaddr0 inpbuf;
    Ok (PBytes o, ExtBin, Some s)
  else if from_uf2 && arg_info a then
    '(_, s) ← convert_from_uf2 familyid appstartaddr0 inpbuf;
    Ok (PStr [], ExtUf2, Some s)
  else
    h ← is_hex inpbuf;
    if h : bool then
      match utf8_decode inpbuf with
      | None => Raise ValueError          (* UnicodeDecodeError *)
      | Some text =>
          '(o, s) ← convert_from_hex_to_uf2 familyid text;
          Ok (PBytes o, ExtUf2, s)
      end
    else if arg_carray a then
      Ok (PBytes (convert_to_carray inpbuf), ExtH, Some appstartaddr0)
    else
      o ← convert_to_uf2 familyid appstartaddr0 inpbuf;
      Ok (PBytes o, ExtUf2, Some appstartaddr0).

(** [main], the part after the conversion: report, write the file, flash *)
Definition deliver (E : env) (patience : nat) (a : args) (outbuf : pybuf)
    (ext : ext_t) (appstartaddr1 : option Z) : io unit :=
  (* "... start address: 0x%x" % appstartaddr *)
  _ ← (if negb (arg_deploy a) && negb (arg_info a) then
         match appstartaddr1 with
         | Some _ => mret ()
         | None => IO [] (Uncaught TypeError)
         end
       else mret ());
  let output :=
    if arg_convert a || negb (is_ext_uf2 ext) then
      match arg_output a with
      | None => Some (str_of_string "flash." ++ ext_str ext)
      | Some o => Some o
      end
    else arg_output a in
  _ ← (match output with
       | Some (c :: o) => write_file E (c :: o) outbuf
       | _ => mret ()
       end);
  if is_ext_uf2 ext && negb (arg_convert a) && negb (arg_info a) then
    drives ← lift (get_drives E 0);
    drives ← (match drives with
              | [] =>
                  if arg_wait a then wait_loop E patience 1
                  else if negb (str_truthy output)
                  then error (str_of_string "No drive to deploy.")
                  else mret drives
              | _ :: _ => mret drives
              end);
    for_io (fun d =>
              _ ← lift (board_id E d);
              write_file E (d ++ str_of_string "/NEW.UF2") outbuf) drives
  else mret ().

Definition main (E : env) (patience : nat) (a : args) : io unit :=
  appstartaddr0 ← lift (py_int (arg_base a) 0);
  families ← lift load_families;
  familyid ← resolve_family families (arg_family a);
  if arg_list a then list_drives E
  else
    input ← (match arg_input a with
             | Some (c :: s) => mret (c :: s)
             | _ => error (str_of_string "Need input file")
             end);
    inpbuf ← lift (read_input E input);
    from_uf2 ← lift (is_uf2 inpbuf);
    '(outbuf, ext, appstartaddr1) ←
      lift (convert_input a familyid appstartaddr0 inpbuf from_uf2);
    deliver E patience a outbuf ext appstartaddr1.

End Main.

(** ** Views of a UF2 buffer used in the statements *)

(** [buf[ptr:ptr + 512]] for [ptr = blockno * 512] *)
Definition nth_block (buf : list byte) (blockno : nat) : list byte :=
  slice buf (blockno * 512) (blockno * 512 + 512).

(** the header the decoder reads from block [blockno] *)
Definition block_hd (buf : list byte) (blockno : nat) : result header :=
  unpack_header (slice (nth_block buf blockno) 0 32).

Definition good_magic (hd : header) : bool :=
  (hd0 hd =? UF2_MAGIC_START0) && (hd1 hd =? UF2_MAGIC_START1).

Definition no_flash (hd : header) : bool := truthy (Z.land (hd2 hd) 1).

Definition tagged (hd : header) : bool := truthy (Z.land (hd2 hd) 0x2000).

(** a block the decoder does not skip *)
Definition accepted (hd : header) : bool := good_magic hd && negb (no_flash hd).

(** the decoder state before block [k] *)
Definition decode_prefix (familyid appstartaddr0 : Z) (buf : list byte)
    (k : nat) : result dstate :=
  for_each (block_body familyid buf (length buf / 512)%nat) (seq 0 k)
           (dstate_init appstartaddr0).

(** the decoder state before block [k] of [buf] under no filter, for a
    buffer whose decode gets that far *)
Definition state_before (buf : list byte) (k : nat) : dstate :=
  match decode_prefix 0 0 buf k with
  | Ok st => st
  | Raise _ => dstate_init 0
  end.

(** the payload a block contributes under the family filter *)
Definition block_payload (familyid : Z) (hd : header) (block : list byte)
  : list byte :=
  if (familyid =? 0) || (tagged hd && (familyid =? hd7 hd))
  then slice block 32 (32 + Z.to_nat (hd4 hd))
  else [].

Definition bad_gap (gap : Z) : Prop :=
  gap < 0 ∨ 10 * 1024 * 1024 < gap ∨ gap mod 4 ≠ 0.

(** ** Test fixtures and views used in the statements *)

(** the block that iteration [blockno] of [convert_to_uf2] appends *)
Definition uf2_block (familyid appstartaddr0 : Z) (file_content : list byte)
    (numblocks blockno : nat) : list byte :=
  match to_uf2_body familyid appstartaddr0 file_content numblocks blockno [] with
  | Ok [b] => b
  | _ => []
  end.

(** the image with its last chunk zero-padded to 256 bytes *)
Definition padded_image (file_content : list byte) : list byte :=
  file_content
  ++ replicate (256 * ((length file_content + 255) / 256) - length file_content)
               x00.

(** the decoder state after [k] blocks of an encoded image have been read
    back *)
Definition roundtrip_inv (familyid base appstartaddr0 : Z)
    (file_content : list byte) (k : nat) (st : dstate) : Prop :=
  curraddr st = match k with
                | O => None
                | _ => Some (Z.of_nat (256 * k) + base)
                end
  ∧ (k ≠ 0%nat → currfamilyid st = Some familyid)
  ∧ (∀ f, is_Some (families_found st !! f) → f = familyid)
  ∧ concat (outp st) = take (256 * k) (padded_image file_content)
  ∧ appstartaddr st = match k with O => appstartaddr0 | _ => base end.

(** a 512-byte UF2 block with the given header fields and payload *)
Definition mk_block (flags target len blockno total fam : Z)
    (payload : list byte) : list byte :=
  match pack_Is [UF2_MAGIC_START0; UF2_MAGIC_START1; flags; target; len;
                 blockno; total; fam],
        pack_I UF2_MAGIC_END with
  | Ok hd, Ok e => hd ++ take 476 (payload ++ replicate 476 x00) ++ e
  | _, _ => []
  end.

(** the header [mk_block] writes *)
Definition mk_header (flags target len blockno total fam : Z) : header :=
  Header UF2_MAGIC_START0 UF2_MAGIC_START1 flags target len blockno total fam.

(** two blocks tagged with different families, the second one marked
    no-flash *)
Definition two_families_second_noflash : list byte :=
  mk_block 0x2000 0x1000 4 0 2 0xAAAA [x01; x02; x03; x04]
  ++ mk_block 0x2001 0x2000 4 1 2 0xBBBB [x05; x06; x07; x08].

(** two families, then a block that goes back below the cursor *)
Definition two_families_then_backwards : list byte :=
  mk_block 0x2000 0x1000 4 0 3 0xAAAA [x01; x02; x03; x04]
  ++ mk_block 0x2000 0x2000 4 1 3 0xBBBB [x05; x06; x07; x08]
  ++ mk_block 0x2000 0x2000 4 2 3 0xBBBB [x09; x0a; x0b; x0c].

(** two families, then an untagged no-flash block at the end *)
Definition two_families_then_noflash : list byte :=
  mk_block 0x2000 0x1000 4 0 3 0xAAAA [x01; x02; x03; x04]
  ++ mk_block 0x2000 0x2000 4 1 3 0xBBBB [x05; x06; x07; x08]
  ++ mk_block 0x0001 0x3000 4 2 3 0 [x09; x0a; x0b; x0c].

(** two accepted blocks tagged with different families *)
Definition two_families : list byte :=
  mk_block 0x2000 0x1000 4 0 2 0xAAAA [x01; x02; x03; x04]
  ++ mk_block 0x2000 0x2000 4 1 2 0xBBBB [x05; x06; x07; x08].

(** the header of block [k], for [k] below the number of complete blocks *)
Definition header_at (buf : list byte) (k : nat) : header :=
  match block_hd buf k with
  | Ok hd => hd
  | Raise _ => Header 0 0 0 0 0 0 0 0
  end.

Definition uf2_headers (buf : list byte) : list header :=
  map (header_at buf) (seq 0 (length buf / 512)).

(** a well-formed UF2 buffer: whole blocks, good magics, payload lengths of
    at most 476 *)
Definition wf_uf2 (buf : list byte) : bool :=
  (length buf mod 512 =? 0)%nat
  && forallb (fun hd => good_magic hd && (hd4 hd <=? 476)) (uf2_headers buf).

(** all family-tagged blocks carry the same family ID *)
Definition homogeneous (buf : list byte) : bool :=
  match filter (fun hd => tagged hd = true) (uf2_headers buf) with
  | [] => true
  | hd :: rest => forallb (fun hd' => hd7 hd' =? hd7 hd) rest
  end.

(** the blocks that are not no-flash are in ascending order: each starts at
    or after the end of the one before, at a distance that is a multiple
    of 4 and at most 10 MiB *)
Fixpoint in_order_from (prev_end : option Z) (hds : list header) : bool :=
  match hds with
  | [] => true
  | hd :: rest =>
      if no_flash hd then in_order_from prev_end rest
      else
        match prev_end with
        | None => true
        | Some e =>
            (0 <=? hd3 hd - e) && (hd3 hd - e <=? 10 * 1024 * 1024)
            && ((hd3 hd - e) mod 4 =? 0)
        end
        && in_order_from (Some (hd3 hd + hd4 hd)) rest
  end.

Definition in_order (buf : list byte) : bool :=
  in_order_from None (uf2_headers buf).

(** two blocks of one family, the second one below the first *)
Definition one_family_backwards : list byte :=
  mk_block 0x2000 0x1000 256 0 2 0xAAAA [x01; x02; x03; x04]
  ++ mk_block 0x2000 0x0000 256 1 2 0xAAAA [x05; x06; x07; x08].

(** two blocks of one family, the second one 8 bytes after the first *)
Definition one_family_with_gap : list byte :=
  mk_block 0x2000 0x1000 4 0 2 0xAAAA [x01; x02; x03; x04]
  ++ mk_block 0x2000 0x100c 4 1 2 0xAAAA [x05; x06; x07; x08].

(** before block [k] the cursor is where the in-order condition expects it *)
Definition ordered_at (buf : list byte) (k : nat) (st : dstate) : Prop :=
  in_order_from (curraddr st)
    (map (header_at buf) (seq k (length buf / 512 - k))) = true.

(** ** Views of a hex conversion used in the statements *)

(** the bytes [rec[4]], ..., [rec[len(rec) - 2]] of a data record with the
    addresses they go to, the first one to [a] *)
Definition record_bytes (rec : list Z) (a : Z) : list (Z * Z) :=
  imap (fun i v => (a + Z.of_nat i, v)) (slice rec 4 (length rec - 1)).

Section Hex_views.
Context {U : unicode_db}.

(** The data bytes of a hex text in encounter order, each with its address:
    the parse of [convert_from_hex_to_uf2] without the block building.
    [acc] is the address-extension accumulator. *)
Fixpoint data_bytes_from (acc : Z) (lines : list str) : result (list (Z * Z)) :=
  match lines with
  | [] => Ok []
  | line :: lines' =>
      c0 ← index line 0;
      if negb (c0 =? chr ":")%N then data_bytes_from acc lines'
      else
        rec ← parse_rec (length line) line 1 [];
        tp ← index rec 3;
        if tp =? 4 then
          r4 ← index rec 4;
          r5 ← index rec 5;
          data_bytes_from (Z.shiftl (Z.lor (Z.shiftl r4 8) r5) 16) lines'
        else if tp =? 2 then
          r4 ← index rec 4;
          r5 ← index rec 5;
          data_bytes_from (Z.shiftl (Z.lor (Z.shiftl r4 8) r5) 4) lines'
        else if tp =? 1 then Ok []
        else if tp =? 0 then
          r1 ← index rec 1;
          r2 ← index rec 2;
          ws ← data_bytes_from acc lines';
          Ok (record_bytes rec (acc + Z.lor (Z.shiftl r1 8) r2) ++ ws)
        else data_bytes_from acc lines'
  end.

Definition data_bytes (buf : str) : result (list (Z * Z)) :=
  data_bytes_from 0 (split_lines buf).

End Hex_views.

(** the aligned bases at which a new block is started: a base starts a
    block when it differs from the base of the block being filled *)
Fixpoint new_runs (cur : option Z) (bases : list Z) : list Z :=
  match bases with
  | [] => []
  | b :: rest =>
      if opt_eqb cur (Some b) then new_runs cur rest
      else b :: new_runs (Some b) rest
  end.

(** the distinct elements of a list in the order of their first
    appearance *)
Fixpoint first_seen (seen : list Z) (l : list Z) : list Z :=
  match l with
  | [] => []
  | x :: rest =>
      if bool_decide (x ∈ seen) then first_seen seen rest
      else x :: first_seen (x :: seen) rest
  end.

(** feeding a stream of bytes to the block builder *)
Fixpoint put_bytes (ws : list (Z * Z)) (st : hstate) : result hstate :=
  match ws with
  | [] => Ok st
  | (a, v) :: ws' => st' ← put_byte a v st; put_bytes ws' st'
  end.

(** the base of the block being filled *)
Definition current_base (st : hstate) : option Z :=
  addr <$> last (blocks st).

(** the shape of the block store: [currblock] refers to the newest block,
    every block has 256 bytes and an aligned address *)
Definition hex_inv (st : hstate) : Prop :=
  currblock st = match blocks st with
                 | [] => None
                 | _ => Some (length (blocks st) - 1)%nat
                 end
  ∧ Forall (fun b => length (bytes b) = 256%nat ∧ align256 (addr b) = addr b)
           (blocks st).

(** every non-zero payload byte of a block was put there by one of the
    writes [ws] *)
Definition written_by (ws : list (Z * Z)) (bl : list Block) : Prop :=
  ∀ k b p y,
    bl !! k = Some b → bytes b !! p = Some y → y ≠ x00 →
    ∃ a v, In (a, v) ws ∧ align256 a = addr b
           ∧ Z.to_nat (Z.land a 0xff) = p ∧ byte_of_Z v = y.

(** a hex text with two data records in one 256-byte window, the higher
    address first, then one record in a lower window, then the first
    window again *)
Definition hex_sample : str :=
  str_of_string ":0201100001020A" ++ [10%N]
  ++ str_of_string ":020100000304F6" ++ [10%N]
  ++ str_of_string ":02000000050603" ++ [10%N]
  ++ str_of_string ":02012000070800" ++ [10%N]
  ++ str_of_string ":00000001FF" ++ [10%N].

(** what [convert_from_hex_to_uf2] makes of it, for family 0 *)
Definition hex_sample_out : list byte :=
  match convert_from_hex_to_uf2 (U := ascii_db) 0 hex_sample with
  | Ok (out, _) => out
  | Raise _ => []
  end.

(** ** Views of the family resolution used in the statements *)

(** the dict that [load_families] returns *)
Definition registry : list (str * Z) :=
  match load_families (U := ascii_db) with
  | Ok families => families
  | Raise _ => []
  end.

(** [c] is a digit of a literal in base [base] *)
Definition digit_below (base : Z) (c : N) : bool :=
  match digit_value c with
  | Some d => d <? base
  | None => false
  end.

(** the number a digit string denotes in base [base] *)
Definition digits_value (base : Z) (ds : list N) : Z :=
  fold_left (fun acc c => acc * base + default 0 (digit_value c)) ds 0.

(** [0x] or [0X] followed by one or more hexadecimal digits *)
Definition hex_literal (s : str) : bool :=
  match s with
  | c0 :: x :: d :: ds =>
      (c0 =? 48)%N && ((x =? 120) || (x =? 88))%N
      && forallb (digit_below 16) (d :: ds)
  | _ => false
  end.

(** one to 4300 decimal digits, without a leading zero unless all digits
    are zero *)
Definition dec_literal (s : str) : bool :=
  match s with
  | d :: ds =>
      forallb (digit_below 10) (d :: ds)
      && (negb (d =? 48)%N || forallb (fun c => c =? 48)%N ds)
      && (length (d :: ds) <=? int_max_str_digits)%nat
  | [] => false
  end.

(** the message of the fatal error *)
Definition family_error_message : str :=
  str_of_string "Family ID needs to be a number or one of: "
  ++ join_comma (map fst registry).

(** the short names in the table, in table order *)
Definition registered_names : list str :=
  map (fun f => str_of_string (f_short_name f)) chip_families.

(** ** Views of a run of [main] used in the statements *)

Definition is_file_event (ev : event) : bool :=
  match ev with
  | EStderr _ => false
  | EOpen _ | EWrite _ _ => true
  end.

(** the files a run opened for writing or wrote to *)
Definition file_events (t : list event) : list event :=
  List.filter is_file_event t.

(** an operating system with one UF2 file to read and no drive *)
Definition env_sample : env :=
  Env (fun _ => Ok two_families) (fun _ => true)
      (fun _ => Ok []) (fun _ => Ok []).

Definition args_info : args :=
  Args (Some (str_of_string "in.uf2")) (str_of_string "0x2000")
       (str_of_string "0x0") None None false false false false false true.

(** [--info --deploy --output out.uf2] *)
Definition args_info_deploy_output : args :=
  Args (Some (str_of_string "in.uf2")) (str_of_string "0x2000")
       (str_of_string "0x0") (Some (str_of_string "out.uf2")) None
       false false true false false true.

(** [--info --convert] *)
Definition args_info_convert : args :=
  Args (Some (str_of_string "in.uf2")) (str_of_string "0x2000")
       (str_of_string "0x0") None None false true false false false true.

(** the output of the encoding loop, block by block *)
Definition encoded_as (familyid : Z) (bl : list Block) (n : nat)
    (ks : list nat) (es : list (list byte)) : Prop :=
  Forall2 (fun k e => ∃ b, bl !! k = Some b
                           ∧ Block_encode familyid b (Z.of_nat k) (Z.of_nat n)
                             = Ok e) ks es.

(** ** Views of a decoded image used in the statements *)

(** a block the decoder writes to the image: its no-flash bit is clear *)
Definition flashed (buf : list byte) (k : nat) : Prop :=
  no_flash (header_at buf k) = false.

(** block [j] lies in the image [out] at its target address, counted from
    the start address [start] *)
Definition placed (buf out : list byte) (start : Z) (j : nat) : Prop :=
  let hd := header_at buf j in
  start <= hd3 hd
  ∧ hd3 hd + hd4 hd - start <= Z.of_nat (length out)
  ∧ slice out (Z.to_nat (hd3 hd - start))
          (Z.to_nat (hd3 hd - start) + Z.to_nat (hd4 hd))
    = slice (nth_block buf j) 32 (32 + Z.to_nat (hd4 hd)).

(** the decoder state after [k] blocks of a buffer whose flashed blocks all
    carry [fam] in the family field *)
Definition image_inv (buf : list byte) (fam appstartaddr0 : Z) (k : nat)
    (st : dstate) : Prop :=
  match curraddr st with
  | None =>
      st = dstate_init appstartaddr0
      ∧ ∀ j, (j < k)%nat → ¬ flashed buf j
  | Some c =>
      currfamilyid st = Some fam
      ∧ (∀ f, is_Some (families_found st !! f) → f = fam)
      ∧ Z.of_nat (length (concat (outp st))) = c - appstartaddr st
      ∧ (∃ j0, (j0 < k)%nat ∧ flashed buf j0
               ∧ (∀ j, (j < j0)%nat → ¬ flashed buf j)
               ∧ appstartaddr st = hd3 (header_at buf j0))
      ∧ (∃ j1, (j1 < k)%nat ∧ flashed buf j1
               ∧ (∀ j, (j1 < j < k)%nat → ¬ flashed buf j)
               ∧ c = hd3 (header_at buf j1) + hd4 (header_at buf j1))
      ∧ ∀ j, (j < k)%nat → flashed buf j →
             placed buf (concat (outp st)) (appstartaddr st) j
  end.

(** ** Views of the encoder used in the statements *)

(** the fields of block [k] fit their 32-bit slots *)
Definition fields_fit (familyid appstartaddr0 : Z) (n k : nat) : Prop :=
  Forall (fun v => 0 <= v < 2 ^ 32)
         [UF2_MAGIC_START0; UF2_MAGIC_START1; family_flags familyid;
          Z.of_nat (256 * k) + appstartaddr0; 256; Z.of_nat k; Z.of_nat n;
          familyid].

(** the blocks the encoder has appended after [k] iterations *)
Definition encoded_prefix (familyid appstartaddr0 : Z)
    (file_content : list byte) (n k : nat) (out : list (list byte)) : Prop :=
  length out = k
  ∧ ∀ j blk, out !! j = Some blk →
      length blk = 512%nat
      ∧ take 8 blk = [x55; x46; x32; x0a; x57; x51; x5d; x9e]
      ∧ unpack_header (slice blk 0 32)
        = Ok (Header UF2_MAGIC_START0 UF2_MAGIC_START1 (family_flags familyid)
                     (Z.of_nat (256 * j) + appstartaddr0) 256
                     (Z.of_nat j) (Z.of_nat n) familyid)
      ∧ slice blk 32 288
        = slice file_content (256 * j) (256 * j + 256)
          ++ replicate
               (256 - length (slice file_content (256 * j) (256 * j + 256)))
               x00
      ∧ slice blk 288 508 = replicate 220 x00
      ∧ slice blk 508 512 = [x30; x6f; xb1; x0a].

(** ** Views of a hex text used in the statements *)

(** the text made of the given lines, each followed by the line ending
    [eol] *)
Definition unlines (eol : str) (lines : list str) : str :=
  concat (map (fun l => l ++ eol) lines).

(** a line without a line feed in it *)
Definition lf_free (line : str) : bool :=
  forallb (fun c => negb (c =? 10)%N) line.

(** the lines of a hex file: no line feed inside, and of odd length (a
    colon followed by pairs of digits) *)
Definition record_lines (lines : list str) : bool :=
  forallb (fun l => lf_free l && Nat.odd (length l)) lines.

Section Record_views.
Context {U : unicode_db}.

(** the record type of a line as the parser of [convert_from_hex_to_uf2]
    reads it: [None] for a line that does not start with a colon *)
Definition record_type (line : str) : result (option Z) :=
  c0 ← index line 0;
  if negb (c0 =? chr ":")%N then Ok None
  else
    rec ← parse_rec (length line) line 1 [];
    tp ← index rec 3;
    Ok (Some tp).

End Record_views.

(** the standard end-of-file record *)
Definition eof_record : str := str_of_string ":00000001FF".

(** the lines of [hex_sample] *)
Definition hex_sample_lines : list str :=
  [str_of_string ":0201100001020A"; str_of_string ":020100000304F6";
   str_of_string ":02000000050603"; str_of_string ":02012000070800";
   str_of_string ":00000001FF"].

(** every data byte that is not overwritten later sits in a block of its
    aligned base, at the offset of its low address byte *)
Definition landed (ws : list (Z * Z)) (bl : list Block) : Prop :=
  ∀ ws1 a v ws2,
    ws = ws1 ++ (a, v) :: ws2 → (∀ w, In w ws2 → w.1 ≠ a) →
    ∃ k b, bl !! k = Some b ∧ addr b = align256 a
           ∧ bytes b !! Z.to_nat (Z.land a 0xff) = Some (byte_of_Z v).

(** ** Views of the driver used in the statements *)

(** the name under which [main] saves the output when it saves it:
    [--output], or ["flash." + ext] *)
Definition output_name (a : args) (ext : ext_t) : str :=
  match arg_output a with
  | Some o => o
  | None => str_of_string "flash." ++ ext_str ext
  end.

(** opening and writing one file *)
Definition file_written (name : str) (data : list byte) : list event :=
  [EOpen name; EWrite name data].

(** flashing the drives [ds] in turn *)
Definition flashed_drives (ds : list str) (data : list byte) : list event :=
  concat (map (fun d => file_written (d ++ str_of_string "/NEW.UF2") data) ds).

(** the byte strings a run wrote *)
Fixpoint written_data (t : list event) : list (list byte) :=
  match t with
  | [] => []
  | EWrite _ d :: t' => d :: written_data t'
  | _ :: t' => written_data t'
  end.

(** an operating system with the input file [inp], the drives [ds] and
    no failure *)
Definition env_with (inp : list byte) (ds : list str) : env :=
  Env (fun _ => Ok inp) (fun _ => true) (fun _ => Ok ds)
      (fun _ => Ok (str_of_string "board")).

(** [uf2conv.py in.bin] with the options given *)
Definition args_plain (output : option str)
    (list_ convert deploy wait carray info : bool) : args :=
  Args (Some (str_of_string "in.bin")) (str_of_string "0x2000")
       (str_of_string "0x0") output None list_ convert deploy wait carray info.

(** an eight-byte binary image and its conversion to UF2 at 0x2000 *)
Definition bin_sample : list byte := [x01; x02; x03; x04; x05; x06; x07; x08].

Definition bin_sample_uf2 : list byte :=
  match convert_to_uf2 0 0x2000 bin_sample with
  | Ok out => out
  | Raise _ => []
  end.

(** the bytes of a hex file that holds the end-of-file record only *)
Definition hex_eof_bytes : list byte := ascii_bytes eof_record.

(** a hex text with two data records at ascending addresses *)
Definition hex_ascending : str :=
  unlines [10%N]
    [str_of_string ":0200100001020B"; str_of_string ":020120000304F6";
     eof_record].

Definition hex_ascending_uf2 : list byte :=
  match convert_from_hex_to_uf2 (U := ascii_db) 0 hex_ascending with
  | Ok (out, _) => out
  | Raise _ => []
  end.

(** ** Views of the C array used in the statements *)

(** the bytes of the array, 16 to a row *)
Fixpoint carray_rows (fuel : nat) (file_content : list byte)
  : list (list byte) :=
  match fuel, file_content with
  | S fuel', _ :: _ =>
      take 16 file_content :: carray_rows fuel' (drop 16 file_content)
  | _, _ => []
  end.

(** the text of one row *)
Definition row_text (row : list byte) : str := concat (map fmt_02x row).

(** the lines of the header file for the given rows of [n] bytes *)
Definition carray_lines (n : nat) (rows : list (list byte)) : list str :=
  [str_of_string "const unsigned long bindata_len = " ++ fmt_d n
   ++ str_of_string ";";
   str_of_string
     "const unsigned char bindata[] __attribute__((aligned(16))) = {"]
  ++ map row_text rows ++ [str_of_string "};"].

(** * Properties *)

Lemma Ok_inj {A} (a b : A) : Ok a = Ok b → a = b.
Proof. intros H. injection H as ->. reflexivity. Qed.

(** ** Bytes and words *)

Lemma Z_of_byte_range (b : byte) : 0 <= Z_of_byte b < 256.
Proof.
  unfold Z_of_byte. pose proof (Byte.to_N_bounded b). lia.
Qed.

Lemma Z_of_byte_of_Z (z : Z) : Z_of_byte (byte_of_Z z) = z mod 256.
Proof.
  unfold Z_of_byte, byte_of_Z.
  assert (Hr : 0 <= z mod 256 < 256) by (apply Z.mod_pos_bound; lia).
  destruct (Byte.of_N (Z.to_N (z mod 256))) as [b|] eqn:E.
  - apply Byte.to_of_N in E. rewrite E. lia.
  - apply Byte.of_N_None_iff in E. lia.
Qed.

Lemma byte_of_Z_of_byte (b : byte) : byte_of_Z (Z_of_byte b) = b.
Proof.
  unfold byte_of_Z. pose proof (Z_of_byte_range b) as Hr.
  rewrite Z.mod_small by lia. unfold Z_of_byte.
  rewrite N2Z.id, Byte.of_to_N. reflexivity.
Qed.

Lemma le_u32_range b0 b1 b2 b3 : 0 <= le_u32 b0 b1 b2 b3 < 2 ^ 32.
Proof.
  unfold le_u32.
  pose proof (Z_of_byte_range b0). pose proof (Z_of_byte_range b1).
  pose proof (Z_of_byte_range b2). pose proof (Z_of_byte_range b3).
  lia.
Qed.

Lemma le_u32_bytes (v : Z) :
  0 <= v < 2 ^ 32 →
  le_u32 (byte_of_Z v) (byte_of_Z (v / 2 ^ 8))
         (byte_of_Z (v / 2 ^ 16)) (byte_of_Z (v / 2 ^ 24)) = v.
Proof.
  intros Hv. unfold le_u32. rewrite !Z_of_byte_of_Z.
  change (2 ^ 8) with 256. change (2 ^ 16) with 65536.
  change (2 ^ 24) with 16777216. change (2 ^ 32) with 4294967296 in Hv.
  pose proof (Z.div_mod v 256 ltac:(lia)).
  pose proof (Z.div_mod (v / 256) 256 ltac:(lia)).
  pose proof (Z.div_mod (v / 256 / 256) 256 ltac:(lia)).
  rewrite Z.div_div in * by lia. rewrite Z.div_div in * by lia.
  change (256 * 256) with 65536 in *. change (65536 * 256) with 16777216 in *.
  assert (v / 16777216 < 256) by (apply Z.div_lt_upper_bound; lia).
  assert (0 <= v / 16777216) by (apply Z.div_pos; lia).
  rewrite (Z.mod_small (v / 16777216)) by lia.
  lia.
Qed.

Lemma pack_I_ok (v : Z) :
  0 <= v < 2 ^ 32 →
  pack_I v = Ok [byte_of_Z v; byte_of_Z (v / 2 ^ 8);
                 byte_of_Z (v / 2 ^ 16); byte_of_Z (v / 2 ^ 24)].
Proof.
  intros Hv. unfold pack_I.
  destruct (0 <=? v) eqn:E1; [|lia]. destruct (v <? 2 ^ 32) eqn:E2; [|lia].
  reflexivity.
Qed.

Lemma pack_I_inv (v : Z) (bs : list byte) :
  pack_I v = Ok bs → 0 <= v < 2 ^ 32 ∧ length bs = 4%nat ∧ le_words bs = [v].
Proof.
  unfold pack_I. intros H.
  destruct (0 <=? v) eqn:E1; [|discriminate].
  destruct (v <? 2 ^ 32) eqn:E2; [|discriminate].
  simpl in H. injection H as <-.
  assert (Hv : 0 <= v < 2 ^ 32) by lia.
  split; [exact Hv|]. split; [reflexivity|].
  simpl. f_equal. apply le_u32_bytes, Hv.
Qed.

Lemma le_words_app4 (bs rest : list byte) :
  length bs = 4%nat → le_words (bs ++ rest) = le_words bs ++ le_words rest.
Proof.
  intros H. destruct bs as [|b0 [|b1 [|b2 [|b3 [|]]]]]; try discriminate.
  reflexivity.
Qed.

Lemma pack_Is_inv (vs : list Z) (bs : list byte) :
  pack_Is vs = Ok bs →
  Forall (fun v => 0 <= v < 2 ^ 32) vs
  ∧ length bs = (4 * length vs)%nat ∧ le_words bs = vs.
Proof.
  revert bs. induction vs as [|v vs IH]; intros bs H.
  - injection H as <-. split; [constructor|]. split; reflexivity.
  - cbn [pack_Is] in H.
    destruct (pack_I v) as [b|] eqn:Ev; [|discriminate].
    destruct (pack_Is vs) as [bs'|] eqn:Evs; [|discriminate].
    cbn in H. injection H as <-.
    apply pack_I_inv in Ev as (Hv & Hl & Hw).
    destruct (IH _ eq_refl) as (Hf & Hl' & Hw').
    split; [constructor; assumption|]. split.
    + rewrite length_app, Hl, Hl'. cbn [length]. lia.
    + rewrite le_words_app4 by exact Hl. rewrite Hw, Hw'. reflexivity.
Qed.

Lemma pack_Is_ok (vs : list Z) :
  Forall (fun v => 0 <= v < 2 ^ 32) vs → ∃ bs, pack_Is vs = Ok bs.
Proof.
  induction 1 as [|v vs Hv _ [bs IH]].
  - eexists. reflexivity.
  - cbn [pack_Is]. rewrite (pack_I_ok v Hv), IH. eexists. reflexivity.
Qed.

(** ** Slices *)

Lemma slice_length {A} (l : list A) (a b : nat) :
  (b <= length l)%nat → length (slice l a b) = (b - a)%nat.
Proof. intros H. unfold slice. rewrite length_take, length_drop. lia. Qed.

Lemma slice_0 {A} (l : list A) (b : nat) : slice l 0 b = take b l.
Proof. unfold slice. rewrite drop_0. f_equal. lia. Qed.

Lemma slice_app_l {A} (l k : list A) (a b : nat) :
  (b <= length l)%nat → slice (l ++ k) a b = slice l a b.
Proof.
  intros H. unfold slice.
  destruct (decide (a <= length l)%nat) as [Ha|Ha].
  - rewrite drop_app_le by exact Ha.
    rewrite take_app_le; [reflexivity|]. rewrite length_drop. lia.
  - replace (b - a)%nat with 0%nat by lia. reflexivity.
Qed.

Lemma slice_app_r {A} (l k : list A) (a b : nat) :
  slice (l ++ k) (length l + a) (length l + b) = slice k a b.
Proof.
  unfold slice. rewrite drop_app_add. f_equal. lia.
Qed.

Lemma slice_app_r_eq {A} (l k : list A) (n a b : nat) :
  length l = n → slice (l ++ k) (n + a) (n + b) = slice k a b.
Proof. intros <-. apply slice_app_r. Qed.

Lemma slice_take {A} (l : list A) (n a b : nat) :
  (b <= n)%nat → slice (take n l) a b = slice l a b.
Proof.
  intros H. unfold slice.
  destruct (decide (a <= b)%nat) as [Hab|Hab].
  - rewrite !take_drop_commute, take_take. do 2 f_equal. lia.
  - replace (b - a)%nat with 0%nat by lia. reflexivity.
Qed.

Lemma map_lookup {A B} (f : A → B) (l : list A) (i : nat) :
  map f l !! i = f <$> l !! i.
Proof.
  revert i. induction l as [|x l IH]; intros [|i]; try reflexivity.
  apply IH.
Qed.

(** ** Loops *)

Lemma for_each_app {S} (body : nat → S → result S) (l1 l2 : list nat) st :
  for_each body (l1 ++ l2) st = (st' ← for_each body l1 st; for_each body l2 st').
Proof.
  revert st. induction l1 as [|i l1 IH]; intros st; [reflexivity|].
  cbn [for_each app]. destruct (body i st) as [st'|e]; cbn; [apply IH|reflexivity].
Qed.

Lemma for_each_ext {S} (body1 body2 : nat → S → result S) (l : list nat) st :
  (∀ i s, In i l → body1 i s = body2 i s) →
  for_each body1 l st = for_each body2 l st.
Proof.
  revert st. induction l as [|i l IH]; intros st H; [reflexivity|].
  cbn [for_each]. rewrite (H i st) by (left; reflexivity).
  destruct (body2 i st) as [st'|e]; cbn; [|reflexivity].
  apply IH. intros j s Hj. apply H. right. exact Hj.
Qed.

Lemma for_each_snoc {S} (body : nat → S → result S) (n : nat) st :
  for_each body (seq 0 (Datatypes.S n)) st
  = (st' ← for_each body (seq 0 n) st; body n st').
Proof.
  rewrite seq_S, for_each_app. cbn [Nat.add].
  destruct (for_each body (seq 0 n) st) as [st'|e]; cbn; [|reflexivity].
  destruct (body n st'); reflexivity.
Qed.

(** ** Trailing bytes *)

Lemma numblocks_take (buf : list byte) :
  (length (take (512 * (length buf / 512)) buf) / 512 = length buf / 512)%nat.
Proof.
  rewrite length_take_le by (apply Nat.Div0.mul_div_le).
  rewrite Nat.mul_comm. apply Nat.div_mul. discriminate.
Qed.

Lemma block_body_take (familyid : Z) (buf : list byte) (n i : nat) st :
  (i < length buf / 512)%nat →
  block_body familyid (take (512 * (length buf / 512)) buf) n i st
  = block_body familyid buf n i st.
Proof.
  intros Hi. unfold block_body.
  rewrite slice_take by lia. reflexivity.
Qed.

(** C9: [convert_from_uf2] reads only the first [len(buf) // 512] complete
    blocks.  Decoding a buffer and decoding it cut down to its complete
    512-byte blocks give the same outcome: the same bytes and start address,
    or the same exception; the trailing [len(buf) mod 512] bytes are never
    looked at. *)
Theorem convert_from_uf2_ignores_trailing_bytes
    (familyid appstartaddr0 : Z) (buf : list byte) :
  convert_from_uf2 familyid appstartaddr0 buf
  = convert_from_uf2 familyid appstartaddr0
      (take (512 * (length buf / 512)) buf).
Proof.
  unfold convert_from_uf2. rewrite numblocks_take.
  rewrite (for_each_ext
             (block_body familyid (take (512 * (length buf / 512)) buf)
                         (length buf / 512))
             (block_body familyid buf (length buf / 512))); [reflexivity|].
  intros i s Hi. apply in_seq in Hi. apply block_body_take. lia.
Qed.

(** ** The padding gap *)

Lemma pad_loop_spec (fuel : nat) (padding : Z) (out : list (list byte)) :
  0 <= padding → padding mod 4 = 0 → padding / 4 <= Z.of_nat fuel →
  pad_loop fuel padding out = out ++ replicate (Z.to_nat (padding / 4)) zero4.
Proof.
  revert padding out. induction fuel as [|fuel IH]; intros padding out H0 Hm Hf.
  - assert (padding = 0) as -> by (apply Z.div_exact in Hm; lia).
    cbn. rewrite app_nil_r. reflexivity.
  - cbn [pad_loop]. destruct (padding >? 0) eqn:Hp.
    + assert (Hd : padding = 4 * (padding / 4)) by (apply Z.div_exact; lia).
      assert (Hq : (padding - 4) / 4 = padding / 4 - 1).
      { replace (padding - 4) with (padding + (-1) * 4) by lia.
        rewrite Z.div_add by lia. lia. }
      rewrite IH.
      * rewrite Hq. rewrite <- app_assoc. f_equal.
        replace (Z.to_nat (padding / 4))
          with (Datatypes.S (Z.to_nat (padding / 4 - 1))) by lia.
        reflexivity.
      * lia.
      * replace (padding - 4) with (padding + (-1) * 4) by lia.
        rewrite Z.mod_add by lia. exact Hm.
      * lia.
    + assert (padding = 0) as -> by lia. cbn. rewrite app_nil_r. reflexivity.
Qed.

Lemma concat_replicate_zero4 (n : nat) :
  concat (replicate n zero4) = replicate (4 * n) x00.
Proof.
  induction n as [|n IH]; [reflexivity|].
  cbn [replicate concat]. rewrite IH.
  replace (4 * Datatypes.S n)%nat with (4 + 4 * n)%nat by lia. reflexivity.
Qed.

Lemma pad_loop_concat (padding : Z) (out : list (list byte)) :
  0 <= padding → padding mod 4 = 0 →
  concat (pad_loop (Z.to_nat padding) padding out)
  = concat out ++ replicate (Z.to_nat padding) x00.
Proof.
  intros H0 Hm.
  assert (Hd : padding = 4 * (padding / 4)) by (apply Z.div_exact; lia).
  rewrite pad_loop_spec by lia.
  rewrite concat_app, concat_replicate_zero4. do 2 f_equal. lia.
Qed.

Lemma outp_adopt_family hd st : outp (adopt_family hd st) = outp st.
Proof. unfold adopt_family. destruct (_ && _); reflexivity. Qed.

Lemma outp_reset_cursor familyid hd st :
  outp (reset_cursor familyid hd st) = outp st.
Proof. unfold reset_cursor. destruct (_ || _); reflexivity. Qed.

Lemma curraddr_adopt_family hd st : curraddr (adopt_family hd st) = curraddr st.
Proof. unfold adopt_family. destruct (_ && _); reflexivity. Qed.

(** the cursor is always defined when the padding is computed *)
Lemma block_cursor_cases familyid hd st :
  block_cursor familyid hd st = Some (hd3 hd)
  ∨ (∃ c, curraddr st = Some c ∧ block_cursor familyid hd st = Some c).
Proof.
  unfold block_cursor, reset_cursor. rewrite curraddr_adopt_family.
  destruct (curraddr st) as [c|] eqn:Ec; cbn [opt_eqb orb].
  - destruct (_ && _); cbn [curraddr].
    + left. reflexivity.
    + right. exists c. rewrite curraddr_adopt_family. auto.
  - left. reflexivity.
Qed.

Lemma block_padding_ok familyid hd st :
  ∃ c, block_cursor familyid hd st = Some c
       ∧ block_padding familyid hd st = Ok (hd3 hd - c).
Proof.
  unfold block_padding.
  destruct (block_cursor_cases familyid hd st) as [H|(c & _ & H)];
    rewrite H; eauto.
Qed.

Lemma bad_gap_dec (gap : Z) : bad_gap gap ∨ ¬ bad_gap gap.
Proof.
  unfold bad_gap.
  destruct (Z_lt_dec gap 0); [auto|].
  destruct (Z_lt_dec (10 * 1024 * 1024) gap); [auto|].
  destruct (Z.eq_dec (gap mod 4) 0); [|auto].
  right. intros [?|[?|?]]; lia.
Qed.

Lemma accept_block_gap familyid hd block st gap :
  hd4 hd <= 476 →
  block_padding familyid hd st = Ok gap →
  (bad_gap gap → accept_block familyid hd block st = Raise TypeError)
  ∧ (¬ bad_gap gap →
     ∃ st', accept_block familyid hd block st = Ok st'
            ∧ concat (outp st')
              = concat (outp st) ++ replicate (Z.to_nat gap) x00
                ++ block_payload familyid hd block
            ∧ curraddr st' = Some (hd3 hd + hd4 hd)).
Proof.
  intros Hlen Hgap. unfold accept_block, bad_gap.
  destruct (hd4 hd >? 476) eqn:E; [lia|]. clear E.
  rewrite Hgap. cbn [mbind result_bind].
  split.
  - intros Hbad.
    destruct (gap <? 0) eqn:E1; [reflexivity|].
    destruct (gap >? 10 * 1024 * 1024) eqn:E2; [reflexivity|].
    destruct (gap mod 4 =? 0) eqn:E3; [|reflexivity].
    exfalso. destruct Hbad as [?|[?|?]]; lia.
  - intros Hgood.
    destruct (gap <? 0) eqn:E1; [exfalso; apply Hgood; lia|].
    destruct (gap >? 10 * 1024 * 1024) eqn:E2; [exfalso; apply Hgood; lia|].
    destruct (gap mod 4 =? 0) eqn:E3; [|exfalso; apply Hgood; lia].
    cbn [negb]. eexists. split; [reflexivity|]. cbn [outp curraddr].
    split; [|reflexivity].
    unfold block_payload, tagged.
    destruct ((familyid =? 0) || _).
    + rewrite concat_app, pad_loop_concat by lia.
      rewrite outp_reset_cursor, outp_adopt_family.
      cbn [concat]. rewrite app_nil_r, app_assoc. reflexivity.
    + rewrite pad_loop_concat by lia.
      rewrite outp_reset_cursor, outp_adopt_family, app_nil_r. reflexivity.
Qed.

Lemma block_body_accepted familyid buf n k st hd :
  block_hd buf k = Ok hd → accepted hd = true →
  block_body familyid buf n k st
  = (st' ← accept_block familyid hd (nth_block buf k) st;
     Ok (if (k =? n - 1)%nat then last_block familyid st' else st')).
Proof.
  intros Hhd Hacc. unfold block_body.
  unfold block_hd, nth_block in Hhd. rewrite Hhd. cbn [mbind result_bind].
  unfold accepted, good_magic, no_flash in Hacc.
  apply andb_true_iff in Hacc as [Hm Hf].
  apply andb_true_iff in Hm as [-> ->]. cbn [negb orb].
  apply negb_true_iff in Hf. rewrite Hf. reflexivity.
Qed.

(** the cursor against which the gap is measured, read off the state
    before the block *)
Lemma block_cursor_explicit familyid hd st :
  block_cursor familyid hd st
  = Some (match curraddr st, currfamilyid st with
          | None, _ => hd3 hd
          | Some c, Some f =>
              if tagged hd && negb (f =? hd7 hd) then hd3 hd else c
          | Some c, None => c
          end).
Proof.
  unfold block_cursor, reset_cursor, adopt_family, tagged.
  destruct (curraddr st) as [c|] eqn:Ec, (currfamilyid st) as [f|] eqn:Ef,
    (truthy (Z.land (hd2 hd) 0x2000)) eqn:Et;
    cbn [opt_eqb andb orb negb curraddr currfamilyid];
    rewrite ?Ec, ?Ef; cbn [opt_eqb andb orb negb curraddr currfamilyid];
    try reflexivity; try exact Ec.
  - rewrite (Z.eqb_sym (hd7 hd) f).
    destruct (f =? hd7 hd); cbn [negb curraddr]; [exact Ec|reflexivity].
  - rewrite Z.eqb_refl. cbn [negb curraddr]. reflexivity.
Qed.

(** C3: for a block that the decoder accepts (good magics, no-flash bit
    clear, payload length at most 476) the gap is [targetAddr - cursor],
    where the running cursor is the one the state holds before the block,
    [curraddr], unless this is the first accepted block or the block is
    tagged with a family other than the current one: then the cursor is
    reset to [targetAddr] and the gap is 0.  The loop body fails exactly
    when the gap is negative, larger than 10 MiB or not a multiple of 4;
    otherwise exactly [gap] zero bytes are appended to the output,
    followed by the payload when the block passes the family filter, and
    the cursor moves to [targetAddr + datalen]. *)
Theorem gap_check_decides_failure
    (familyid : Z) (buf : list byte) (numblocks blockno : nat)
    (st : dstate) (hd : header) :
  block_hd buf blockno = Ok hd →
  accepted hd = true →
  hd4 hd <= 476 →
  ∃ c gap,
    c = match curraddr st, currfamilyid st with
        | None, _ => hd3 hd
        | Some c0, Some f =>
            if tagged hd && negb (f =? hd7 hd) then hd3 hd else c0
        | Some c0, None => c0
        end
    ∧ block_cursor familyid hd st = Some c ∧ gap = hd3 hd - c
    ∧ (is_ok (block_body familyid buf numblocks blockno st) = false
       ↔ gap < 0 ∨ 10 * 1024 * 1024 < gap ∨ gap mod 4 ≠ 0)
    ∧ (¬ (gap < 0 ∨ 10 * 1024 * 1024 < gap ∨ gap mod 4 ≠ 0) →
       ∃ st', accept_block familyid hd (nth_block buf blockno) st = Ok st'
              ∧ block_body familyid buf numblocks blockno st
                = Ok (if (blockno =? numblocks - 1)%nat
                      then last_block familyid st' else st')
              ∧ concat (outp st')
                = concat (outp st) ++ replicate (Z.to_nat gap) x00
                  ++ block_payload familyid hd (nth_block buf blockno)
              ∧ curraddr st' = Some (hd3 hd + hd4 hd)).
Proof.
  intros Hhd Hacc Hlen.
  pose proof (block_cursor_explicit familyid hd st) as Hc.
  destruct (block_padding_ok familyid hd st) as (c & Hc' & Hp).
  exists c, (hd3 hd - c).
  split; [rewrite Hc in Hc'; injection Hc' as <-; reflexivity|].
  split; [exact Hc'|]. split; [reflexivity|].
  destruct (accept_block_gap familyid hd (nth_block buf blockno) st _ Hlen Hp)
    as [Hbad Hgood].
  rewrite (block_body_accepted _ _ _ _ _ _ Hhd Hacc).
  split.
  - split.
    + intros Hfail.
      destruct (bad_gap_dec (hd3 hd - c)) as [Hb|Hg]; [exact Hb|].
      destruct (Hgood Hg) as (st' & E & _). rewrite E in Hfail.
      discriminate.
    + intros Hb. rewrite (Hbad Hb). reflexivity.
  - intros Hg. destruct (Hgood Hg) as (st' & E & Hout & Hcur).
    exists st'. rewrite E. auto.
Qed.

Lemma gap_check_decides_failure_witness :
  (∃ st',
     accept_block 0 (header_at one_family_with_gap 1)
                  (nth_block one_family_with_gap 1)
                  (state_before one_family_with_gap 1) = Ok st'
     ∧ concat (outp st')
       = [x01; x02; x03; x04] ++ replicate 8 x00 ++ [x05; x06; x07; x08]
     ∧ curraddr st' = Some 0x1010)
  ∧ is_ok (block_body 0 one_family_backwards 2 1
                      (state_before one_family_backwards 1)) = false.
Proof.
  split.
  - destruct (gap_check_decides_failure 0 one_family_with_gap 2 1
                (state_before one_family_with_gap 1)
                (header_at one_family_with_gap 1))
      as (c & gap & Hc & _ & Hg & _ & Hgood);
      [vm_compute; reflexivity|vm_compute; reflexivity
      |vm_compute; discriminate|].
    vm_compute in Hc. subst c. vm_compute in Hg. subst gap.
    destruct Hgood as (st' & E & _ & Hout & Hcur).
    { intros [H|[H|H]]; [vm_compute in H; discriminate H
                        |vm_compute in H; discriminate H
                        |apply H; reflexivity]. }
    exists st'. split; [exact E|]. split.
    + rewrite Hout. vm_compute. reflexivity.
    + rewrite Hcur. vm_compute. reflexivity.
  - destruct (gap_check_decides_failure 0 one_family_backwards 2 1
                (state_before one_family_backwards 1)
                (header_at one_family_backwards 1))
      as (c & gap & Hc & _ & Hg & Hiff & _);
      [vm_compute; reflexivity|vm_compute; reflexivity
      |vm_compute; discriminate|].
    apply Hiff. left. subst gap c. vm_compute. reflexivity.
Defined.

(** ** The encoder *)

Lemma chunk_pad_loop_spec (fuel : nat) (chunk : list byte) :
  (256 - length chunk <= fuel)%nat →
  chunk_pad_loop fuel chunk = chunk ++ replicate (256 - length chunk) x00.
Proof.
  revert chunk. induction fuel as [|fuel IH]; intros chunk Hf.
  - cbn. replace (256 - length chunk)%nat with 0%nat by lia.
    cbn. rewrite app_nil_r. reflexivity.
  - cbn [chunk_pad_loop]. destruct (length chunk <? 256)%nat eqn:E.
    + apply Nat.ltb_lt in E. rewrite IH by (rewrite length_app; cbn; lia).
      rewrite length_app. cbn [length]. rewrite <- app_assoc. f_equal.
      replace (256 - length chunk)%nat
        with (Datatypes.S (256 - (length chunk + 1)))%nat by lia.
      reflexivity.
    + apply Nat.ltb_ge in E.
      replace (256 - length chunk)%nat with 0%nat by lia.
      cbn. rewrite app_nil_r. reflexivity.
Qed.

Lemma datapadding_length : length datapadding = 220%nat.
Proof. reflexivity. Qed.

Lemma unpack_header_packed (w0 w1 w2 w3 w4 w5 w6 w7 : Z) (bs : list byte) :
  pack_Is [w0; w1; w2; w3; w4; w5; w6; w7] = Ok bs →
  length bs = 32%nat ∧ unpack_header bs = Ok (Header w0 w1 w2 w3 w4 w5 w6 w7).
Proof.
  intros H. apply pack_Is_inv in H as (_ & Hl & Hw). cbn in Hl.
  split; [exact Hl|]. unfold unpack_header, unpack_Is.
  rewrite Hl. cbn. rewrite Hw. reflexivity.
Qed.

Lemma family_flags_cases (familyid : Z) :
  (familyid = 0 ∧ family_flags familyid = 0)
  ∨ (familyid ≠ 0 ∧ family_flags familyid = 0x2000).
Proof.
  unfold family_flags, truthy. destruct (familyid =? 0) eqn:E.
  - left. split; [lia|reflexivity].
  - right. split; [lia|reflexivity].
Qed.

Lemma family_flags_range (familyid : Z) : 0 <= family_flags familyid < 2 ^ 32.
Proof.
  destruct (family_flags_cases familyid) as [[_ ->]|[_ ->]]; lia.
Qed.

Section Encoder.
Variables (familyid appstartaddr0 : Z) (file_content : list byte).
Let numblocks := ((length file_content + 255) / 256)%nat.
Hypothesis Hfam : 0 <= familyid < 2 ^ 32.
Hypothesis Hbase : 0 <= appstartaddr0.
Hypothesis Hfit : appstartaddr0 + Z.of_nat (length file_content) <= 2 ^ 32.

Lemma numblocks_bounds :
  (length file_content <= 256 * numblocks
   ∧ 256 * numblocks < length file_content + 256)%nat.
Proof.
  subst numblocks.
  pose proof (Nat.div_mod_eq (length file_content + 255) 256).
  pose proof (Nat.mod_upper_bound (length file_content + 255) 256).
  lia.
Qed.

Lemma to_uf2_body_ok (blockno : nat) (out : list (list byte)) :
  (blockno < numblocks)%nat →
  ∃ blk,
    to_uf2_body familyid appstartaddr0 file_content numblocks blockno out
    = Ok (out ++ [blk])
    ∧ length blk = 512%nat
    ∧ unpack_header (slice blk 0 32)
      = Ok (Header UF2_MAGIC_START0 UF2_MAGIC_START1 (family_flags familyid)
                   (Z.of_nat (256 * blockno) + appstartaddr0) 256
                   (Z.of_nat blockno) (Z.of_nat numblocks) familyid)
    ∧ slice blk 32 288
      = slice (padded_image file_content) (256 * blockno) (256 * blockno + 256).
Proof.
  intros Hk. pose proof numblocks_bounds as [Hn1 Hn2].
  unfold to_uf2_body.
  destruct (pack_Is_ok
              [UF2_MAGIC_START0; UF2_MAGIC_START1; family_flags familyid;
               Z.of_nat (256 * blockno) + appstartaddr0; 256;
               Z.of_nat blockno; Z.of_nat numblocks; familyid])
    as [hd Hhd].
  { pose proof (family_flags_range familyid).
    repeat constructor; unfold UF2_MAGIC_START0, UF2_MAGIC_START1; try lia. }
  fold numblocks. rewrite Hhd. cbn [mbind result_bind].
  destruct (unpack_header_packed _ _ _ _ _ _ _ _ _ Hhd) as [Hl Hu].
  assert (He : ∃ e, pack_I UF2_MAGIC_END = Ok e ∧ length e = 4%nat).
  { eexists. split; reflexivity. }
  destruct He as (e & He & Hle). rewrite He. cbn [mbind result_bind].
  set (chunk := slice file_content (256 * blockno) (256 * blockno + 256)).
  assert (Hcl : (length chunk <= 256)%nat).
  { subst chunk. unfold slice. rewrite length_take. lia. }
  rewrite chunk_pad_loop_spec by lia.
  assert (Hblk : length (hd ++ (chunk ++ replicate (256 - length chunk) x00)
                            ++ datapadding ++ e) = 512%nat).
  { rewrite !length_app, length_replicate, datapadding_length, Hl, Hle. lia. }
  rewrite Hblk. cbn [Nat.eqb].
  eexists. split; [reflexivity|]. split; [exact Hblk|]. split.
  - rewrite slice_0, take_app_length' by (symmetry; exact Hl). exact Hu.
  - rewrite (slice_app_r_eq hd _ 32 0 256 Hl), slice_0.
    rewrite take_app_length' by (rewrite length_app, length_replicate; lia).
    subst chunk. unfold padded_image, slice. fold numblocks.
    replace (256 * blockno + 256 - 256 * blockno)%nat with 256%nat by lia.
    rewrite drop_app_le by lia. rewrite take_app, take_replicate.
    rewrite length_take, length_drop. do 2 f_equal. lia.
Qed.

Lemma to_uf2_body_out (blockno : nat) (out : list (list byte)) :
  to_uf2_body familyid appstartaddr0 file_content numblocks blockno out
  = match to_uf2_body familyid appstartaddr0 file_content numblocks blockno []
    with
    | Ok r => Ok (out ++ r)
    | Raise e => Raise e
    end.
Proof.
  unfold to_uf2_body.
  destruct (pack_Is _) as [hd|]; [|reflexivity]. cbn [mbind result_bind].
  destruct (pack_I UF2_MAGIC_END) as [e|]; [|reflexivity].
  cbn [mbind result_bind].
  destruct (_ =? 512)%nat; reflexivity.
Qed.

Lemma uf2_block_eq (blockno : nat) (out : list (list byte)) :
  (blockno < numblocks)%nat →
  to_uf2_body familyid appstartaddr0 file_content numblocks blockno out
  = Ok (out ++ [uf2_block familyid appstartaddr0 file_content numblocks blockno]).
Proof.
  intros Hk.
  destruct (to_uf2_body_ok blockno [] Hk) as (b' & E' & _).
  rewrite to_uf2_body_out. unfold uf2_block. rewrite E'. reflexivity.
Qed.

Lemma uf2_block_props (blockno : nat) :
  (blockno < numblocks)%nat →
  length (uf2_block familyid appstartaddr0 file_content numblocks blockno)
  = 512%nat
  ∧ unpack_header
      (slice (uf2_block familyid appstartaddr0 file_content numblocks blockno)
             0 32)
    = Ok (Header UF2_MAGIC_START0 UF2_MAGIC_START1 (family_flags familyid)
                 (Z.of_nat (256 * blockno) + appstartaddr0) 256
                 (Z.of_nat blockno) (Z.of_nat numblocks) familyid)
  ∧ slice (uf2_block familyid appstartaddr0 file_content numblocks blockno)
          32 288
    = slice (padded_image file_content) (256 * blockno) (256 * blockno + 256).
Proof.
  intros Hk.
  destruct (to_uf2_body_ok blockno [] Hk) as (b & E & H).
  unfold uf2_block. rewrite E. exact H.
Qed.

Lemma encoder_loop (k : nat) :
  (k <= numblocks)%nat →
  for_each (to_uf2_body familyid appstartaddr0 file_content numblocks)
           (seq 0 k) []
  = Ok (map (uf2_block familyid appstartaddr0 file_content numblocks) (seq 0 k)).
Proof.
  induction k as [|k IH]; intros Hk; [reflexivity|].
  rewrite for_each_snoc, IH by lia. cbn [mbind result_bind].
  rewrite uf2_block_eq by lia. rewrite seq_S, map_app. reflexivity.
Qed.

Lemma convert_to_uf2_ok :
  convert_to_uf2 familyid appstartaddr0 file_content
  = Ok (concat (map (uf2_block familyid appstartaddr0 file_content numblocks)
                    (seq 0 numblocks))).
Proof.
  unfold convert_to_uf2. fold numblocks. rewrite encoder_loop by lia.
  reflexivity.
Qed.

End Encoder.

(** ** Blocks of a concatenation *)

Lemma concat_blocks_length (bl : list (list byte)) :
  Forall (fun b => length b = 512%nat) bl →
  length (concat bl) = (512 * length bl)%nat.
Proof.
  induction 1 as [|b bl Hb _ IH]; [reflexivity|].
  cbn [concat length]. rewrite length_app, Hb, IH. lia.
Qed.

Lemma nth_block_concat (bl : list (list byte)) (k : nat) (b : list byte) :
  Forall (fun b => length b = 512%nat) bl →
  bl !! k = Some b →
  nth_block (concat bl) k = b.
Proof.
  intros Hall. revert k. induction Hall as [|b0 bl Hb0 Hall IH]; intros k Hk.
  - discriminate.
  - cbn [concat]. destruct k as [|k].
    + injection Hk as ->. unfold nth_block. cbn [Nat.mul Nat.add].
      rewrite slice_app_l by lia. rewrite slice_0. apply take_ge. lia.
    + cbn in Hk. unfold nth_block.
      replace (Datatypes.S k * 512)%nat with (512 + k * 512)%nat by lia.
      rewrite <- Nat.add_assoc.
      rewrite (slice_app_r_eq b0 _ 512 _ _ Hb0).
      apply IH, Hk.
Qed.

Lemma numblocks_concat (bl : list (list byte)) :
  Forall (fun b => length b = 512%nat) bl →
  (length (concat bl) / 512 = length bl)%nat.
Proof.
  intros H. rewrite concat_blocks_length by exact H.
  rewrite Nat.mul_comm. apply Nat.div_mul. discriminate.
Qed.

(** ** What one accepted block does to the state *)

Lemma accept_block_fields familyid hd block st st' :
  accept_block familyid hd block st = Ok st' →
  curraddr st' = Some (hd3 hd + hd4 hd)
  ∧ currfamilyid st'
    = currfamilyid (reset_cursor familyid hd (adopt_family hd st))
  ∧ families_found st'
    = note_family hd
        (families_found (reset_cursor familyid hd (adopt_family hd st)))
  ∧ appstartaddr st'
    = appstartaddr (reset_cursor familyid hd (adopt_family hd st)).
Proof.
  unfold accept_block. intros H.
  destruct (hd4 hd >? 476); [discriminate|].
  destruct (block_padding familyid hd st) as [gap|]; [|discriminate].
  cbn [mbind result_bind] in H.
  destruct (gap <? 0); [discriminate|].
  destruct (gap >? 10 * 1024 * 1024); [discriminate|].
  destruct (negb (gap mod 4 =? 0)); [discriminate|].
  injection H as <-. cbn. auto.
Qed.

Lemma families_found_adopt hd st :
  families_found (adopt_family hd st) = families_found st.
Proof. unfold adopt_family. destruct (_ && _); reflexivity. Qed.

Lemma families_found_reset familyid hd st :
  families_found (reset_cursor familyid hd st) = families_found st.
Proof. unfold reset_cursor. destruct (_ || _); reflexivity. Qed.

Lemma reset_cursor_first familyid hd st :
  curraddr st = None →
  reset_cursor familyid hd (adopt_family hd st)
  = DState (Some (hd3 hd)) (Some (hd7 hd)) (families_found st)
           (prev_flag st) (all_flags_same st) (outp st)
           (if (familyid =? 0) || (familyid =? hd7 hd)
            then hd3 hd else appstartaddr st).
Proof.
  intros Hc. unfold reset_cursor. rewrite curraddr_adopt_family, Hc.
  cbn [opt_eqb orb]. unfold adopt_family.
  destruct (_ && _); reflexivity.
Qed.

Lemma reset_cursor_same_family familyid hd st c :
  curraddr st = Some c → currfamilyid st = Some (hd7 hd) →
  reset_cursor familyid hd (adopt_family hd st) = st.
Proof.
  intros Hc Hf. unfold adopt_family. rewrite Hf. cbn [opt_eqb].
  rewrite andb_false_r. unfold reset_cursor. rewrite Hc, Hf.
  cbn [opt_eqb orb]. rewrite Z.eqb_refl. cbn [negb].
  rewrite andb_false_r. reflexivity.
Qed.

Lemma note_family_keys hd (ff : gmap Z Z) (f : Z) :
  is_Some (note_family hd ff !! f) → f = hd7 hd ∨ is_Some (ff !! f).
Proof.
  unfold note_family. destruct (truthy _); [|auto].
  destruct (ff !! hd7 hd) as [a|] eqn:E.
  - destruct (a >? hd3 hd); [|auto].
    destruct (decide (f = hd7 hd)) as [->|Hne]; [auto|].
    rewrite lookup_insert_ne by congruence. auto.
  - destruct (decide (f = hd7 hd)) as [->|Hne]; [auto|].
    rewrite lookup_insert_ne by congruence. auto.
Qed.

Lemma size_single_key (m : gmap Z Z) (x : Z) :
  (∀ f, is_Some (m !! f) → f = x) → (size m <= 1)%nat.
Proof.
  intros H. destruct (m !! x) as [v|] eqn:E.
  - assert (m = {[x := v]}) as ->.
    { apply map_eq. intros i. destruct (decide (i = x)) as [->|Hne].
      - rewrite lookup_singleton_eq. exact E.
      - rewrite lookup_singleton_ne by congruence.
        destruct (m !! i) eqn:Ei; [|reflexivity].
        exfalso. apply Hne, H. eauto. }
    rewrite map_size_singleton. lia.
  - assert (m = ∅) as ->.
    { apply map_empty. intros i. destruct (m !! i) eqn:Ei; [|reflexivity].
      assert (i = x) as -> by (apply H; eauto). congruence. }
    rewrite map_size_empty. lia.
Qed.

Lemma last_block_small familyid st :
  (size (families_found st) <= 1)%nat → last_block familyid st = st.
Proof.
  intros H. unfold last_block.
  destruct (1 <? Z.of_nat (size (families_found st))) eqn:E; [lia|].
  reflexivity.
Qed.

(** ** Round trip *)

Lemma padded_image_length (file_content : list byte) :
  length (padded_image file_content)
  = (256 * ((length file_content + 255) / 256))%nat.
Proof.
  unfold padded_image. rewrite length_app, length_replicate.
  pose proof (Nat.div_mod_eq (length file_content + 255) 256).
  pose proof (Nat.mod_upper_bound (length file_content + 255) 256).
  lia.
Qed.

Lemma padded_image_zeros (file_content : list byte) :
  (256 * ((length file_content + 255) / 256) - length file_content)%nat
  = Z.to_nat (- Z.of_nat (length file_content) mod 256).
Proof.
  pose proof (Nat.div_mod_eq (length file_content + 255) 256) as Hd.
  pose proof (Nat.mod_upper_bound (length file_content + 255) 256) as Hm.
  set (q := ((length file_content + 255) / 256)%nat) in *.
  set (r := ((length file_content + 255) mod 256)%nat) in *.
  assert (Hz : - Z.of_nat (length file_content)
               = (255 - Z.of_nat r) + (- Z.of_nat q) * 256) by lia.
  rewrite Hz, Z.mod_add, Z.mod_small by lia. lia.
Qed.

Section Roundtrip.
Variables (familyid base filter appstartaddr0 : Z) (file_content : list byte).
Let numblocks := ((length file_content + 255) / 256)%nat.
Let blks := map (uf2_block familyid base file_content numblocks)
                (seq 0 numblocks).
Let buf := concat blks.
Hypothesis Hfam : 0 <= familyid < 2 ^ 32.
Hypothesis Hbase : 0 <= base.
Hypothesis Hfit : base + Z.of_nat (length file_content) <= 2 ^ 32.
Hypothesis Hfilter : filter = 0 ∨ filter = familyid.

Lemma blks_512 : Forall (fun b => length b = 512%nat) blks.
Proof.
  subst blks. apply Forall_forall. intros b Hb.
  apply list_elem_of_In, in_map_iff in Hb as (k & <- & Hk).
  apply in_seq in Hk.
  apply uf2_block_props; [assumption..|]. fold numblocks. lia.
Qed.

Lemma buf_numblocks : (length buf / 512 = numblocks)%nat.
Proof.
  subst buf. rewrite numblocks_concat by apply blks_512.
  subst blks. rewrite length_map, length_seq. reflexivity.
Qed.

Lemma buf_block (k : nat) :
  (k < numblocks)%nat →
  nth_block buf k = uf2_block familyid base file_content numblocks k.
Proof.
  intros Hk. subst buf. apply nth_block_concat; [apply blks_512|].
  subst blks. rewrite map_lookup, lookup_seq_lt by exact Hk.
  reflexivity.
Qed.

Lemma roundtrip_step (k : nat) (st : dstate) :
  (k < numblocks)%nat →
  roundtrip_inv familyid base appstartaddr0 file_content k st →
  ∃ st', block_body filter buf numblocks k st = Ok st'
         ∧ roundtrip_inv familyid base appstartaddr0 file_content
                         (Datatypes.S k) st'.
Proof.
  intros Hk (Hcur & Hcf & Hff & Hout & Hstart).
  destruct (uf2_block_props familyid base file_content Hfam Hbase Hfit k)
    as (Hlen & Hhd & Hpay); [fold numblocks; exact Hk|].
  fold numblocks in Hlen, Hhd, Hpay.
  set (hd := Header UF2_MAGIC_START0 UF2_MAGIC_START1 (family_flags familyid)
                    (Z.of_nat (256 * k) + base) 256 (Z.of_nat k)
                    (Z.of_nat numblocks) familyid) in *.
  assert (Hbhd : block_hd buf k = Ok hd).
  { unfold block_hd. rewrite buf_block by exact Hk. exact Hhd. }
  assert (Hacc : accepted hd = true).
  { unfold accepted, good_magic, no_flash, truthy. cbn [hd0 hd1 hd2 hd].
    rewrite !Z.eqb_refl.
    destruct (family_flags_cases familyid) as [[_ ->]|[_ ->]]; reflexivity. }
  rewrite (block_body_accepted _ _ _ _ _ _ Hbhd Hacc).
  rewrite buf_block by exact Hk.
  assert (Hgap : block_padding filter hd st = Ok 0).
  { destruct (block_padding_ok filter hd st) as (c & Hc & Hp).
    rewrite Hp. do 2 f_equal.
    destruct (block_cursor_cases filter hd st) as [H|(c' & Hc' & H)].
    - assert (c = hd3 hd) as -> by congruence. apply Z.sub_diag.
    - assert (c = c') as -> by congruence. rewrite Hcur in Hc'.
      destruct k; [discriminate|].
      assert (c' = hd3 hd) as -> by (subst hd; cbn [hd3]; congruence).
      apply Z.sub_diag. }
  destruct (accept_block_gap filter hd
              (uf2_block familyid base file_content numblocks k) st 0)
    as [_ Hgood]; [cbn; lia|exact Hgap|].
  destruct Hgood as (st' & Hst' & Hout' & _).
  { unfold bad_gap. intros [?|[?|?]]; [lia|lia|]. apply H. reflexivity. }
  destruct (accept_block_fields _ _ _ _ _ Hst') as (Hc1 & Hf1 & Hff1 & Ha1).
  rewrite Hst'. cbn [mbind result_bind].
  assert (Hst1 : currfamilyid (reset_cursor filter hd (adopt_family hd st))
                 = Some familyid
               ∧ appstartaddr (reset_cursor filter hd (adopt_family hd st))
                 = base).
  { destruct k as [|k'].
    - rewrite reset_cursor_first by exact Hcur. cbn [currfamilyid appstartaddr].
      split; [reflexivity|]. cbn [hd7 hd3 hd].
      destruct Hfilter as [->| ->].
      + cbn. lia.
      + rewrite Z.eqb_refl, orb_true_r. cbn. lia.
    - rewrite (reset_cursor_same_family filter hd st _ Hcur)
        by (apply Hcf; discriminate).
      split; [apply Hcf; discriminate|exact Hstart]. }
  destruct Hst1 as [Hf2 Ha2].
  assert (Hkeys : ∀ f, is_Some (families_found st' !! f) → f = familyid).
  { intros f Hf. rewrite Hff1 in Hf. apply note_family_keys in Hf as [->|Hf].
    - reflexivity.
    - rewrite families_found_reset, families_found_adopt in Hf.
      apply Hff, Hf. }
  rewrite last_block_small by (eapply size_single_key; exact Hkeys).
  eexists. split; [destruct (k =? numblocks - 1)%nat; reflexivity|].
  repeat split.
  - rewrite Hc1. cbn [hd3 hd4 hd]. f_equal. lia.
  - intros _. rewrite Hf1. exact Hf2.
  - exact Hkeys.
  - rewrite Hout', Hout. cbn [Z.to_nat replicate app].
    assert (Hp : block_payload filter hd
                   (uf2_block familyid base file_content numblocks k)
                 = slice (padded_image file_content) (256 * k) (256 * k + 256)).
    { unfold block_payload, tagged, truthy. cbn [hd2 hd4 hd7 hd].
      rewrite <- Hpay.
      destruct Hfilter as [->| ->]; [reflexivity|].
      rewrite Z.eqb_refl, andb_true_r.
      destruct (family_flags_cases familyid) as [[-> _]|[_ ->]];
        [reflexivity|].
      destruct (familyid =? 0); reflexivity. }
    rewrite Hp. unfold slice.
    replace (256 * k + 256 - 256 * k)%nat with 256%nat by lia.
    change (replicate (Z.to_nat 0) x00) with (@nil byte).
    rewrite app_nil_l, take_take_drop. f_equal. lia.
  - rewrite Ha1. exact Ha2.
Qed.

Lemma roundtrip_prefix (k : nat) :
  (k <= numblocks)%nat →
  ∃ st, for_each (block_body filter buf numblocks) (seq 0 k)
                 (dstate_init appstartaddr0) = Ok st
        ∧ roundtrip_inv familyid base appstartaddr0 file_content k st.
Proof.
  induction k as [|k IH]; intros Hk.
  - eexists. split; [reflexivity|].
    repeat split; try reflexivity.
    + intros H. contradiction.
    + intros f [v Hv]. cbn in Hv. rewrite lookup_empty in Hv. discriminate.
  - destruct IH as (st & Hrun & Hinv); [lia|].
    destruct (roundtrip_step k st) as (st' & Hstep & Hinv'); [lia|exact Hinv|].
    exists st'. split; [|exact Hinv'].
    rewrite for_each_snoc, Hrun. exact Hstep.
Qed.

Lemma roundtrip_decode :
  convert_from_uf2 filter appstartaddr0 buf
  = Ok (padded_image file_content,
        match numblocks with O => appstartaddr0 | _ => base end).
Proof.
  unfold convert_from_uf2. rewrite buf_numblocks.
  destruct (roundtrip_prefix numblocks) as (st & Hrun & Hinv); [lia|].
  rewrite Hrun. cbn [mbind result_bind].
  destruct Hinv as (_ & _ & _ & Hout & Hstart).
  rewrite Hout, Hstart. f_equal. f_equal.
  apply take_ge. rewrite padded_image_length. fold numblocks. lia.
Qed.

End Roundtrip.

(** C1, as stated, fails: the encoder pads the last chunk to 256 bytes and
    records a payload length of 256 in every block, so a one-byte image
    comes back as 256 bytes. *)
Lemma roundtrip_exact_counterexample :
  ∃ uf2,
    convert_to_uf2 0 0x2000 [x01] = Ok uf2
    ∧ convert_from_uf2 0 0x2000 uf2 = Ok (x01 :: replicate 255 x00, 0x2000)
    ∧ convert_from_uf2 0 0x2000 uf2 ≠ Ok ([x01], 0x2000).
Proof.
  eexists. split; [vm_compute; reflexivity|].
  split; [vm_compute; reflexivity|].
  vm_compute. discriminate.
Qed.

(** C1 (amended): for every image that fits the 32-bit address space from
    its load address, and every 32-bit family ID, [convert_to_uf2] succeeds,
    and decoding its output under the same family filter or under no filter
    gives back the image followed by the zero bytes that pad it to a
    multiple of 256, with the load address as start address; for the empty
    image the output is empty and the start address is left as it was. *)
Theorem roundtrip_up_to_padding
    (familyid base filter appstartaddr0 : Z) (file_content : list byte) :
  0 <= familyid < 2 ^ 32 →
  0 <= base →
  base + Z.of_nat (length file_content) <= 2 ^ 32 →
  filter = 0 ∨ filter = familyid →
  ∃ uf2,
    convert_to_uf2 familyid base file_content = Ok uf2
    ∧ convert_from_uf2 filter appstartaddr0 uf2
      = Ok (file_content
            ++ replicate
                 (Z.to_nat (- Z.of_nat (length file_content) mod 256)) x00,
            match file_content with [] => appstartaddr0 | _ => base end).
Proof.
  intros Hfam Hbase Hfit Hfilter.
  eexists. split; [apply convert_to_uf2_ok; assumption|].
  rewrite (roundtrip_decode familyid base filter appstartaddr0 file_content)
    by assumption.
  unfold padded_image. rewrite padded_image_zeros. do 2 f_equal.
  destruct file_content as [|b l]; [reflexivity|].
  destruct ((length (b :: l) + 255) / 256)%nat eqn:E; [|reflexivity].
  exfalso. apply Nat.div_small_iff in E; [|discriminate]. cbn [length] in E.
  lia.
Qed.

Lemma roundtrip_up_to_padding_witness :
  ∃ uf2,
    convert_to_uf2 0xe48bff56 0x2000 [x01; x02; x03] = Ok uf2
    ∧ convert_from_uf2 0xe48bff56 0 uf2
      = Ok ([x01; x02; x03] ++ replicate 253 x00, 0x2000).
Proof.
  apply (roundtrip_up_to_padding 0xe48bff56 0x2000 0xe48bff56 0
                                 [x01; x02; x03]).
  - lia.
  - lia.
  - cbn [length]. lia.
  - right. reflexivity.
Defined.

(** ** The decoder loop, block by block *)

Lemma decode_prefix_S (familyid appstartaddr0 : Z) (buf : list byte) (k : nat) :
  decode_prefix familyid appstartaddr0 buf (Datatypes.S k)
  = (st ← decode_prefix familyid appstartaddr0 buf k;
     block_body familyid buf (length buf / 512)%nat k st).
Proof. unfold decode_prefix. apply for_each_snoc. Qed.

Lemma convert_from_uf2_prefix (familyid appstartaddr0 : Z) (buf : list byte) :
  convert_from_uf2 familyid appstartaddr0 buf
  = (st ← decode_prefix familyid appstartaddr0 buf (length buf / 512)%nat;
     Ok (concat (outp st), appstartaddr st)).
Proof. reflexivity. Qed.

Lemma nth_block_length (buf : list byte) (k : nat) :
  (k < length buf / 512)%nat → length (nth_block buf k) = 512%nat.
Proof.
  intros Hk. unfold nth_block.
  pose proof (Nat.Div0.mul_div_le (length buf) 512).
  rewrite slice_length by lia. lia.
Qed.

(** every complete block has a header to unpack *)
Lemma block_hd_ok (buf : list byte) (k : nat) :
  (k < length buf / 512)%nat → ∃ hd, block_hd buf k = Ok hd.
Proof.
  intros Hk. unfold block_hd, unpack_header, unpack_Is.
  rewrite slice_length by (rewrite nth_block_length by exact Hk; lia).
  cbn [Nat.sub Nat.mul Nat.add Nat.eqb mbind result_bind].
  pose proof (nth_block_length buf k Hk) as Hl.
  rewrite slice_0.
  destruct (nth_block buf k) as [|b0 l]; [discriminate|].
  do 31 (destruct l as [|? l]; [discriminate|]).
  cbn. eexists. reflexivity.
Qed.

(** the three ways through the loop body *)
Lemma block_body_cases (familyid : Z) (buf : list byte) (n k : nat)
    (st : dstate) (hd : header) :
  block_hd buf k = Ok hd →
  (good_magic hd = false ∧ block_body familyid buf n k st = Raise TypeError)
  ∨ (good_magic hd = true ∧ no_flash hd = true
     ∧ block_body familyid buf n k st = Ok st)
  ∨ (accepted hd = true
     ∧ block_body familyid buf n k st
       = (st' ← accept_block familyid hd (nth_block buf k) st;
          Ok (if (k =? n - 1)%nat then last_block familyid st' else st'))).
Proof.
  intros Hhd. destruct (good_magic hd) eqn:Hm.
  - destruct (no_flash hd) eqn:Hf.
    + right. left. split; [reflexivity|]. split; [reflexivity|].
      unfold block_body. unfold block_hd, nth_block in Hhd. rewrite Hhd.
      cbn [mbind result_bind].
      unfold good_magic in Hm. apply andb_true_iff in Hm as [-> ->].
      cbn [negb orb]. unfold no_flash in Hf. rewrite Hf. reflexivity.
    + right. right.
      assert (Hacc : accepted hd = true)
        by (unfold accepted; rewrite Hm, Hf; reflexivity).
      split; [exact Hacc|]. apply block_body_accepted; assumption.
  - left. split; [reflexivity|].
    unfold block_body. unfold block_hd, nth_block in Hhd. rewrite Hhd.
    cbn [mbind result_bind]. unfold good_magic in Hm.
    apply andb_false_iff in Hm as [-> | ->]; cbn [negb orb];
      rewrite ?orb_true_r; reflexivity.
Qed.

(** ** Families seen by the decoder *)

Lemma note_family_mono hd (ff : gmap Z Z) (f : Z) :
  is_Some (ff !! f) → is_Some (note_family hd ff !! f).
Proof.
  intros Hf. unfold note_family. destruct (truthy _); [|exact Hf].
  destruct (ff !! hd7 hd) as [a|] eqn:E.
  - destruct (a >? hd3 hd); [|exact Hf].
    apply lookup_insert_is_Some. destruct (decide (hd7 hd = f)); auto.
  - apply lookup_insert_is_Some. destruct (decide (hd7 hd = f)); auto.
Qed.

Lemma note_family_tagged hd (ff : gmap Z Z) :
  tagged hd = true → is_Some (note_family hd ff !! hd7 hd).
Proof.
  intros Ht. unfold note_family. unfold tagged in Ht. rewrite Ht.
  destruct (ff !! hd7 hd) as [a|] eqn:E.
  - destruct (a >? hd3 hd).
    + rewrite lookup_insert_eq. eauto.
    + rewrite E. eauto.
  - rewrite lookup_insert_eq. eauto.
Qed.

Lemma families_found_last_block familyid st :
  families_found (last_block familyid st) = families_found st.
Proof. unfold last_block. destruct (_ && _); reflexivity. Qed.

Lemma size_two_keys (m : gmap Z Z) (a b : Z) :
  is_Some (m !! a) → is_Some (m !! b) → a ≠ b → (2 <= size m)%nat.
Proof.
  intros Ha Hb Hne.
  pose proof (map_size_delete_Some a m Ha) as Hd.
  assert (Hb' : is_Some (delete a m !! b))
    by (rewrite lookup_delete_ne by exact Hne; exact Hb).
  apply map_size_ne_0_lookup_2 in Hb'.
  apply map_size_ne_0_lookup_2 in Ha. lia.
Qed.

(** the bookkeeping of one loop iteration keeps every family already seen
    and adds the family of an accepted tagged block *)
Lemma block_body_families (familyid : Z) (buf : list byte) (n k : nat)
    (st st' : dstate) (hd : header) :
  block_hd buf k = Ok hd →
  block_body familyid buf n k st = Ok st' →
  (∀ f, is_Some (families_found st !! f) → is_Some (families_found st' !! f))
  ∧ (accepted hd = true → tagged hd = true →
     is_Some (families_found st' !! hd7 hd)).
Proof.
  intros Hhd Hrun.
  destruct (block_body_cases familyid buf n k st hd Hhd)
    as [[_ E]|[(_ & Hf & E)|[Hacc E]]]; rewrite E in Hrun.
  - discriminate.
  - injection Hrun as <-. split; [auto|].
    intros Hacc _. unfold accepted in Hacc. rewrite Hf in Hacc.
    rewrite andb_false_r in Hacc. discriminate.
  - destruct (accept_block familyid hd (nth_block buf k) st) as [st1|] eqn:E1;
      [|discriminate].
    cbn [mbind result_bind] in Hrun. injection Hrun as <-.
    destruct (accept_block_fields _ _ _ _ _ E1) as (_ & _ & Hff & _).
    rewrite families_found_reset, families_found_adopt in Hff.
    assert (Hff' : families_found
                     (if (k =? n - 1)%nat then last_block familyid st1 else st1)
                   = note_family hd (families_found st)).
    { destruct (k =? n - 1)%nat; [rewrite families_found_last_block|];
        exact Hff. }
    rewrite Hff'. split.
    + intros f. apply note_family_mono.
    + intros _. apply note_family_tagged.
Qed.

Lemma decode_prefix_families (familyid appstartaddr0 : Z) (buf : list byte)
    (k : nat) (st : dstate) :
  (k <= length buf / 512)%nat →
  decode_prefix familyid appstartaddr0 buf k = Ok st →
  ∀ m hd, (m < k)%nat → block_hd buf m = Ok hd →
          accepted hd = true → tagged hd = true →
          is_Some (families_found st !! hd7 hd).
Proof.
  revert st. induction k as [|k IH]; intros st Hk Hrun m hd Hm Hhd Hacc Htag.
  - lia.
  - rewrite decode_prefix_S in Hrun.
    destruct (decode_prefix familyid appstartaddr0 buf k) as [st0|] eqn:E0;
      [|discriminate].
    cbn [mbind result_bind] in Hrun.
    destruct (block_hd_ok buf k) as [hk Hhk]; [lia|].
    destruct (block_body_families _ _ _ _ _ _ _ Hhk Hrun) as [Hmono Hnew].
    destruct (decide (m = k)) as [->|Hne].
    + assert (hk = hd) as -> by congruence. auto.
    + apply Hmono. apply (IH st0 ltac:(lia) eq_refl m hd); [lia|assumption..].
Qed.

(** ** Several families and no filter *)

Lemma last_block_discards (st : dstate) :
  (2 <= size (families_found st))%nat →
  outp (last_block 0 st) = [] ∧ appstartaddr (last_block 0 st) = 0.
Proof.
  intros H. unfold last_block.
  destruct (1 <? Z.of_nat (size (families_found st))) eqn:E; [|lia].
  cbn. auto.
Qed.

Lemma multi_family_discard (appstartaddr0 : Z) (buf out : list byte)
    (start : Z) (i j : nat) (hi hj hl : header) :
  (0 < length buf / 512)%nat →
  block_hd buf (length buf / 512 - 1) = Ok hl → accepted hl = true →
  (i < length buf / 512)%nat → (j < length buf / 512)%nat →
  block_hd buf i = Ok hi → block_hd buf j = Ok hj →
  accepted hi = true → accepted hj = true →
  tagged hi = true → tagged hj = true →
  hd7 hi ≠ hd7 hj →
  convert_from_uf2 0 appstartaddr0 buf = Ok (out, start) →
  out = [] ∧ start = 0.
Proof.
  intros Hn Hhl Hal Hi Hj Hhi Hhj Hai Haj Hti Htj Hne Hrun.
  rewrite convert_from_uf2_prefix in Hrun.
  destruct (decode_prefix 0 appstartaddr0 buf (length buf / 512)) as [st|]
    eqn:Est; [|discriminate].
  cbn [mbind result_bind] in Hrun. injection Hrun as <- <-.
  pose proof (decode_prefix_families 0 appstartaddr0 buf _ st (le_n _) Est)
    as Hfam.
  assert (H2 : (2 <= size (families_found st))%nat).
  { apply (size_two_keys _ (hd7 hi) (hd7 hj)); [| |exact Hne].
    - apply (Hfam i hi); assumption.
    - apply (Hfam j hj); assumption. }
  destruct (length buf / 512)%nat as [|n'] eqn:En; [lia|].
  rewrite decode_prefix_S, En in Est.
  destruct (decode_prefix 0 appstartaddr0 buf n') as [st0|]; [|discriminate].
  cbn [mbind result_bind] in Est.
  replace (Datatypes.S n' - 1)%nat with n' in Hhl by lia.
  rewrite (block_body_accepted _ _ _ _ _ _ Hhl Hal) in Est.
  destruct (accept_block 0 hl (nth_block buf n') st0) as [st1|];
    [|discriminate].
  cbn [mbind result_bind] in Est.
  replace (n' =? Datatypes.S n' - 1)%nat with true in Est
    by (symmetry; apply Nat.eqb_eq; lia).
  injection Est as <-.
  rewrite families_found_last_block in H2.
  destruct (last_block_discards st1 H2) as [-> ->]. auto.
Qed.

Lemma block_cursor_other_family familyid hd st f :
  currfamilyid st = Some f → tagged hd = true → hd7 hd ≠ f →
  block_cursor familyid hd st = Some (hd3 hd).
Proof.
  intros Hf Ht Hne. unfold block_cursor, reset_cursor, adopt_family.
  rewrite Hf. cbn [opt_eqb]. rewrite andb_false_r. rewrite Hf.
  unfold tagged in Ht. rewrite Ht. cbn [opt_eqb andb].
  destruct (hd7 hd =? f) eqn:E; [lia|]. cbn [negb].
  rewrite orb_true_r. reflexivity.
Qed.

Lemma accept_block_zero_gap familyid hd block st :
  hd4 hd <= 476 →
  block_cursor familyid hd st = Some (hd3 hd) →
  ∃ st', accept_block familyid hd block st = Ok st'.
Proof.
  intros Hlen Hc.
  destruct (accept_block_gap familyid hd block st 0 Hlen) as [_ Hgood].
  - unfold block_padding. rewrite Hc. rewrite Z.sub_diag. reflexivity.
  - destruct Hgood as (st' & E & _); [|eauto].
    unfold bad_gap. intros [?|[?|H]]; [lia|lia|]. apply H. reflexivity.
Qed.

(** C2 (amended): when the last block of the buffer is accepted and the
    decoder, run with no family filter, gets through every block, two
    accepted blocks tagged with different family IDs make the result empty
    with start address 0.  A two-block buffer whose blocks are both
    accepted, have payload lengths of at most 476 and carry different
    family tags always decodes, with no filter, to the empty image with
    start address 0. *)
Theorem multi_family_no_filter_is_empty :
  (∀ (appstartaddr0 : Z) (buf out : list byte) (start : Z) (i j : nat)
     (hi hj hl : header),
      (0 < length buf / 512)%nat →
      block_hd buf (length buf / 512 - 1) = Ok hl → accepted hl = true →
      (i < length buf / 512)%nat → (j < length buf / 512)%nat →
      block_hd buf i = Ok hi → block_hd buf j = Ok hj →
      accepted hi = true → accepted hj = true →
      tagged hi = true → tagged hj = true →
      hd7 hi ≠ hd7 hj →
      convert_from_uf2 0 appstartaddr0 buf = Ok (out, start) →
      out = [] ∧ start = 0)
  ∧ (∀ (appstartaddr0 : Z) (buf : list byte) (h1 h2 : header),
      length buf = 1024%nat →
      block_hd buf 0 = Ok h1 → block_hd buf 1 = Ok h2 →
      accepted h1 = true → accepted h2 = true →
      tagged h1 = true → tagged h2 = true →
      hd4 h1 <= 476 → hd4 h2 <= 476 →
      hd7 h1 ≠ hd7 h2 →
      convert_from_uf2 0 appstartaddr0 buf = Ok ([], 0)).
Proof.
  split; [apply multi_family_discard|].
  intros a0 buf h1 h2 Hlen Hh1 Hh2 Ha1 Ha2 Ht1 Ht2 Hl1 Hl2 Hne.
  assert (Hn : (length buf / 512 = 2)%nat) by (rewrite Hlen; reflexivity).
  assert (Hok : ∃ r, convert_from_uf2 0 a0 buf = Ok r).
  { rewrite convert_from_uf2_prefix, Hn.
    rewrite decode_prefix_S, Hn, decode_prefix_S, Hn.
    change (decode_prefix 0 a0 buf 0) with (Ok (dstate_init a0)).
    cbn [mbind result_bind].
    rewrite (block_body_accepted _ _ _ _ _ _ Hh1 Ha1).
    destruct (accept_block_zero_gap 0 h1 (nth_block buf 0) (dstate_init a0) Hl1)
      as [st1 E1].
    { destruct (block_cursor_cases 0 h1 (dstate_init a0))
        as [H|(c & Hc & _)]; [exact H|discriminate]. }
    rewrite E1. cbn [mbind result_bind Nat.eqb Nat.sub].
    destruct (accept_block_fields _ _ _ _ _ E1) as (_ & Hf1 & _ & _).
    rewrite reset_cursor_first in Hf1 by reflexivity.
    cbn [currfamilyid] in Hf1.
    rewrite (block_body_accepted _ _ _ _ _ _ Hh2 Ha2).
    destruct (accept_block_zero_gap 0 h2 (nth_block buf 1) st1 Hl2)
      as [st2 E2].
    { apply (block_cursor_other_family 0 h2 st1 (hd7 h1)); auto. }
    rewrite E2. cbn [mbind result_bind]. eauto. }
  destruct Hok as [[out start] Hrun]. rewrite Hrun. f_equal.
  destruct (multi_family_discard a0 buf out start 0 1 h1 h2 h2) as [-> ->];
    try assumption; rewrite ?Hn; try lia; try assumption.
  reflexivity.
Qed.

Lemma multi_family_no_filter_is_empty_witness :
  (∀ out start,
      convert_from_uf2 0 0x2000 two_families = Ok (out, start) →
      out = [] ∧ start = 0)
  ∧ convert_from_uf2 0 0x2000 two_families = Ok ([], 0).
Proof.
  split.
  - intros out start.
    apply (proj1 multi_family_no_filter_is_empty 0x2000 two_families out start
                 0%nat 1%nat
                 (mk_header 0x2000 0x1000 4 0 2 0xAAAA)
                 (mk_header 0x2000 0x2000 4 1 2 0xBBBB)
                 (mk_header 0x2000 0x2000 4 1 2 0xBBBB));
      try (vm_compute; reflexivity); try (vm_compute; lia);
      vm_compute; discriminate.
  - apply (proj2 multi_family_no_filter_is_empty 0x2000 two_families
                 (mk_header 0x2000 0x1000 4 0 2 0xAAAA)
                 (mk_header 0x2000 0x2000 4 1 2 0xBBBB));
      try (vm_compute; reflexivity); vm_compute; discriminate.
Defined.

(** C2, as stated, fails.  Two blocks that carry different family tags do
    not give an empty image when the second one is a no-flash block, which
    the decoder skips: the first payload is returned.  And a buffer in which
    two families have been seen does not give an empty image when a later
    block fails the gap check: the decoder raises. *)
Lemma multi_family_counterexample :
  (block_hd two_families_second_noflash 0
   = Ok (mk_header 0x2000 0x1000 4 0 2 0xAAAA)
   ∧ block_hd two_families_second_noflash 1
     = Ok (mk_header 0x2001 0x2000 4 1 2 0xBBBB)
   ∧ convert_from_uf2 0 0 two_families_second_noflash
     = Ok ([x01; x02; x03; x04], 0x1000))
  ∧ convert_from_uf2 0 0 two_families_then_backwards = Raise TypeError.
Proof.
  repeat split; vm_compute; reflexivity.
Qed.

(** The check for several families sits inside the loop body, after the
    [continue] of a skipped block: when the last block of the buffer is a
    no-flash block the check never runs and both payloads are returned. *)
Lemma multi_family_check_skipped :
  convert_from_uf2 0 0 two_families_then_noflash
  = Ok ([x01; x02; x03; x04; x05; x06; x07; x08], 0x2000).
Proof. vm_compute. reflexivity. Qed.

(** ** Well-formed buffers *)

Lemma block_hd_header_at (buf : list byte) (k : nat) :
  (k < length buf / 512)%nat → block_hd buf k = Ok (header_at buf k).
Proof.
  intros Hk. unfold header_at.
  destruct (block_hd_ok buf k Hk) as [hd ->]. reflexivity.
Qed.

Lemma headers_from (buf : list byte) (k : nat) :
  (k < length buf / 512)%nat →
  map (header_at buf) (seq k (length buf / 512 - k))
  = header_at buf k
    :: map (header_at buf) (seq (Datatypes.S k) (length buf / 512 - Datatypes.S k)).
Proof.
  intros Hk.
  replace (length buf / 512 - k)%nat
    with (Datatypes.S (length buf / 512 - Datatypes.S k)) by lia.
  reflexivity.
Qed.

Lemma wf_uf2_header (buf : list byte) (k : nat) :
  wf_uf2 buf = true → (k < length buf / 512)%nat →
  good_magic (header_at buf k) = true ∧ hd4 (header_at buf k) <= 476.
Proof.
  intros Hwf Hk. unfold wf_uf2 in Hwf. apply andb_true_iff in Hwf as [_ Hall].
  rewrite forallb_forall in Hall.
  assert (Hin : In (header_at buf k) (uf2_headers buf)).
  { unfold uf2_headers. apply in_map, in_seq. lia. }
  apply Hall, andb_true_iff in Hin as [Hm Hl]. split; [exact Hm|lia].
Qed.

Section Well_formed.
Variables (familyid appstartaddr0 : Z) (buf : list byte).
Hypothesis Hwf : wf_uf2 buf = true.
Hypothesis Hord : in_order buf = true.

Lemma ordered_gap (k : nat) (st : dstate) :
  (k < length buf / 512)%nat → ordered_at buf k st →
  no_flash (header_at buf k) = false →
  ∃ gap, block_padding familyid (header_at buf k) st = Ok gap
         ∧ ¬ bad_gap gap.
Proof.
  intros Hk Hinv Hnf. unfold ordered_at in Hinv.
  rewrite headers_from in Hinv by exact Hk. cbn [in_order_from] in Hinv.
  rewrite Hnf in Hinv. apply andb_true_iff in Hinv as [Hgap _].
  destruct (block_padding_ok familyid (header_at buf k) st) as (c & Hc & Hp).
  exists (hd3 (header_at buf k) - c). split; [exact Hp|].
  destruct (block_cursor_cases familyid (header_at buf k) st)
    as [H|(c' & Hc' & H)].
  - assert (c = hd3 (header_at buf k)) as -> by congruence.
    rewrite Z.sub_diag. unfold bad_gap. intros [?|[?|H']]; [lia|lia|].
    apply H'. reflexivity.
  - assert (c = c') as -> by congruence. rewrite Hc' in Hgap.
    apply andb_true_iff in Hgap as [Hgap H3].
    apply andb_true_iff in Hgap as [H1 H2].
    unfold bad_gap. intros [?|[?|H']]; [lia|lia|]. apply H'. lia.
Qed.

Lemma ordered_step (k : nat) (st : dstate) :
  (k < length buf / 512)%nat → ordered_at buf k st →
  ∃ st', block_body familyid buf (length buf / 512) k st = Ok st'
         ∧ ordered_at buf (Datatypes.S k) st'.
Proof.
  intros Hk Hinv.
  pose proof (block_hd_header_at buf k Hk) as Hhd.
  destruct (wf_uf2_header buf k Hwf Hk) as [Hm Hlen].
  destruct (block_body_cases familyid buf (length buf / 512) k st _ Hhd)
    as [[Hm' _]|[(_ & Hf & E)|[Hacc E]]].
  - congruence.
  - exists st. split; [exact E|].
    unfold ordered_at in *. rewrite headers_from in Hinv by exact Hk.
    cbn [in_order_from] in Hinv. rewrite Hf in Hinv. exact Hinv.
  - assert (Hnf : no_flash (header_at buf k) = false).
    { unfold accepted in Hacc. apply andb_true_iff in Hacc as [_ Hacc].
      apply negb_true_iff in Hacc. exact Hacc. }
    destruct (ordered_gap k st Hk Hinv Hnf) as (gap & Hp & Hgood).
    destruct (accept_block_gap familyid (header_at buf k) (nth_block buf k)
                st gap Hlen Hp) as [_ Hok].
    destruct (Hok Hgood) as (st' & Est & _ & Hcur).
    rewrite E, Est. cbn [mbind result_bind]. eexists. split; [reflexivity|].
    unfold ordered_at in *. rewrite headers_from in Hinv by exact Hk.
    cbn [in_order_from] in Hinv. rewrite Hnf in Hinv.
    apply andb_true_iff in Hinv as [_ Hrest].
    assert (Hc' : curraddr (if (k =? length buf / 512 - 1)%nat
                            then last_block familyid st' else st')
                  = curraddr st').
    { destruct (k =? _)%nat; [|reflexivity].
      unfold last_block. destruct (_ && _); reflexivity. }
    rewrite Hc', Hcur. exact Hrest.
Qed.

Lemma ordered_prefix (k : nat) :
  (k <= length buf / 512)%nat →
  ∃ st, decode_prefix familyid appstartaddr0 buf k = Ok st ∧ ordered_at buf k st.
Proof.
  induction k as [|k IH]; intros Hk.
  - exists (dstate_init appstartaddr0). split; [reflexivity|].
    unfold ordered_at. rewrite Nat.sub_0_r. exact Hord.
  - destruct IH as (st & Hrun & Hinv); [lia|].
    destruct (ordered_step k st) as (st' & Hstep & Hinv'); [lia|exact Hinv|].
    exists st'. split; [|exact Hinv'].
    rewrite decode_prefix_S, Hrun. exact Hstep.
Qed.

End Well_formed.

(** C7, as stated, fails: a well-formed buffer with a single family whose
    second block lies below the end of the first is refused by the gap
    check. *)
Lemma wellformed_decode_counterexample :
  wf_uf2 one_family_backwards = true
  ∧ homogeneous one_family_backwards = true
  ∧ convert_from_uf2 0 0 one_family_backwards = Raise TypeError.
Proof.
  repeat split; vm_compute; reflexivity.
Qed.

(** C7 (amended): for every well-formed UF2 buffer (whole blocks, good
    magics, payload lengths of at most 476) in which all family-tagged
    blocks carry the same family ID and in which every block that is not
    no-flash starts at or after the end of the previous such block, at a
    distance that is a multiple of 4 and at most 10 MiB, [convert_from_uf2]
    returns, and the gap computed for every block it accepts is a
    non-negative multiple of 4 of at most 10 MiB.  (The proof does not use
    the hypothesis on the family IDs.) *)
Theorem wellformed_in_order_decode_never_fails
    (familyid appstartaddr0 : Z) (buf : list byte) :
  wf_uf2 buf = true →
  homogeneous buf = true →
  in_order buf = true →
  (∃ out start, convert_from_uf2 familyid appstartaddr0 buf = Ok (out, start))
  ∧ (∀ k, (k < length buf / 512)%nat →
          no_flash (header_at buf k) = false →
          ∃ st gap,
            decode_prefix familyid appstartaddr0 buf k = Ok st
            ∧ block_padding familyid (header_at buf k) st = Ok gap
            ∧ 0 <= gap <= 10 * 1024 * 1024 ∧ gap mod 4 = 0).
Proof.
  intros Hwf _ Hord. split.
  - destruct (ordered_prefix familyid appstartaddr0 buf Hwf Hord
                             (length buf / 512)) as (st & Hrun & _); [lia|].
    rewrite convert_from_uf2_prefix, Hrun. cbn [mbind result_bind]. eauto.
  - intros k Hk Hnf.
    destruct (ordered_prefix familyid appstartaddr0 buf Hwf Hord k)
      as (st & Hrun & Hinv); [lia|].
    destruct (ordered_gap familyid buf k st Hk Hinv Hnf) as (gap & Hp & Hgood).
    exists st, gap. split; [exact Hrun|]. split; [exact Hp|].
    unfold bad_gap in Hgood.
    destruct (Z.eq_dec (gap mod 4) 0) as [H4|H4]; [|tauto].
    split; [|exact H4].
    destruct (Z_lt_dec gap 0); [tauto|].
    destruct (Z_lt_dec (10 * 1024 * 1024) gap); [tauto|]. lia.
Qed.

Lemma wellformed_in_order_decode_never_fails_witness :
  (∃ out start, convert_from_uf2 0xAAAA 0 one_family_with_gap = Ok (out, start))
  ∧ (∀ k, (k < length one_family_with_gap / 512)%nat →
          no_flash (header_at one_family_with_gap k) = false →
          ∃ st gap,
            decode_prefix 0xAAAA 0 one_family_with_gap k = Ok st
            ∧ block_padding 0xAAAA (header_at one_family_with_gap k) st = Ok gap
            ∧ 0 <= gap <= 10 * 1024 * 1024 ∧ gap mod 4 = 0).
Proof.
  apply (wellformed_in_order_decode_never_fails 0xAAAA 0 one_family_with_gap);
    vm_compute; reflexivity.
Defined.

(** the second block of [one_family_with_gap] is reached with a gap of 8 *)
Lemma one_family_with_gap_decodes :
  convert_from_uf2 0xAAAA 0 one_family_with_gap
  = Ok ([x01; x02; x03; x04] ++ replicate 8 x00 ++ [x05; x06; x07; x08],
        0x1000).
Proof. vm_compute. reflexivity. Qed.

(** ** The block builder of the hex converter *)

Lemma align256_idem (a : Z) : align256 (align256 a) = align256 a.
Proof. unfold align256. rewrite <- Z.land_assoc, Z.land_diag. reflexivity. Qed.

Lemma low_byte_range (a : Z) : 0 <= Z.land a 0xff < 256.
Proof.
  change 0xff with (Z.ones 8). rewrite Z.land_ones by lia.
  apply Z.mod_pos_bound. lia.
Qed.

Lemma insert_last {A} (l : list A) (x y : A) :
  <[length l := x]> (l ++ [y]) = l ++ [x].
Proof.
  rewrite insert_app_r_alt by lia. rewrite Nat.sub_diag. reflexivity.
Qed.

Lemma lookup_last_app {A} (l : list A) (y : A) :
  (l ++ [y]) !! length l = Some y.
Proof. rewrite lookup_app_r by lia. rewrite Nat.sub_diag. reflexivity. Qed.

Lemma exists_last_or_nil {A} (l : list A) :
  l = [] ∨ ∃ front x, l = front ++ [x].
Proof.
  induction l as [|l x _] using rev_ind; [left; reflexivity|].
  right. eauto.
Qed.

Lemma newest_index_snoc {A} (l : list A) (x : A) :
  match l ++ [x] with
  | [] => None
  | _ => Some (length (l ++ [x]) - 1)%nat
  end = Some (length l).
Proof.
  destruct (l ++ [x]) eqn:E; [apply app_eq_nil in E as [_ E]; discriminate|].
  rewrite <- E, length_app. cbn [length]. f_equal. lia.
Qed.

Lemma index_last_app {A} (l : list A) (y : A) :
  index (l ++ [y]) (length l) = Ok y.
Proof. unfold index. rewrite lookup_last_app. reflexivity. Qed.

Lemma current_base_snoc h u c front b :
  current_base (HState h u c (front ++ [b])) = Some (addr b).
Proof. unfold current_base. cbn [blocks]. rewrite last_snoc. reflexivity. Qed.

Lemma bytearray_set_ok (bs : list byte) (i : nat) (v : Z) (bs' : list byte) :
  bytearray_set bs i v = Ok bs' →
  0 <= v < 256 ∧ (i < length bs)%nat ∧ bs' = <[i := byte_of_Z v]> bs.
Proof.
  unfold bytearray_set. intros H.
  destruct (0 <=? v) eqn:E1; [|discriminate].
  destruct (v <? 256) eqn:E2; [|discriminate]. cbn [andb] in H.
  destruct (i <? length bs)%nat eqn:E3; [|discriminate].
  injection H as <-. apply Nat.ltb_lt in E3. repeat split; lia || auto.
Qed.

(** what one [put_byte] does: the newest block is replaced by a block with
    the byte stored, after a fresh zero block has been appended when the
    base changes *)
Lemma put_byte_ok (a v : Z) (st st' : hstate) :
  hex_inv st → put_byte a v st = Ok st' →
  hex_inv st'
  ∧ h_appstartaddr st' = h_appstartaddr st ∧ upper st' = upper st
  ∧ ∃ front b0,
      (if opt_eqb (current_base st) (Some (align256 a))
       then blocks st = front ++ [b0]
       else front = blocks st ∧ b0 = Block_init (align256 a))
      ∧ addr b0 = align256 a
      ∧ blocks st'
        = front ++ [MkBlock (align256 a)
                      (<[Z.to_nat (Z.land a 0xff) := byte_of_Z v]> (bytes b0))].
Proof.
  intros [Hcur Hall] Hput. unfold put_byte, needs_new_block in Hput.
  destruct st as [h u c bl]. cbn [currblock blocks h_appstartaddr upper] in *.
  destruct (exists_last_or_nil bl) as [->|(front & b0 & ->)].
  - (* no block yet *)
    subst c. cbn [mbind result_bind currblock blocks length app] in Hput.
    unfold index in Hput. cbn [lookup list_lookup] in Hput.
    cbn [mbind result_bind bytes Block_init] in Hput.
    destruct (bytearray_set _ _ _) as [bs|] eqn:Ebs; [|discriminate].
    cbn [mbind result_bind] in Hput. injection Hput as <-.
    apply bytearray_set_ok in Ebs as (_ & _ & ->).
    split; [|split; [reflexivity|split; [reflexivity|]]].
    + split; [reflexivity|]. cbn [blocks]. repeat constructor.
      * cbn [bytes]. rewrite length_insert, length_replicate. reflexivity.
      * cbn [addr]. apply align256_idem.
    + exists [], (Block_init (align256 a)). cbn [current_base opt_eqb].
      unfold current_base. cbn. auto.
  - (* [b0] is the block being filled *)
    apply Forall_app in Hall as [Hfront Hb0].
    apply Forall_singleton in Hb0 as [Hlen0 Hal0].
    assert (Hc : c = Some (length front))
      by (rewrite Hcur; apply newest_index_snoc).
    clear Hcur. subst c. cbn [mbind result_bind] in Hput.
    rewrite index_last_app in Hput.
    cbn [mbind result_bind] in Hput. rewrite Hal0 in Hput.
    rewrite current_base_snoc. cbn [opt_eqb].
    destruct (addr b0 =? align256 a) eqn:Eq; cbn [negb] in Hput.
    + (* same base *)
      cbn [currblock blocks] in Hput.
      rewrite index_last_app in Hput. cbn [mbind result_bind] in Hput.
      destruct (bytearray_set _ _ _) as [bs|] eqn:Ebs; [|discriminate].
      cbn [mbind result_bind] in Hput. injection Hput as <-.
      apply bytearray_set_ok in Ebs as (_ & _ & ->).
      apply Z.eqb_eq in Eq.
      cbn [h_appstartaddr upper currblock blocks]. rewrite insert_last.
      split; [|split; [reflexivity|split; [reflexivity|]]].
      * split.
        -- cbn [blocks currblock]. symmetry. apply newest_index_snoc.
        -- cbn [blocks]. apply Forall_app. split; [exact Hfront|].
           apply Forall_singleton. cbn [bytes addr].
           rewrite length_insert. split; [exact Hlen0|]. congruence.
      * exists front, b0. rewrite Eq. auto.
    + (* a new block *)
      cbn [currblock blocks] in Hput.
      rewrite index_last_app in Hput. cbn [mbind result_bind] in Hput.
      cbn [bytes Block_init] in Hput.
      destruct (bytearray_set _ _ _) as [bs|] eqn:Ebs; [|discriminate].
      cbn [mbind result_bind] in Hput. injection Hput as <-.
      apply bytearray_set_ok in Ebs as (_ & _ & ->).
      cbn [h_appstartaddr upper currblock blocks addr]. rewrite insert_last.
      split; [|split; [reflexivity|split; [reflexivity|]]].
      * split.
        -- cbn [blocks currblock]. symmetry. apply newest_index_snoc.
        -- cbn [blocks]. apply Forall_app. split.
           ++ apply Forall_app. split; [exact Hfront|].
              apply Forall_singleton. auto.
           ++ apply Forall_singleton. cbn [bytes addr].
              rewrite length_insert, length_replicate.
              split; [reflexivity|apply align256_idem].
      * exists (front ++ [b0]), (Block_init (align256 a)). auto.
Qed.

Lemma opt_eqb_eq (a b : option Z) : opt_eqb a b = true ↔ a = b.
Proof.
  destruct a as [x|], b as [y|]; cbn; split; intros H;
    try discriminate; try reflexivity.
  - f_equal. lia.
  - injection H as ->. apply Z.eqb_refl.
Qed.

Lemma put_byte_addrs (a v : Z) (st st' : hstate) :
  hex_inv st → put_byte a v st = Ok st' →
  map addr (blocks st')
  = map addr (blocks st) ++ new_runs (current_base st) [align256 a]
  ∧ current_base st' = Some (align256 a).
Proof.
  intros Hinv Hput.
  destruct (put_byte_ok a v st st' Hinv Hput)
    as (_ & _ & _ & front & b0 & Hcase & Hb0 & Hbl).
  split.
  - rewrite Hbl, map_app. cbn [map addr new_runs].
    destruct (opt_eqb (current_base st) (Some (align256 a))).
    + rewrite Hcase, map_app. cbn [map]. rewrite Hb0, app_nil_r. reflexivity.
    + destruct Hcase as [-> _]. reflexivity.
  - unfold current_base. rewrite Hbl, last_snoc. reflexivity.
Qed.

Lemma put_byte_written (a v : Z) (st st' : hstate) (W : list (Z * Z)) :
  hex_inv st → put_byte a v st = Ok st' →
  written_by W (blocks st) → written_by (W ++ [(a, v)]) (blocks st').
Proof.
  intros Hinv Hput HW.
  destruct (put_byte_ok a v st st' Hinv Hput)
    as (_ & _ & _ & front & b0 & Hcase & Hb0 & Hbl).
  intros k b p y Hk Hp Hy. rewrite Hbl in Hk.
  assert (Hold : ∀ k' b', blocks st !! k' = Some b' →
                   bytes b' !! p = Some y →
                   ∃ a' v', In (a', v') (W ++ [(a, v)]) ∧ align256 a' = addr b'
                            ∧ Z.to_nat (Z.land a' 0xff) = p ∧ byte_of_Z v' = y).
  { intros k' b' Hk' Hp'.
    destruct (HW k' b' p y Hk' Hp' Hy) as (a' & v' & Hin & H).
    exists a', v'. split; [apply in_or_app; left; exact Hin|exact H]. }
  destruct (decide (k < length front)%nat) as [Hlt|Hge].
  - rewrite lookup_app_l in Hk by exact Hlt.
    destruct (opt_eqb (current_base st) (Some (align256 a))).
    + apply (Hold k b); [|exact Hp]. rewrite Hcase.
      rewrite lookup_app_l by exact Hlt. exact Hk.
    + destruct Hcase as [-> _]. apply (Hold k b); assumption.
  - rewrite lookup_app_r in Hk by lia.
    destruct (k - length front)%nat as [|k'] eqn:Ek; [|destruct k'; discriminate].
    cbn in Hk. injection Hk as <-. cbn [bytes addr] in *.
    destruct (decide (p = Z.to_nat (Z.land a 0xff))) as [->|Hne].
    + exists a, v. split; [apply in_or_app; right; left; reflexivity|].
      split; [reflexivity|]. split; [reflexivity|].
      destruct (decide (Z.to_nat (Z.land a 0xff) < length (bytes b0))%nat)
        as [Hin|Hout].
      * rewrite list_lookup_insert_eq in Hp by exact Hin. congruence.
      * rewrite list_insert_ge in Hp by lia.
        apply lookup_lt_Some in Hp. lia.
    + rewrite list_lookup_insert_ne in Hp by congruence.
      destruct (opt_eqb (current_base st) (Some (align256 a))).
      * destruct (Hold (length front) b0) as (a' & v' & Hin & Ha' & H);
          [rewrite Hcase; apply lookup_last_app|exact Hp|].
        exists a', v'. split; [exact Hin|]. split; [congruence|exact H].
      * destruct Hcase as [_ ->]. cbn [bytes Block_init] in Hp.
        apply lookup_replicate in Hp as [-> _]. contradiction.
Qed.

Lemma put_bytes_spec (ws : list (Z * Z)) (st st' : hstate) (W : list (Z * Z)) :
  hex_inv st → written_by W (blocks st) → put_bytes ws st = Ok st' →
  hex_inv st'
  ∧ h_appstartaddr st' = h_appstartaddr st ∧ upper st' = upper st
  ∧ map addr (blocks st')
    = map addr (blocks st)
      ++ new_runs (current_base st) (map (fun w => align256 w.1) ws)
  ∧ (ws ≠ [] → current_base st' = (fun w => align256 w.1) <$> last ws)
  ∧ written_by (W ++ ws) (blocks st').
Proof.
  revert st W. induction ws as [|[a v] ws IH]; intros st W Hinv HW Hrun.
  - injection Hrun as <-. cbn [map new_runs]. rewrite !app_nil_r.
    split; [exact Hinv|]. do 3 (split; [reflexivity|]).
    split; [intros H; contradiction|exact HW].
  - cbn [put_bytes] in Hrun.
    destruct (put_byte a v st) as [st1|] eqn:E1; [|discriminate].
    cbn [mbind result_bind] in Hrun.
    destruct (put_byte_ok a v st st1 Hinv E1) as (Hinv1 & Hh1 & Hu1 & _).
    destruct (put_byte_addrs a v st st1 Hinv E1) as [Had1 Hcb1].
    pose proof (put_byte_written a v st st1 W Hinv E1 HW) as HW1.
    destruct (IH st1 (W ++ [(a, v)]) Hinv1 HW1 Hrun)
      as (Hinv' & Hh' & Hu' & Had' & Hcb' & HW').
    split; [exact Hinv'|]. split; [congruence|]. split; [congruence|].
    split; [|split].
    + rewrite Had', Had1, Hcb1, <- app_assoc. f_equal.
      cbn [map new_runs fst].
      destruct (opt_eqb (current_base st) (Some (align256 a))) eqn:E.
      * apply opt_eqb_eq in E. rewrite E. reflexivity.
      * reflexivity.
    + intros _. destruct ws as [|w ws'].
      * injection Hrun as <-. exact Hcb1.
      * rewrite Hcb' by discriminate. reflexivity.
    + rewrite <- app_assoc in HW'. exact HW'.
Qed.

(** ** The hex parser feeds the block builder *)

Lemma slice_cons {A} (l : list A) (i j : nat) (x : A) :
  l !! i = Some x → (i < j)%nat →
  slice l i j = x :: slice l (Datatypes.S i) j.
Proof.
  intros Hx Hij. unfold slice. rewrite (drop_S l x i Hx).
  replace (j - i)%nat with (Datatypes.S (j - Datatypes.S i)) by lia.
  reflexivity.
Qed.

Lemma slice_empty {A} (l : list A) (i j : nat) : (j <= i)%nat → slice l i j = [].
Proof. intros H. unfold slice. replace (j - i)%nat with 0%nat by lia. reflexivity. Qed.

Lemma data_loop_put_bytes (fuel : nat) (rec : list Z) (i : nat) (a : Z)
    (st : hstate) :
  (length rec - 1 - i <= fuel)%nat →
  data_loop fuel rec i a st
  = put_bytes (imap (fun j v => (a + Z.of_nat j, v))
                    (slice rec i (length rec - 1))) st.
Proof.
  revert i a st. induction fuel as [|fuel IH]; intros i a st Hf.
  - rewrite slice_empty by lia. reflexivity.
  - cbn [data_loop].
    destruct (Z.of_nat i <? Z.of_nat (length rec) - 1) eqn:E.
    + assert (Hi : (i < length rec - 1)%nat) by lia.
      destruct (lookup_lt_is_Some_2 rec i ltac:(lia)) as [v Hv].
      unfold index. rewrite Hv. cbn [mbind result_bind].
      rewrite (slice_cons rec i _ v Hv Hi), imap_cons. cbn [put_bytes].
      rewrite Z.add_0_r.
      destruct (put_byte a v st) as [st'|]; [|reflexivity].
      cbn [mbind result_bind]. rewrite Nat.add_1_r, IH by lia.
      f_equal. apply imap_ext. intros j w _. cbn. f_equal. lia.
    + rewrite slice_empty by lia. reflexivity.
Qed.

Lemma new_runs_app (cur : option Z) (l1 l2 : list Z) :
  new_runs cur (l1 ++ l2)
  = new_runs cur l1
    ++ new_runs (match last l1 with Some x => Some x | None => cur end) l2.
Proof.
  revert cur. induction l1 as [|x r IH]; intros cur; [reflexivity|].
  cbn [app new_runs]. rewrite last_cons.
  destruct (opt_eqb cur (Some x)) eqn:E.
  - apply opt_eqb_eq in E. rewrite IH. f_equal.
    destruct (last r); [reflexivity|congruence].
  - cbn [app]. rewrite IH. destruct (last r); reflexivity.
Qed.

Section Hex_proofs.
Context {U : unicode_db}.

Lemma hex_lines_spec (lines : list str) (st st' : hstate) (W : list (Z * Z)) :
  hex_inv st → written_by W (blocks st) → hex_lines lines st = Ok st' →
  ∃ ws,
    data_bytes_from (upper st) lines = Ok ws
    ∧ hex_inv st'
    ∧ map addr (blocks st')
      = map addr (blocks st)
        ++ new_runs (current_base st) (map (fun w => align256 w.1) ws)
    ∧ written_by (W ++ ws) (blocks st').
Proof.
  revert st W. induction lines as [|line lines IH]; intros st W Hinv HW Hrun.
  - injection Hrun as <-. exists []. cbn [map new_runs]. rewrite !app_nil_r.
    auto.
  - cbn [hex_lines] in Hrun. unfold hex_line in Hrun.
    cbn [data_bytes_from].
    destruct (index line 0) as [c0|]; [|discriminate].
    cbn [mbind result_bind] in Hrun |- *.
    destruct (negb (c0 =? chr ":")%N).
    { cbn [mbind result_bind] in Hrun. apply (IH st W); assumption. }
    destruct (parse_rec (length line) line 1 []) as [rec|]; [|discriminate].
    cbn [mbind result_bind] in Hrun |- *.
    destruct (index rec 3) as [tp|]; [|discriminate].
    cbn [mbind result_bind] in Hrun |- *.
    destruct (tp =? 4).
    { destruct (index rec 4) as [r4|]; [|discriminate].
      cbn [mbind result_bind] in Hrun |- *.
      destruct (index rec 5) as [r5|]; [|discriminate].
      cbn [mbind result_bind] in Hrun |- *.
      apply (IH _ W) in Hrun; [exact Hrun|exact Hinv|exact HW]. }
    destruct (tp =? 2).
    { destruct (index rec 4) as [r4|]; [|discriminate].
      cbn [mbind result_bind] in Hrun |- *.
      destruct (index rec 5) as [r5|]; [|discriminate].
      cbn [mbind result_bind] in Hrun |- *.
      apply (IH _ W) in Hrun; [exact Hrun|exact Hinv|exact HW]. }
    destruct (tp =? 1).
    { cbn [mbind result_bind] in Hrun. injection Hrun as <-.
      exists []. cbn [map new_runs]. rewrite !app_nil_r. auto. }
    destruct (tp =? 0).
    2:{ cbn [mbind result_bind] in Hrun. apply (IH st W); assumption. }
    destruct (index rec 1) as [r1|]; [|discriminate].
    cbn [mbind result_bind] in Hrun |- *.
    destruct (index rec 2) as [r2|]; [|discriminate].
    cbn [mbind result_bind] in Hrun |- *.
    set (a := upper st + Z.lor (Z.shiftl r1 8) r2) in *.
    set (st1 := match h_appstartaddr st with
                | None => HState (Some a) (upper st) (currblock st) (blocks st)
                | Some _ => st
                end) in *.
    assert (Hst1 : blocks st1 = blocks st ∧ currblock st1 = currblock st
                   ∧ upper st1 = upper st).
    { subst st1. destruct (h_appstartaddr st); auto. }
    destruct Hst1 as (Hb1 & Hc1 & Hu1).
    rewrite data_loop_put_bytes in Hrun by lia.
    fold (record_bytes rec a) in Hrun.
    destruct (put_bytes (record_bytes rec a) st1) as [st2|] eqn:E2;
      [|discriminate].
    cbn [mbind result_bind] in Hrun.
    assert (Hinv1 : hex_inv st1) by (unfold hex_inv; rewrite Hb1, Hc1; exact Hinv).
    assert (HW1 : written_by W (blocks st1)) by (rewrite Hb1; exact HW).
    destruct (put_bytes_spec _ _ _ W Hinv1 HW1 E2)
      as (Hinv2 & _ & Hu2 & Had2 & Hcb2 & HW2).
    destruct (IH st2 (W ++ record_bytes rec a) Hinv2 HW2 Hrun)
      as (ws & Hws & Hinv' & Had' & HW').
    rewrite Hu2, Hu1 in Hws. rewrite Hws. cbn [mbind result_bind].
    eexists. split; [reflexivity|]. split; [exact Hinv'|]. split.
    + rewrite Had', Had2, Hb1, <- app_assoc. f_equal.
      rewrite map_app, new_runs_app. f_equal.
      * unfold current_base. rewrite Hb1. reflexivity.
      * destruct (record_bytes rec a) as [|w rb] eqn:Erb.
        -- injection E2 as <-. unfold current_base. rewrite Hb1. reflexivity.
        -- rewrite Hcb2 by discriminate.
           change (map (fun w0 : Z * Z => align256 w0.1) (w :: rb))
             with ((fun w0 : Z * Z => align256 w0.1) <$> (w :: rb)).
           rewrite fmap_last.
           destruct (last (w :: rb)) eqn:El; [reflexivity|].
           apply last_None in El. discriminate.
    + rewrite <- app_assoc in HW'. exact HW'.
Qed.

End Hex_proofs.

(** ** Encoding the blocks *)

Lemma encode_pad_loop_spec (fuel : nat) (hd : list byte) :
  (512 - 4 - length hd <= fuel)%nat →
  encode_pad_loop fuel hd = hd ++ replicate (512 - 4 - length hd) x00.
Proof.
  revert hd. induction fuel as [|fuel IH]; intros hd Hf.
  - cbn. replace (508 - length hd)%nat with 0%nat by lia.
    cbn. rewrite app_nil_r. reflexivity.
  - cbn [encode_pad_loop]. destruct (length hd <? 512 - 4)%nat eqn:E.
    + apply Nat.ltb_lt in E. rewrite IH by (rewrite length_app; cbn; lia).
      rewrite length_app. cbn [length]. rewrite <- app_assoc. f_equal.
      replace (512 - 4 - length hd)%nat
        with (Datatypes.S (512 - 4 - (length hd + 1)))%nat by lia.
      reflexivity.
    + apply Nat.ltb_ge in E.
      replace (512 - 4 - length hd)%nat with 0%nat by lia.
      cbn. rewrite app_nil_r. reflexivity.
Qed.

Lemma Block_encode_shape (familyid : Z) (b : Block) (k n : Z) (e : list byte) :
  length (bytes b) = 256%nat →
  Block_encode familyid b k n = Ok e →
  ∃ hd tl,
    length hd = 32%nat ∧ length tl = 224%nat
    ∧ unpack_header hd
      = Ok (Header UF2_MAGIC_START0 UF2_MAGIC_START1 (family_flags familyid)
                   (addr b) 256 k n familyid)
    ∧ e = hd ++ bytes b ++ tl.
Proof.
  intros Hlen He. unfold Block_encode in He.
  destruct (pack_Is _) as [hd|] eqn:Ehd; [|discriminate].
  cbn [mbind result_bind] in He.
  destruct (unpack_header_packed _ _ _ _ _ _ _ _ _ Ehd) as [Hl Hu].
  destruct (pack_I UF2_MAGIC_END) as [m|] eqn:Em; [|discriminate].
  cbn [mbind result_bind] in He. apply Ok_inj in He. subst e.
  apply pack_I_inv in Em as (_ & Hm & _).
  rewrite slice_0, take_ge in * by lia.
  rewrite encode_pad_loop_spec by (rewrite length_app; lia).
  rewrite length_app, Hl, Hlen.
  exists hd, (replicate (512 - 4 - (32 + 256)) x00 ++ m).
  split; [exact Hl|]. split; [rewrite length_app, length_replicate, Hm; lia|].
  split; [exact Hu|]. rewrite <- !app_assoc. reflexivity.
Qed.

Lemma encode_loop_spec (familyid : Z) (bl : list Block) (n k : nat)
    (res : list byte) :
  for_each (encode_body familyid bl n) (seq 0 k) [] = Ok res →
  ∃ es, encoded_as familyid bl n (seq 0 k) es ∧ res = concat es.
Proof.
  revert res. induction k as [|k IH]; intros res Hrun.
  - injection Hrun as <-. exists []. split; [constructor|reflexivity].
  - rewrite for_each_snoc in Hrun.
    destruct (for_each _ (seq 0 k) []) as [res0|]; [|discriminate].
    cbn [mbind result_bind] in Hrun.
    destruct (IH res0 eq_refl) as (es & Hes & ->).
    unfold encode_body, index in Hrun.
    destruct (bl !! k) as [b|] eqn:Eb; [|discriminate].
    cbn [mbind result_bind] in Hrun.
    destruct (Block_encode familyid b (Z.of_nat k) (Z.of_nat n)) as [e|] eqn:Ee;
      [|discriminate].
    cbn [mbind result_bind] in Hrun. injection Hrun as <-.
    exists (es ++ [e]). split.
    + rewrite seq_S. apply Forall2_app; [exact Hes|].
      constructor; [|constructor]. exists b. auto.
    + rewrite concat_app. cbn [concat]. rewrite app_nil_r. reflexivity.
Qed.

Lemma align_split (a : Z) : a = align256 a + Z.land a 0xff.
Proof.
  unfold align256. change 0xff with (Z.ones 8).
  rewrite <- Z.ldiff_land, Z.ldiff_ones_r, Z.land_ones by lia.
  rewrite Z.shiftl_mul_pow2, Z.shiftr_div_pow2 by lia.
  pose proof (Z.div_mod a (2 ^ 8) ltac:(lia)). lia.
Qed.

Section Hex_theorems.
Context {U : unicode_db}.

Lemma hex_convert_spec (familyid : Z) (buf : str) (out : list byte)
    (start : option Z) :
  convert_from_hex_to_uf2 familyid buf = Ok (out, start) →
  ∃ ws bl es,
    data_bytes buf = Ok ws
    ∧ map addr bl = new_runs None (map (fun w => align256 w.1) ws)
    ∧ Forall (fun b => length (bytes b) = 256%nat) bl
    ∧ written_by ws bl
    ∧ encoded_as familyid bl (length bl) (seq 0 (length bl)) es
    ∧ out = concat es.
Proof.
  unfold convert_from_hex_to_uf2, encode_blocks. intros Hrun.
  destruct (hex_lines (split_lines buf) hstate_init) as [st|] eqn:Est;
    [|discriminate].
  cbn [mbind result_bind] in Hrun.
  destruct (for_each _ _ []) as [res|] eqn:Eres; [|discriminate].
  cbn [mbind result_bind] in Hrun. apply Ok_inj in Hrun.
  assert (out = res) as -> by congruence.
  destruct (hex_lines_spec (split_lines buf) hstate_init st [])
    as (ws & Hws & [_ Hall] & Had & HW).
  - split; [reflexivity|constructor].
  - intros k b p y Hk. discriminate.
  - exact Est.
  - destruct (encode_loop_spec _ _ _ _ _ Eres) as (es & Hes & ->).
    exists ws, (blocks st), es. split; [exact Hws|]. split; [exact Had|].
    split; [|split; [exact HW|split; [exact Hes|reflexivity]]].
    eapply Forall_impl; [exact Hall|]. intros b [H _]. exact H.
Qed.

Lemma encoded_block (familyid : Z) (bl : list Block) (es : list (list byte))
    (k : nat) (b : Block) :
  Forall (fun b => length (bytes b) = 256%nat) bl →
  encoded_as familyid bl (length bl) (seq 0 (length bl)) es →
  bl !! k = Some b →
  length (concat es) = (512 * length bl)%nat
  ∧ ∃ hd tl,
      nth_block (concat es) k = hd ++ bytes b ++ tl
      ∧ length hd = 32%nat ∧ length tl = 224%nat
      ∧ block_hd (concat es) k
        = Ok (Header UF2_MAGIC_START0 UF2_MAGIC_START1 (family_flags familyid)
                     (addr b) 256 (Z.of_nat k) (Z.of_nat (length bl)) familyid).
Proof.
  intros Hall Hes Hk.
  assert (H512 : Forall (fun e => length e = 512%nat) es).
  { apply Forall_forall. intros e He.
    apply list_elem_of_lookup in He as [i Hi].
    destruct (Forall2_lookup_r _ _ _ _ _ Hes Hi) as (j & Hj & b' & Hb' & Henc).
    rewrite Forall_forall in Hall.
    assert (Hl : length (bytes b') = 256%nat)
      by (apply Hall, list_elem_of_lookup; eauto).
    destruct (Block_encode_shape _ _ _ _ _ Hl Henc)
      as (hd & tl & Hhd & Htl & _ & ->).
    rewrite !length_app, Hhd, Htl, Hl. reflexivity. }
  assert (Hlen : length es = length bl).
  { apply Forall2_length in Hes. rewrite length_seq in Hes. congruence. }
  split; [rewrite concat_blocks_length by exact H512; lia|].
  assert (Hkl : (k < length bl)%nat) by (eapply lookup_lt_Some; exact Hk).
  destruct (Forall2_lookup_l _ _ _ k k Hes) as (e & He & b' & Hb' & Henc).
  { apply lookup_seq_lt. exact Hkl. }
  assert (b' = b) as -> by congruence.
  rewrite Forall_forall in Hall.
  assert (Hl : length (bytes b) = 256%nat)
    by (apply Hall, list_elem_of_lookup; eauto).
  destruct (Block_encode_shape _ _ _ _ _ Hl Henc)
    as (hd & tl & Hhd & Htl & Hu & ->).
  exists hd, tl.
  assert (Hnb : nth_block (concat es) k = hd ++ bytes b ++ tl)
    by (apply nth_block_concat; assumption).
  split; [exact Hnb|]. split; [exact Hhd|]. split; [exact Htl|].
  unfold block_hd. rewrite Hnb, slice_0, take_app_length' by (symmetry; exact Hhd).
  exact Hu.
Qed.

Lemma first_seen_new_runs (cur : option Z) (seen l : list Z) :
  (∀ b, cur = Some b → b ∈ seen) →
  first_seen seen (new_runs cur l) = first_seen seen l.
Proof.
  revert cur seen. induction l as [|x r IH]; intros cur seen Hcur;
    [reflexivity|].
  cbn [new_runs first_seen].
  destruct (opt_eqb cur (Some x)) eqn:E.
  - apply opt_eqb_eq in E.
    rewrite bool_decide_eq_true_2 by (apply Hcur, E).
    apply IH, Hcur.
  - cbn [first_seen]. destruct (bool_decide (x ∈ seen)) eqn:Ex.
    + apply IH. intros b Hb. injection Hb as <-.
      apply bool_decide_eq_true in Ex. exact Ex.
    + f_equal. apply IH. intros b Hb. injection Hb as <-. left.
Qed.

(** C5: whenever [convert_from_hex_to_uf2] returns, its blocks are in
    encounter order.  With the data bytes of the text taken in source order
    and each address rounded down to a multiple of 256, a block is started
    exactly when the base of a byte differs from the base of the block being
    filled ([new_runs]); block [k] of the output carries the [k]-th base so
    started as its target address and [k] as its block number; and the
    distinct bases appear among the blocks in the order of their first
    appearance in the source, whatever their numeric order. *)
Theorem hex_blocks_in_encounter_order
    (familyid : Z) (buf : str) (out : list byte) (start : option Z) :
  convert_from_hex_to_uf2 familyid buf = Ok (out, start) →
  ∃ ws,
    data_bytes buf = Ok ws
    ∧ length out
      = (512 * length (new_runs None (map (fun w => align256 w.1) ws)))%nat
    ∧ (∀ k a,
         new_runs None (map (fun w => align256 w.1) ws) !! k = Some a →
         ∃ hd, block_hd out k = Ok hd ∧ hd3 hd = a ∧ hd5 hd = Z.of_nat k)
    ∧ first_seen [] (new_runs None (map (fun w => align256 w.1) ws))
      = first_seen [] (map (fun w => align256 w.1) ws).
Proof.
  intros Hrun.
  destruct (hex_convert_spec familyid buf out start Hrun)
    as (ws & bl & es & Hws & Had & Hall & _ & Hes & ->).
  exists ws. split; [exact Hws|]. rewrite <- Had. split; [|split].
  - destruct bl as [|b0 bl'] eqn:Ebl.
    + inversion Hes. reflexivity.
    + destruct (encoded_block familyid (b0 :: bl') es 0 b0 Hall Hes eq_refl)
        as [Hlen _].
      rewrite Hlen, length_map. reflexivity.
  - intros k a Hk. rewrite map_lookup in Hk.
    destruct (bl !! k) as [b|] eqn:Eb; [|discriminate].
    cbn in Hk. injection Hk as <-.
    destruct (encoded_block familyid bl es k b Hall Hes Eb)
      as (_ & hd & tl & _ & _ & _ & Hhd).
    eexists. split; [exact Hhd|]. split; reflexivity.
  - rewrite Had. apply first_seen_new_runs. intros b Hb. discriminate.
Qed.


End Hex_theorems.

Lemma hex_sample_converts :
  convert_from_hex_to_uf2 (U := ascii_db) 0 hex_sample
  = Ok (hex_sample_out, Some 0x110).
Proof. vm_compute. reflexivity. Qed.

(** the sample gives the blocks 0x100, 0x000, 0x100, in that order *)
Lemma hex_sample_bases :
  (ws ← data_bytes (U := ascii_db) hex_sample;
   Ok (new_runs None (map (fun w => align256 w.1) ws)))
  = Ok [0x100; 0x000; 0x100].
Proof. vm_compute. reflexivity. Qed.

Lemma hex_blocks_in_encounter_order_witness :
  ∃ ws,
    data_bytes (U := ascii_db) hex_sample = Ok ws
    ∧ length hex_sample_out
      = (512 * length (new_runs None (map (fun w => align256 w.1) ws)))%nat
    ∧ (∀ k a,
         new_runs None (map (fun w => align256 w.1) ws) !! k = Some a →
         ∃ hd, block_hd hex_sample_out k = Ok hd ∧ hd3 hd = a
               ∧ hd5 hd = Z.of_nat k)
    ∧ first_seen [] (new_runs None (map (fun w => align256 w.1) ws))
      = first_seen [] (map (fun w => align256 w.1) ws).
Proof.
  apply (hex_blocks_in_encounter_order (U := ascii_db) 0 hex_sample
           hex_sample_out (Some 0x110)).
  vm_compute. reflexivity.
Defined.


(** a text with an end-of-file record only converts to the empty output *)
Lemma hex_eof_only :
  convert_from_hex_to_uf2 (U := ascii_db) 0 (str_of_string ":00000001FF")
  = Ok ([], None).
Proof. vm_compute. reflexivity. Qed.

(** ** Family resolution *)

Lemma load_families_registry {U : unicode_db} : load_families = Ok registry.
Proof. vm_compute. reflexivity. Qed.

Lemma registry_size : length registry = 68%nat.
Proof. vm_compute. reflexivity. Qed.

Lemma dict_get_In (d : list (str * Z)) (k : str) (v : Z) :
  NoDup (map fst d) → In (k, v) d → dict_get d k = Some v.
Proof.
  induction d as [|[k' v'] d IH]; intros Hnd Hin; [contradiction|].
  cbn [map fst] in Hnd. apply NoDup_cons in Hnd as [Hk' Hnd].
  cbn [dict_get]. destruct Hin as [Heq|Hin].
  - injection Heq as -> ->. rewrite bool_decide_eq_true_2 by reflexivity.
    reflexivity.
  - destruct (bool_decide (k' = k)) eqn:E.
    + apply bool_decide_eq_true in E. subst k'. exfalso. apply Hk'.
      apply list_elem_of_In, in_map_iff. exists (k, v). auto.
    + apply IH; assumption.
Qed.

Lemma dict_get_None (d : list (str * Z)) (k : str) :
  ¬ In k (map fst d) → dict_get d k = None.
Proof.
  induction d as [|[k' v'] d IH]; intros Hk; [reflexivity|].
  cbn [dict_get]. destruct (bool_decide (k' = k)) eqn:E.
  - apply bool_decide_eq_true in E. subst k'. exfalso. apply Hk. left.
    reflexivity.
  - apply IH. intros H. apply Hk. right. exact H.
Qed.

Lemma registry_keys_NoDup : NoDup (map fst registry).
Proof.
  apply (bool_decide_unpack _). vm_compute. exact I.
Qed.

Lemma digit_value_range (c : N) (d : Z) :
  digit_value c = Some d →
  (48 <= c <= 57 ∨ 97 <= c <= 122 ∨ 65 <= c <= 90)%N.
Proof.
  unfold digit_value. intros H.
  destruct ((48 <=? c)%N && (c <=? 57)%N) eqn:E1.
  { apply andb_true_iff in E1 as [H1 H2]. apply N.leb_le in H1, H2. lia. }
  destruct ((97 <=? c)%N && (c <=? 122)%N) eqn:E2.
  { apply andb_true_iff in E2 as [H1 H2]. apply N.leb_le in H1, H2. lia. }
  destruct ((65 <=? c)%N && (c <=? 90)%N) eqn:E3; [|discriminate].
  apply andb_true_iff in E3 as [H1 H2]. apply N.leb_le in H1, H2. lia.
Qed.

Lemma digit_below_facts (base : Z) (c : N) :
  digit_below base c = true →
  (c <? 128)%N = true ∧ (c =? 95)%N = false ∧ py_isspace c = false
  ∧ (c =? 43)%N = false ∧ (c =? 45)%N = false
  ∧ ∃ d, digit_value c = Some d ∧ (d <? base) = true.
Proof.
  unfold digit_below. intros H.
  destruct (digit_value c) as [d|] eqn:Ed; [|discriminate].
  pose proof (digit_value_range c d Ed) as Hr.
  split; [apply N.ltb_lt; lia|].
  split; [apply N.eqb_neq; lia|].
  split.
  { unfold py_isspace. apply orb_false_iff. split.
    - apply andb_false_iff. right. apply N.leb_gt. lia.
    - apply N.eqb_neq. lia. }
  split; [apply N.eqb_neq; lia|].
  split; [apply N.eqb_neq; lia|].
  exists d. auto.
Qed.

Lemma scan_digits_all (base : Z) (ds : list N) (acc : Z) (n : nat) :
  forallb (digit_below base) ds = true →
  scan_digits base ds false acc n
  = Ok (fold_left (fun a c => a * base + default 0 (digit_value c)) ds acc,
        (n + length ds)%nat, []).
Proof.
  revert acc n. induction ds as [|c ds IH]; intros acc n Hall.
  - cbn. rewrite Nat.add_0_r. reflexivity.
  - cbn [forallb] in Hall. apply andb_true_iff in Hall as [Hc Hall].
    destruct (digit_below_facts base c Hc) as (_ & H95 & _ & _ & _ & d & Hd & Hlt).
    cbn [scan_digits]. rewrite H95, Hd, Hlt. rewrite IH by exact Hall.
    simpl fold_left. simpl length. rewrite Hd. cbn [default].
    do 2 f_equal. f_equal; lia.
Qed.

Section Family.
Context {U : unicode_db}.

Lemma to_ascii_lt128 (s : str) :
  forallb (fun c => c <? 128)%N s = true → to_ascii s = Some s.
Proof.
  induction s as [|c s IH]; intros Hall; [reflexivity|].
  cbn [forallb] in Hall. apply andb_true_iff in Hall as [Hc Hall].
  cbn [to_ascii]. unfold to_ascii_char. rewrite Hc, IH by exact Hall.
  reflexivity.
Qed.

Lemma digits_lt128 (base : Z) (ds : list N) :
  forallb (digit_below base) ds = true →
  forallb (fun c => c <? 128)%N ds = true.
Proof.
  induction ds as [|c ds IH]; intros Hall; [reflexivity|].
  cbn [forallb] in Hall |- *. apply andb_true_iff in Hall as [Hc Hall].
  destruct (digit_below_facts base c Hc) as (-> & _). cbn [andb]. auto.
Qed.

(** an argument whose upper-casing is a registered name resolves to the
    ID registered for it *)
Lemma resolve_family_name (s name : str) (id : Z) :
  In (name, id) registry → py_upper s = name →
  resolve_family registry s = mret id.
Proof.
  intros Hin Hup. unfold resolve_family. rewrite Hup.
  rewrite (dict_get_In registry name id registry_keys_NoDup Hin).
  reflexivity.
Qed.

Lemma registry_keys_start_with_letter (k : str) :
  In k (map fst registry) →
  match k with
  | c :: _ => digit_below 10 c = false
  | [] => False
  end.
Proof.
  assert (H : forallb (fun k => match k with
                                | c :: _ => negb (digit_below 10 c)
                                | [] => false
                                end) (map fst registry) = true)
    by (vm_compute; reflexivity).
  rewrite forallb_forall in H. intros Hk. apply H in Hk.
  destruct k as [|c k]; [discriminate|]. apply negb_true_iff in Hk. exact Hk.
Qed.

Lemma upper_char_digit (c : N) :
  digit_below 10 c = true → upper_char c = [c].
Proof.
  unfold digit_below. intros H.
  destruct (digit_value c) as [d|] eqn:Ed; [|discriminate].
  apply Z.ltb_lt in H.
  assert (Hr : (48 <= c <= 57)%N).
  { unfold digit_value in Ed.
    destruct ((48 <=? c)%N && (c <=? 57)%N) eqn:E1.
    { apply andb_true_iff in E1 as [H1 H2]. apply N.leb_le in H1, H2. lia. }
    destruct ((97 <=? c)%N && (c <=? 122)%N) eqn:E2.
    { apply andb_true_iff in E2 as [H1 H2]. apply N.leb_le in H1, H2.
      injection Ed as <-. lia. }
    destruct ((65 <=? c)%N && (c <=? 90)%N) eqn:E3; [|discriminate].
    apply andb_true_iff in E3 as [H1 H2]. apply N.leb_le in H1, H2.
    injection Ed as <-. lia. }
  unfold upper_char.
  destruct (97 <=? c)%N eqn:E3; [apply N.leb_le in E3; lia|]. cbn [andb].
  destruct (c <? 128)%N eqn:E4; [reflexivity|]. apply N.ltb_ge in E4. lia.
Qed.

(** no registered name begins with a digit, so an argument that does is
    not looked up successfully *)
Lemma dict_get_leading_digit (c : N) (s : str) :
  digit_below 10 c = true →
  dict_get registry (py_upper (c :: s)) = None.
Proof.
  intros Hc. apply dict_get_None. intros Hin.
  apply registry_keys_start_with_letter in Hin.
  unfold py_upper in Hin. cbn [map concat] in Hin.
  rewrite (upper_char_digit c Hc) in Hin. cbn [app] in Hin. congruence.
Qed.

Lemma read_digits_all (sign base : Z) (e : bool) (ds : list N) :
  ds ≠ [] → forallb (digit_below base) ds = true →
  (is_pow2_base base = true ∨ (length ds <= int_max_str_digits)%nat) →
  (e = false ∨ digits_value base ds = 0) →
  read_digits sign base e ds = Ok (sign * digits_value base ds).
Proof.
  intros Hne Hds Hlim He. unfold read_digits.
  destruct ds as [|d ds]; [contradiction|].
  pose proof Hds as Hd. cbn [forallb] in Hd. apply andb_true_iff in Hd as [Hd _].
  destruct (digit_below_facts base d Hd) as (_ & H95 & _).
  cbn [starts_with]. rewrite H95.
  rewrite (scan_digits_all base (d :: ds) 0 0 Hds).
  cbn [mbind result_bind andb Nat.add].
  assert (Hl : negb (is_pow2_base base)
               && (int_max_str_digits <? length (d :: ds))%nat = false).
  { destruct Hlim as [-> | Hl]; [reflexivity|].
    apply andb_false_iff. right. apply Nat.ltb_ge. exact Hl. }
  rewrite Hl. fold (digits_value base (d :: ds)).
  assert (Hz : e && negb (digits_value base (d :: ds) =? 0) = false).
  { destruct He as [-> | ->]; [reflexivity|]. apply andb_false_r. }
  rewrite Hz. cbn [length Nat.eqb skip_space]. reflexivity.
Qed.

Lemma py_int_hex_literal (s : str) :
  hex_literal s = true →
  py_int s 0 = Ok (digits_value 16 (drop 2 s)).
Proof.
  unfold hex_literal. intros H.
  destruct s as [|c0 [|x [|d ds]]]; try discriminate.
  apply andb_true_iff in H as [H Hds]. apply andb_true_iff in H as [H0 Hx].
  apply N.eqb_eq in H0. subst c0. cbn [drop].
  assert (Hx128 : (x <? 128)%N = true).
  { apply N.ltb_lt. apply orb_true_iff in Hx as [Hx|Hx];
      apply N.eqb_eq in Hx; lia. }
  unfold py_int. rewrite to_ascii_lt128.
  2:{ pose proof (digits_lt128 16 (d :: ds) Hds) as H.
      cbn [forallb] in H |- *. rewrite Hx128, H. reflexivity. }
  unfold py_long_from_string.
  change (skip_space (48%N :: x :: d :: ds)) with (48%N :: x :: d :: ds).
  change (strip_sign (48%N :: x :: d :: ds)) with (1, 48%N :: x :: d :: ds).
  cbv beta iota zeta.
  assert (Hp : is_prefix_letter 16 x = true).
  { unfold is_prefix_letter. change (16 =? 16) with true. cbn [andb].
    rewrite Hx. reflexivity. }
  assert (Hb : detect_base 0 (48%N :: x :: d :: ds) = (16, false)).
  { unfold detect_base. cbn [starts_with tail].
    change (0 =? 0) with true. change (48 =? 48)%N with true. cbn match.
    rewrite Hp. reflexivity. }
  rewrite Hb. cbv beta iota zeta.
  pose proof Hds as Hd. cbn [forallb] in Hd. apply andb_true_iff in Hd as [Hd _].
  destruct (digit_below_facts 16 d Hd) as (_ & H95 & _).
  assert (Hs : strip_prefix 16 (48%N :: x :: d :: ds) = d :: ds).
  { unfold strip_prefix. change (48 =? 48)%N with true. cbn [andb].
    rewrite Hp. cbn [starts_with]. rewrite H95. reflexivity. }
  rewrite Hs, read_digits_all;
    [|discriminate|exact Hds|left; reflexivity|left; reflexivity].
  f_equal. destruct (digits_value 16 (d :: ds)); reflexivity.
Qed.

Lemma digits_value_zeros (base : Z) (ds : list N) :
  forallb (fun c => c =? 48)%N ds = true → digits_value base ds = 0.
Proof.
  unfold digits_value. induction ds as [|c ds IH]; intros H; [reflexivity|].
  cbn [forallb] in H. apply andb_true_iff in H as [Hc H].
  apply N.eqb_eq in Hc. subst c. simpl fold_left.
  change (0 * base + default 0 (digit_value 48)) with (0 * base + 0).
  rewrite Z.mul_0_l. exact (IH H).
Qed.

Lemma is_prefix_letter_10 (c : N) : is_prefix_letter 10 c = false.
Proof. reflexivity. Qed.

Lemma py_int_dec_literal (s : str) :
  dec_literal s = true → py_int s 0 = Ok (digits_value 10 s).
Proof.
  unfold dec_literal. intros H. destruct s as [|d ds]; [discriminate|].
  apply andb_true_iff in H as [H Hlen]. apply andb_true_iff in H as [Hall Hz].
  apply Nat.leb_le in Hlen.
  pose proof Hall as Hd. cbn [forallb] in Hd. apply andb_true_iff in Hd as [Hd _].
  destruct (digit_below_facts 10 d Hd) as (_ & _ & Hsp & H43 & H45 & _).
  unfold py_int. rewrite to_ascii_lt128 by (apply (digits_lt128 10), Hall).
  unfold py_long_from_string. cbn [skip_space]. rewrite Hsp.
  unfold strip_sign. cbn [starts_with]. rewrite H43, H45.
  cbv beta iota zeta.
  assert (Hs : strip_prefix 10 (d :: ds) = d :: ds).
  { unfold strip_prefix. destruct ds as [|c r]; [reflexivity|].
    rewrite is_prefix_letter_10, andb_false_r. reflexivity. }
  destruct (d =? 48)%N eqn:Ed.
  - (* zeros only *)
    cbn [negb orb] in Hz. apply N.eqb_eq in Ed. subst d.
    assert (Hb : detect_base 0 (48%N :: ds) = (10, true)).
    { unfold detect_base. cbn [starts_with tail].
      change (0 =? 0) with true. change (48 =? 48)%N with true. cbn match.
      destruct ds as [|c r]; [reflexivity|].
      cbn [forallb] in Hz. apply andb_true_iff in Hz as [Hc _].
      apply N.eqb_eq in Hc. subst c. reflexivity. }
    rewrite Hb. cbv beta iota zeta.
    rewrite Hs, read_digits_all;
      [|discriminate|exact Hall|right; exact Hlen|right].
    + f_equal. destruct (digits_value 10 (48%N :: ds)); reflexivity.
    + apply digits_value_zeros. cbn [forallb]. rewrite Hz. reflexivity.
  - unfold detect_base. change (0 =? 0) with true. cbn [starts_with].
    rewrite Ed. cbv beta iota zeta.
    rewrite Hs, read_digits_all;
      [|discriminate|exact Hall|right; exact Hlen|left; reflexivity].
    f_equal. destruct (digits_value 10 (d :: ds)); reflexivity.
Qed.

Lemma hex_literal_leading_digit (s : str) :
  hex_literal s = true → ∃ c r, s = c :: r ∧ digit_below 10 c = true.
Proof.
  unfold hex_literal. intros H.
  destruct s as [|c0 [|x [|d ds]]]; try discriminate.
  apply andb_true_iff in H as [H _]. apply andb_true_iff in H as [H0 _].
  apply N.eqb_eq in H0. subst c0. eexists _, _. split; reflexivity.
Qed.

Lemma dec_literal_leading_digit (s : str) :
  dec_literal s = true → ∃ c r, s = c :: r ∧ digit_below 10 c = true.
Proof.
  unfold dec_literal. intros H. destruct s as [|d ds]; [discriminate|].
  apply andb_true_iff in H as [H _]. apply andb_true_iff in H as [H _].
  cbn [forallb] in H. apply andb_true_iff in H as [Hd _]. eauto.
Qed.

Lemma registry_names : map fst registry = registered_names.
Proof. vm_compute. reflexivity. Qed.

(** C6 (amended): family resolution
    - succeeds, with the registered ID, on every argument that equals a
      registered short name up to letter case, for the names that are
      registered in upper case;
    - succeeds on every literal [0x...] or [0X...] of hexadecimal digits and
      on every decimal literal of at most 4300 digits that has no leading
      zero or is all zeros, with the number the literal denotes;
    - ends in the fatal error that lists the registered names for every
      argument that matches no registered name, neither after upper-casing
      the argument nor after upper-casing both, and that the base-0 integer
      syntax rejects. *)
Theorem family_resolution :
  (∀ (s name : str) (id : Z),
      In (name, id) registry → py_upper name = name →
      py_upper s = py_upper name →
      resolve_family registry s = IO [] (Return id))
  ∧ (∀ s : str,
      hex_literal s = true →
      resolve_family registry s = IO [] (Return (digits_value 16 (drop 2 s))))
  ∧ (∀ s : str,
      dec_literal s = true →
      resolve_family registry s = IO [] (Return (digits_value 10 s)))
  ∧ (∀ s : str,
      (∀ name, In name registered_names → py_upper s ≠ name) →
      (∀ name, In name registered_names → py_upper s ≠ py_upper name) →
      py_int s 0 = Raise ValueError →
      resolve_family registry s
      = IO [EStderr family_error_message] (Uncaught (SystemExit 1))).
Proof.
  split; [|split; [|split]].
  - intros s name id Hin Hname Hs. apply (resolve_family_name s name id Hin).
    congruence.
  - intros s Hs. unfold resolve_family.
    destruct (hex_literal_leading_digit s Hs) as (c & r & -> & Hc).
    rewrite (dict_get_leading_digit c r Hc), (py_int_hex_literal _ Hs).
    reflexivity.
  - intros s Hs. unfold resolve_family.
    destruct (dec_literal_leading_digit s Hs) as (c & r & -> & Hc).
    rewrite (dict_get_leading_digit c r Hc), (py_int_dec_literal _ Hs).
    reflexivity.
  - intros s Hname _ Hint. unfold resolve_family.
    rewrite dict_get_None, Hint; [reflexivity|].
    rewrite registry_names. intros Hin. apply (Hname _ Hin). reflexivity.
Qed.

End Family.

Lemma family_resolution_witness :
  resolve_family (U := ascii_db) registry (str_of_string "rp2040")
  = IO [] (Return 0xe48bff56)
  ∧ resolve_family (U := ascii_db) registry (str_of_string "0xE48BFF56")
    = IO [] (Return 0xe48bff56)
  ∧ resolve_family (U := ascii_db) registry (str_of_string "3834380118")
    = IO [] (Return 0xe48bff56)
  ∧ resolve_family (U := ascii_db) registry (str_of_string "no-such-chip")
    = IO [EStderr family_error_message] (Uncaught (SystemExit 1)).
Proof.
  pose proof (family_resolution (U := ascii_db)) as (Hname & Hhex & Hdec & Herr).
  split; [|split; [|split]].
  - apply (Hname (str_of_string "rp2040") (str_of_string "RP2040") 0xe48bff56).
    + vm_compute. do 48 right. left. reflexivity.
    + vm_compute. reflexivity.
    + vm_compute. reflexivity.
  - apply (Hhex (str_of_string "0xE48BFF56")). vm_compute. reflexivity.
  - apply (Hdec (str_of_string "3834380118")). vm_compute. reflexivity.
  - apply (Herr (str_of_string "no-such-chip")).
    + apply List.Forall_forall. vm_compute.
      repeat (constructor; [discriminate|]). constructor.
    + apply List.Forall_forall. vm_compute.
      repeat (constructor; [discriminate|]). constructor.
    + vm_compute. reflexivity.
Defined.

(** C6, as stated, fails: a binary or octal literal is neither a
    registered name nor a hexadecimal or decimal literal, and it
    resolves. *)
Lemma family_resolution_counterexample :
  dict_get registry (py_upper (U := ascii_db) (str_of_string "0b101")) = None
  ∧ hex_literal (str_of_string "0b101") = false
  ∧ dec_literal (str_of_string "0b101") = false
  ∧ resolve_family (U := ascii_db) registry (str_of_string "0b101")
    = IO [] (Return 5)
  ∧ resolve_family (U := ascii_db) registry (str_of_string "0o17")
    = IO [] (Return 15).
Proof. repeat split; vm_compute; reflexivity. Qed.

(** The lookup upper-cases the argument and never the table: the five
    short names registered with a lower-case letter cannot be selected by
    name, not even when typed as registered. *)
Lemma family_mixed_case_name_rejected {U : unicode_db} :
  In (str_of_string "STM32F411xE") registered_names
  ∧ resolve_family registry (str_of_string "STM32F411xE")
    = IO [EStderr family_error_message] (Uncaught (SystemExit 1))
  ∧ resolve_family registry (str_of_string "stm32f411xe")
    = IO [EStderr family_error_message] (Uncaught (SystemExit 1)).
Proof.
  split; [vm_compute; do 61 right; left; reflexivity|].
  split; vm_compute; reflexivity.
Qed.

(** ** Format detection *)

Lemma is_uf2_short (buf : list byte) :
  (length buf < 8)%nat → is_uf2 buf = Raise StructError.
Proof.
  intros H. unfold is_uf2, unpack_Is.
  rewrite slice_0, length_take.
  destruct (8 `min` length buf =? 4 * 2)%nat eqn:E; [|reflexivity].
  apply Nat.eqb_eq in E. lia.
Qed.

Lemma is_uf2_total (buf : list byte) :
  (8 <= length buf)%nat → ∃ b, is_uf2 buf = Ok b.
Proof.
  intros H. unfold is_uf2, unpack_Is. rewrite slice_0.
  do 8 (destruct buf as [|? buf]; [cbn in H; lia|]).
  cbn. eexists. reflexivity.
Qed.

Lemma utf8_decode_aux_nonempty (fuel : nat) (bs : list Z) (w : str) :
  bs ≠ [] → utf8_decode_aux fuel bs = Some w → w ≠ [].
Proof.
  intros Hne H. destruct bs as [|b0 r]; [contradiction|].
  destruct fuel as [|fuel]; [discriminate|]. cbn [utf8_decode_aux] in H.
  destruct (utf8_step (b0 :: r)) as [[c r']|]; [|discriminate].
  destruct (utf8_decode_aux fuel r'); [|discriminate].
  cbn in H. injection H as <-. discriminate.
Qed.

Lemma is_hex_total (buf : list byte) :
  buf ≠ [] → ∃ b, is_hex buf = Ok b.
Proof.
  intros Hne. unfold is_hex.
  destruct (utf8_decode (slice buf 0 30)) as [w|] eqn:E; [|eauto].
  destruct w as [|c w]; [|eauto].
  exfalso. unfold utf8_decode in E.
  apply utf8_decode_aux_nonempty in E; [contradiction|].
  destruct buf; [contradiction|]. rewrite slice_0. discriminate.
Qed.

(** detection is total from eight bytes on *)
Lemma detect_format_total (buf : list byte) :
  (8 <= length buf)%nat → ∃ f, detect_format buf = Ok f.
Proof.
  intros H. unfold detect_format.
  destruct (is_uf2_total buf H) as [u ->]. cbn [mbind result_bind].
  destruct u; [eauto|].
  destruct (is_hex_total buf) as [h ->]; [destruct buf; cbn in H; [lia|discriminate]|].
  cbn [mbind result_bind]. destruct h; eauto.
Qed.

Lemma detect_format_short (buf : list byte) :
  (length buf < 8)%nat → detect_format buf = Raise StructError.
Proof.
  intros H. unfold detect_format. rewrite (is_uf2_short buf H). reflexivity.
Qed.

(** C4: the code raises where the claim promises a classification.
    [is_uf2] unpacks [buf[0:8]] without looking at its length, so for the
    empty buffer, and for a three-byte hex text, detection ends in
    [struct.error]. *)
Theorem detect_format_raises_on_short_input :
  is_uf2 [] = Raise StructError
  ∧ detect_format [] = Raise StructError
  ∧ detect_format (ascii_bytes (str_of_string ":00")) = Raise StructError
  ∧ is_hex [] = Raise IndexError.
Proof. repeat split; vm_compute; reflexivity. Qed.

(** ** Info mode *)

Lemma trace_bind {A B} (m : io A) (f : A → io B) :
  trace_of (m ≫= f)
  = trace_of m
    ++ match outcome_of m with
       | Return a => trace_of (f a)
       | _ => []
       end.
Proof.
  destruct m as [t [a|e|]]; cbn [mbind io_bind trace_of outcome_of].
  - destruct (f a). reflexivity.
  - rewrite app_nil_r. reflexivity.
  - rewrite app_nil_r. reflexivity.
Qed.

Lemma bind_lift_Ok {A B} (a : A) (f : A → io B) : (lift (Ok a) ≫= f) = f a.
Proof. cbn [lift mbind io_bind]. destruct (f a). reflexivity. Qed.

Lemma bind_mret {A B} (a : A) (f : A → io B) : (mret a ≫= f) = f a.
Proof. cbn [mret io_ret mbind io_bind]. destruct (f a). reflexivity. Qed.

Lemma trace_lift {A} (r : result A) : trace_of (lift r) = [].
Proof. destruct r; reflexivity. Qed.

Lemma file_events_app (t1 t2 : list event) :
  file_events (t1 ++ t2) = file_events t1 ++ file_events t2.
Proof. apply List.filter_app. Qed.

Section Info.
Context {U : unicode_db}.

Lemma resolve_family_no_files (families : list (str * Z)) (family : str) :
  file_events (trace_of (resolve_family families family)) = [].
Proof.
  unfold resolve_family. destruct (dict_get _ _); [reflexivity|].
  destruct (py_int family 0) as [v|[]]; reflexivity.
Qed.

Lemma list_drives_no_files (E : env) :
  file_events (trace_of (list_drives E)) = [].
Proof.
  unfold list_drives. rewrite trace_bind, trace_lift. cbn [app].
  destruct (lift (get_drives E 0)) as [t [ds|e|]] eqn:Eds;
    cbn [outcome_of]; try reflexivity.
  clear Eds. induction ds as [|d ds IH]; [reflexivity|].
  cbn [for_io]. rewrite trace_bind, file_events_app, trace_bind, trace_lift.
  cbn [app].
  destruct (board_id E d); cbn [lift outcome_of trace_of mret io_ret];
    [exact IH|reflexivity].
Qed.

(** with UF2 input and [--info], [ext] stays ["uf2"]; without [--deploy]
    the output buffer is the empty [str] *)
Lemma convert_input_info (a : args) (familyid appstartaddr0 : Z)
    (inpbuf : list byte) (outbuf : pybuf) (ext : ext_t) (s : option Z) :
  arg_info a = true →
  convert_input a familyid appstartaddr0 inpbuf true = Ok (outbuf, ext, s) →
  ext = ExtUf2 ∧ (arg_deploy a = false → outbuf = PStr []).
Proof.
  intros Hinfo H. unfold convert_input in H. rewrite Hinfo in H.
  destruct (arg_deploy a).
  - apply Ok_inj in H. split; [congruence|discriminate].
  - cbn [negb andb] in H.
    destruct (convert_from_uf2 familyid appstartaddr0 inpbuf) as [[o s']|];
      [|discriminate].
    cbn [mbind result_bind] in H. apply Ok_inj in H.
    split; [congruence|]. intros _. congruence.
Qed.

Lemma deliver_info (E : env) (patience : nat) (a : args) (outbuf : pybuf)
    (s : option Z) :
  arg_info a = true → arg_convert a = false →
  str_truthy (arg_output a) = false →
  deliver E patience a outbuf ExtUf2 s = IO [] (Return ()).
Proof.
  intros Hinfo Hconv Hout. unfold deliver. rewrite Hinfo, Hconv.
  cbn [is_ext_uf2 negb orb andb]. rewrite !andb_false_r.
  destruct (arg_output a) as [[|c o]|]; try discriminate; reflexivity.
Qed.

(** C8 (amended): with [--info], no [--convert] and no output path, a run
    on UF2 input opens no file for writing and writes none, whatever the
    other options, the environment and the outcome of the decoding; and
    unless [--deploy] is given as well, the output buffer of a successful
    decode is empty. *)
Theorem info_mode_writes_nothing (E : env) (patience : nat) (a : args) :
  arg_info a = true →
  arg_convert a = false →
  str_truthy (arg_output a) = false →
  (∀ name buf, read_input E name = Ok buf → is_uf2 buf = Ok true) →
  file_events (trace_of (main E patience a)) = []
  ∧ (∀ familyid appstartaddr0 inpbuf outbuf ext s,
        arg_deploy a = false →
        convert_input a familyid appstartaddr0 inpbuf true
        = Ok (outbuf, ext, s) →
        outbuf = PStr []).
Proof.
  intros Hinfo Hconv Hout Huf2. split.
  2:{ intros familyid a0 inpbuf outbuf ext s Hdep H.
      apply (convert_input_info a familyid a0 inpbuf outbuf ext s Hinfo H).
      exact Hdep. }
  unfold main. rewrite load_families_registry.
  destruct (py_int (arg_base a) 0) as [a0|]; [|reflexivity].
  rewrite !bind_lift_Ok.
  rewrite trace_bind, file_events_app, resolve_family_no_files. cbn [app].
  destruct (outcome_of (resolve_family registry (arg_family a)))
    as [familyid| |]; [|reflexivity..].
  destruct (arg_list a); [apply list_drives_no_files|].
  destruct (arg_input a) as [[|c name]|]; try reflexivity.
  rewrite bind_mret.
  destruct (read_input E (c :: name)) as [inpbuf|] eqn:Eread; [|reflexivity].
  rewrite bind_lift_Ok, (Huf2 _ _ Eread), bind_lift_Ok.
  destruct (convert_input a familyid a0 inpbuf true) as [[[outbuf ext] s]|]
    eqn:Econv; [|reflexivity].
  rewrite bind_lift_Ok.
  destruct (convert_input_info _ _ _ _ _ _ _ Hinfo Econv) as [-> _].
  rewrite (deliver_info E patience a outbuf s Hinfo Hconv Hout). reflexivity.
Qed.

End Info.

Lemma info_mode_writes_nothing_witness :
  file_events (trace_of (main (U := ascii_db) env_sample 0 args_info)) = []
  ∧ (∀ familyid appstartaddr0 inpbuf outbuf ext s,
        arg_deploy args_info = false →
        convert_input (U := ascii_db) args_info familyid appstartaddr0
                      inpbuf true
        = Ok (outbuf, ext, s) →
        outbuf = PStr []).
Proof.
  apply (info_mode_writes_nothing (U := ascii_db) env_sample 0 args_info).
  - reflexivity.
  - reflexivity.
  - reflexivity.
  - intros name buf H. apply Ok_inj in H. subst buf. vm_compute. reflexivity.
Defined.

(** the run of the witness ends normally *)
Lemma info_mode_run :
  main (U := ascii_db) env_sample 0 args_info = IO [] (Return ()).
Proof. vm_compute. reflexivity. Qed.

(** C8, as stated, fails: [--deploy] is looked at before [--info], and an
    output path is honoured in info mode, so with both the input is
    written to the output file. *)
Lemma info_mode_counterexample :
  is_uf2 two_families = Ok true
  ∧ arg_info args_info_deploy_output = true
  ∧ main (U := ascii_db) env_sample 0 args_info_deploy_output
    = IO [EOpen (str_of_string "out.uf2");
          EWrite (str_of_string "out.uf2") two_families] (Return ()).
Proof. repeat split; vm_compute; reflexivity. Qed.

(** In info mode the output buffer is the [str] [""]: with [--convert] the
    file [flash.uf2] is opened for writing, and writing a [str] to it
    raises [TypeError]. *)
Lemma info_mode_convert_crashes :
  main (U := ascii_db) env_sample 0 args_info_convert
  = IO [EOpen (str_of_string "flash.uf2")] (Uncaught TypeError).
Proof. vm_compute. reflexivity. Qed.

(** * Further properties of the converter *)

(** ** Format detection, continued *)

Lemma le_u32_inj (a0 a1 a2 a3 b0 b1 b2 b3 : byte) :
  le_u32 a0 a1 a2 a3 = le_u32 b0 b1 b2 b3 →
  a0 = b0 ∧ a1 = b1 ∧ a2 = b2 ∧ a3 = b3.
Proof.
  unfold le_u32. intros H.
  pose proof (Z_of_byte_range a0). pose proof (Z_of_byte_range a1).
  pose proof (Z_of_byte_range a2). pose proof (Z_of_byte_range a3).
  pose proof (Z_of_byte_range b0). pose proof (Z_of_byte_range b1).
  pose proof (Z_of_byte_range b2). pose proof (Z_of_byte_range b3).
  assert (Z_of_byte a0 = Z_of_byte b0 ∧ Z_of_byte a1 = Z_of_byte b1
          ∧ Z_of_byte a2 = Z_of_byte b2 ∧ Z_of_byte a3 = Z_of_byte b3)
    as (E0 & E1 & E2 & E3) by lia.
  rewrite <- (byte_of_Z_of_byte a0), <- (byte_of_Z_of_byte a1),
          <- (byte_of_Z_of_byte a2), <- (byte_of_Z_of_byte a3).
  rewrite E0, E1, E2, E3, !byte_of_Z_of_byte. auto.
Qed.

Lemma is_uf2_true_iff (buf : list byte) :
  is_uf2 buf = Ok true
  ↔ take 8 buf = [x55; x46; x32; x0a; x57; x51; x5d; x9e].
Proof.
  destruct (Nat.lt_ge_cases (length buf) 8) as [Hs|Hl].
  - rewrite (is_uf2_short buf Hs). split; [discriminate|].
    intros H. apply (f_equal length) in H. rewrite length_take in H.
    cbn [length] in H. lia.
  - do 8 (destruct buf as [|? buf]; [cbn in Hl; lia|]).
    unfold is_uf2, unpack_Is. rewrite slice_0.
    cbn [take firstn]. rewrite !take_0.
    cbn [length Nat.eqb Nat.mul Nat.add le_words mbind result_bind].
    change UF2_MAGIC_START0 with (le_u32 x55 x46 x32 x0a).
    change UF2_MAGIC_START1 with (le_u32 x57 x51 x5d x9e).
    split.
    + intros H. apply Ok_inj in H. apply andb_true_iff in H as [H0 H1].
      apply Z.eqb_eq, le_u32_inj in H0. apply Z.eqb_eq, le_u32_inj in H1.
      destruct H0 as (-> & -> & -> & ->). destruct H1 as (-> & -> & -> & ->).
      reflexivity.
    + intros H. injection H as -> -> -> -> -> -> -> ->.
      rewrite !Z.eqb_refl. reflexivity.
Qed.

(** X1: [is_uf2] answers [True] exactly for the buffers that begin with
    the eight bytes 55 46 32 0A 57 51 5D 9E, the two start magics in
    little-endian order; it raises [struct.error] exactly for the buffers
    of fewer than eight bytes, and answers [False] otherwise. *)
Theorem is_uf2_decides_magic_bytes (buf : list byte) :
  (is_uf2 buf = Ok true
   ↔ take 8 buf = [x55; x46; x32; x0a; x57; x51; x5d; x9e])
  ∧ (is_uf2 buf = Raise StructError ↔ (length buf < 8)%nat)
  ∧ (is_uf2 buf = Ok false
     ↔ (8 <= length buf)%nat
       ∧ take 8 buf ≠ [x55; x46; x32; x0a; x57; x51; x5d; x9e]).
Proof.
  split; [apply is_uf2_true_iff|].
  destruct (Nat.lt_ge_cases (length buf) 8) as [Hs|Hl].
  - rewrite (is_uf2_short buf Hs).
    split; [tauto|]. split; [discriminate|]. intros [H _]. lia.
  - destruct (is_uf2_total buf Hl) as [b Hb].
    split; [rewrite Hb; split; [discriminate|lia]|].
    pose proof (is_uf2_true_iff buf) as Ht. rewrite Hb in *.
    destruct b.
    + split; [discriminate|]. intros [_ H]. exfalso. apply H, Ht. reflexivity.
    + split; [|reflexivity]. intros _. split; [exact Hl|].
      intros H. apply Ht in H. discriminate.
Qed.

Lemma utf8_decode_aux_ascii (fuel : nat) (bs : list Z) :
  (length bs <= fuel)%nat → Forall (fun b => b < 0x80) bs →
  utf8_decode_aux fuel bs = Some (map Z.to_N bs).
Proof.
  revert bs. induction fuel as [|fuel IH]; intros bs Hf Hall.
  - destruct bs; [reflexivity|cbn in Hf; lia].
  - destruct bs as [|b r]; [reflexivity|].
    inversion Hall as [|? ? Hb Hr]; subst.
    cbn [utf8_decode_aux utf8_step].
    apply Z.ltb_lt in Hb. rewrite Hb.
    rewrite IH; [reflexivity|cbn in Hf; lia|assumption].
Qed.

Lemma utf8_decode_ascii (buf : list byte) :
  Forall (fun b => Z_of_byte b < 0x80) buf →
  utf8_decode buf = Some (map (fun b => Z.to_N (Z_of_byte b)) buf).
Proof.
  intros H. unfold utf8_decode.
  rewrite utf8_decode_aux_ascii.
  - rewrite map_map. reflexivity.
  - rewrite length_map. lia.
  - apply Forall_map. exact H.
Qed.

Lemma hex_class_ascii (b : byte) : hex_class b = true → Z_of_byte b < 0x80.
Proof.
  unfold hex_class. intros H.
  repeat (apply orb_true_iff in H as [H|H]);
    repeat (apply andb_true_iff in H as [? H]); lia.
Qed.

Lemma utf8_decode_aux_head (fuel : nat) (b : Z) (r : list Z) (w : str) :
  b < 0x80 → utf8_decode_aux fuel (b :: r) = Some w →
  ∃ w', w = Z.to_N b :: w'.
Proof.
  intros Hb H. destruct fuel as [|fuel]; [discriminate|].
  cbn [utf8_decode_aux utf8_step] in H.
  apply Z.ltb_lt in Hb. rewrite Hb in H.
  destruct (utf8_decode_aux fuel r) as [w'|]; [|discriminate].
  cbn in H. injection H as <-. eauto.
Qed.

Lemma byte_of_code (b : byte) (v : Z) :
  Z_of_byte b = v → b = byte_of_Z v.
Proof. intros <-. symmetry. apply byte_of_Z_of_byte. Qed.

Lemma is_hex_true_iff (buf : list byte) :
  is_hex buf = Ok true
  ↔ (∃ r, buf = x3a :: r) ∧ forallb hex_class buf = true.
Proof.
  unfold is_hex. split.
  - intros H.
    destruct (utf8_decode (slice buf 0 30)) as [[|c w]|] eqn:E;
      try discriminate.
    apply Ok_inj in H. apply andb_true_iff in H as [Hc Hre].
    unfold re_match_hex in Hre. apply andb_true_iff in Hre as [_ Hall].
    split; [|exact Hall].
    destruct buf as [|b r]; [discriminate|]. exists r. f_equal.
    cbn [forallb] in Hall. apply andb_true_iff in Hall as [Hb _].
    apply hex_class_ascii in Hb.
    unfold utf8_decode in E. rewrite slice_0 in E. cbn [take map] in E.
    apply utf8_decode_aux_head in E as [w' E]; [|exact Hb].
    injection E as -> _. apply N.eqb_eq in Hc.
    pose proof (Z_of_byte_range b).
    apply (byte_of_code b 58).
    change (chr ":") with 58%N in Hc. lia.
  - intros [[r ->] Hall].
    assert (Hascii : Forall (fun b => Z_of_byte b < 0x80) (x3a :: r)).
    { apply Forall_forall. intros b Hb.
      apply hex_class_ascii.
      rewrite forallb_forall in Hall. apply Hall.
      apply list_elem_of_In. exact Hb. }
    rewrite slice_0, utf8_decode_ascii.
    2:{ apply Forall_take. exact Hascii. }
    cbn [take map]. unfold re_match_hex. rewrite Hall. reflexivity.
Qed.

(** X2: [is_hex] answers [True] exactly for the buffers that begin with a
    colon and consist of colons, hexadecimal digits, carriage returns and
    line feeds only; it raises ([IndexError]) only for the empty buffer. *)
Theorem is_hex_decides_hex_text (buf : list byte) :
  (is_hex buf = Ok true
   ↔ (∃ r, buf = x3a :: r) ∧ forallb hex_class buf = true)
  ∧ (is_hex buf = Raise IndexError ↔ buf = [])
  ∧ (∀ e, is_hex buf = Raise e → e = IndexError).
Proof.
  split; [apply is_hex_true_iff|].
  destruct buf as [|b r].
  - split; [split; reflexivity|]. intros e H. vm_compute in H. congruence.
  - destruct (is_hex_total (b :: r)) as [v Hv]; [discriminate|].
    rewrite Hv. split; [split; discriminate|]. intros e H. discriminate.
Qed.

(** X3: a buffer that [is_uf2] accepts is rejected by [is_hex], without an
    exception: the two probes of [main] never both succeed. *)
Theorem uf2_is_not_hex (buf : list byte) :
  is_uf2 buf = Ok true → is_hex buf = Ok false.
Proof.
  intros H. apply is_uf2_true_iff in H.
  destruct buf as [|b r]; [discriminate|].
  cbn [take] in H. injection H as -> _.
  unfold is_hex.
  destruct (utf8_decode (slice (x55 :: r) 0 30)) as [w|] eqn:E; [|reflexivity].
  unfold utf8_decode in E. rewrite slice_0 in E. cbn [take map] in E.
  apply utf8_decode_aux_head in E as [w' ->]; [|reflexivity].
  reflexivity.
Qed.

(** X4: when [is_hex] accepts a buffer, the whole buffer is ASCII, so the
    [decode("utf-8")] that [main] applies to it next cannot raise and
    yields the same bytes as text. *)
Theorem is_hex_text_decodes (buf : list byte) :
  is_hex buf = Ok true →
  ∃ text, utf8_decode buf = Some text
          ∧ length text = length buf ∧ ascii_bytes text = buf.
Proof.
  intros H. apply is_hex_true_iff in H as [_ Hall].
  assert (Hascii : Forall (fun b => Z_of_byte b < 0x80) buf).
  { apply Forall_forall. intros b Hb. apply hex_class_ascii.
    rewrite forallb_forall in Hall. apply Hall, list_elem_of_In, Hb. }
  eexists. split; [apply utf8_decode_ascii, Hascii|].
  split; [apply length_map|].
  unfold ascii_bytes. rewrite map_map.
  clear Hall Hascii. induction buf as [|b r IH]; [reflexivity|].
  cbn [map]. rewrite IH. f_equal.
  pose proof (Z_of_byte_range b).
  rewrite Z2N.id by lia. apply byte_of_Z_of_byte.
Qed.

(** ** The decoder: failures and skipped blocks *)

Lemma for_each_Raise {S} (body : nat → S → result S) (l : list nat) st e :
  for_each body l st = Raise e → ∃ i s, In i l ∧ body i s = Raise e.
Proof.
  revert st. induction l as [|i l IH]; intros st H; [discriminate|].
  cbn [for_each] in H. destruct (body i st) as [s|e'] eqn:E.
  - cbn [mbind result_bind] in H. destruct (IH _ H) as (j & s' & Hj & Hs).
    exists j, s'. split; [right; exact Hj|exact Hs].
  - cbn [mbind result_bind] in H. exists i, st. split; [left; reflexivity|].
    congruence.
Qed.

Lemma for_each_Ok_all {S} (body : nat → S → result S) (l : list nat) st st' :
  for_each body l st = Ok st' →
  ∀ i, In i l → ∃ s s', body i s = Ok s'.
Proof.
  revert st. induction l as [|j l IH]; intros st H i Hi; [destruct Hi|].
  cbn [for_each] in H. destruct (body j st) as [s|e'] eqn:E; [|discriminate].
  cbn [mbind result_bind] in H. destruct Hi as [->|Hi]; [eauto|].
  exact (IH _ H i Hi).
Qed.

Lemma for_each_invariant {S} (P : S → Prop) (body : nat → S → result S)
    (l : list nat) st st' :
  P st →
  (∀ i s s', In i l → P s → body i s = Ok s' → P s') →
  for_each body l st = Ok st' → P st'.
Proof.
  revert st. induction l as [|j l IH]; intros st H0 Hstep H.
  - apply Ok_inj in H. subst. exact H0.
  - cbn [for_each] in H. destruct (body j st) as [s|e'] eqn:E; [|discriminate].
    cbn [mbind result_bind] in H. apply (IH s); [| |exact H].
    + apply (Hstep j st s); [left; reflexivity|exact H0|exact E].
    + intros i s1 s2 Hi. apply Hstep. right. exact Hi.
Qed.

Lemma accept_block_Raise familyid hd block st e :
  accept_block familyid hd block st = Raise e → e = TypeError.
Proof.
  unfold accept_block. intros H.
  destruct (hd4 hd >? 476); [congruence|].
  destruct (block_padding_ok familyid hd st) as (c & _ & Hp).
  rewrite Hp in H. cbn [mbind result_bind] in H.
  destruct (hd3 hd - c <? 0); [congruence|].
  destruct (hd3 hd - c >? 10 * 1024 * 1024); [congruence|].
  destruct (negb ((hd3 hd - c) mod 4 =? 0)); [congruence|].
  discriminate.
Qed.

Lemma block_body_Raise familyid buf n k st e :
  (k < length buf / 512)%nat →
  block_body familyid buf n k st = Raise e → e = TypeError.
Proof.
  intros Hk H. destruct (block_hd_ok buf k Hk) as [hd Hhd].
  destruct (block_body_cases familyid buf n k st hd Hhd)
    as [[_ E]|[(_ & _ & E)|[_ E]]]; rewrite E in H.
  - congruence.
  - discriminate.
  - destruct (accept_block familyid hd (nth_block buf k) st) as [s|e'] eqn:Ea.
    + discriminate.
    + cbn [mbind result_bind] in H. apply accept_block_Raise in Ea. congruence.
Qed.

(** X5: whatever the buffer, [convert_from_uf2] either returns or raises
    [TypeError]: each [assert False, "..." + ptr] fails while building its
    message, so no [AssertionError] and none of the messages is ever seen. *)
Theorem convert_from_uf2_raises_only_TypeError
    (familyid appstartaddr0 : Z) (buf : list byte) :
  (∃ out start, convert_from_uf2 familyid appstartaddr0 buf = Ok (out, start))
  ∨ convert_from_uf2 familyid appstartaddr0 buf = Raise TypeError.
Proof.
  unfold convert_from_uf2.
  destruct (for_each _ _ _) as [st|e'] eqn:E; [left; eauto|]. right.
  cbn [mbind result_bind].
  apply for_each_Raise in E as (k & s & Hk & Hb).
  apply in_seq in Hk. apply block_body_Raise in Hb; [congruence|lia].
Qed.

(** X6: [convert_from_uf2] returns normally only if every complete block
    of the buffer carries both start magics and every block without the
    no-flash bit has a payload size of at most 476: a block with a bad
    magic is not skipped, it aborts the decode. *)
Theorem convert_from_uf2_success_needs_good_blocks
    (familyid appstartaddr0 : Z) (buf out : list byte) (start : Z) (k : nat) :
  convert_from_uf2 familyid appstartaddr0 buf = Ok (out, start) →
  (k < length buf / 512)%nat →
  good_magic (header_at buf k) = true
  ∧ (no_flash (header_at buf k) = false → hd4 (header_at buf k) <= 476).
Proof.
  unfold convert_from_uf2. intros H Hk.
  destruct (for_each _ _ _) as [st|e'] eqn:E; [|discriminate].
  destruct (for_each_Ok_all _ _ _ _ E k) as (s & s' & Hb);
    [apply in_seq; lia|]. clear E.
  pose proof (block_hd_header_at buf k Hk) as Hhd.
  destruct (block_body_cases familyid buf (length buf / 512) k s _ Hhd)
    as [[_ E]|[(Hm & Hf & _)|[Hacc E]]].
  - congruence.
  - split; [exact Hm|]. congruence.
  - unfold accepted in Hacc. apply andb_true_iff in Hacc as [Hm _].
    split; [exact Hm|]. intros _.
    rewrite E in Hb. unfold accept_block in Hb.
    destruct (hd4 (header_at buf k) >? 476) eqn:E4; [discriminate|]. lia.
Qed.

Lemma convert_from_uf2_success_needs_good_blocks_witness :
  good_magic (header_at one_family_with_gap 1) = true
  ∧ (no_flash (header_at one_family_with_gap 1) = false →
     hd4 (header_at one_family_with_gap 1) <= 476).
Proof.
  apply (convert_from_uf2_success_needs_good_blocks 0xAAAA 0
           one_family_with_gap
           ([x01; x02; x03; x04] ++ replicate 8 x00 ++ [x05; x06; x07; x08])
           0x1000 1).
  - vm_compute. reflexivity.
  - vm_compute. lia.
Defined.

Lemma accept_block_unmatched familyid hd block st st' :
  familyid ≠ 0 → hd7 hd ≠ familyid →
  accept_block familyid hd block st = Ok st' →
  appstartaddr st' = appstartaddr st
  ∧ ∃ gap, concat (outp st') = concat (outp st) ++ replicate gap x00.
Proof.
  intros Hf H7 H.
  destruct (accept_block_fields _ _ _ _ _ H) as (_ & _ & _ & Ha).
  split.
  - rewrite Ha. unfold reset_cursor.
    assert ((familyid =? 0) || (familyid =? hd7 hd) = false) as ->.
    { apply orb_false_iff. split; apply Z.eqb_neq; congruence. }
    assert (Had : appstartaddr (adopt_family hd st) = appstartaddr st)
      by (unfold adopt_family; destruct (_ && _); reflexivity).
    destruct (_ || _); cbn [appstartaddr]; [exact Had|exact Had].
  - unfold accept_block in H.
    destruct (hd4 hd >? 476) eqn:E4; [discriminate|].
    destruct (block_padding_ok familyid hd st) as (c & _ & Hp).
    destruct (bad_gap_dec (hd3 hd - c)) as [Hbad|Hgood].
    + destruct (accept_block_gap familyid hd block st _ ltac:(lia) Hp)
        as [Hr _].
      unfold accept_block in Hr. rewrite E4 in Hr. rewrite (Hr Hbad) in H.
      discriminate.
    + destruct (accept_block_gap familyid hd block st _ ltac:(lia) Hp)
        as [_ Hk].
      destruct (Hk Hgood) as (st2 & E2 & Hout & _).
      unfold accept_block in E2. rewrite E4 in E2. rewrite E2 in H.
      apply Ok_inj in H. subst st2. rewrite Hout.
      unfold block_payload.
      assert ((familyid =? 0) || tagged hd && (familyid =? hd7 hd) = false)
        as ->.
      { apply orb_false_iff. split; [apply Z.eqb_neq; congruence|].
        apply andb_false_iff. right. apply Z.eqb_neq. congruence. }
      rewrite app_nil_r. eauto.
Qed.

Lemma last_block_filter familyid st : familyid ≠ 0 → last_block familyid st = st.
Proof.
  intros H. unfold last_block. apply Z.eqb_neq in H. rewrite H, andb_false_r.
  reflexivity.
Qed.

(** X7: under a non-zero family filter that no block of the buffer
    matches, a successful decode leaves the start address as it was and
    copies no payload: the output holds only the zero bytes of the gaps
    between the blocks, which are emitted whatever the filter. *)
Theorem convert_from_uf2_filter_without_match
    (familyid appstartaddr0 : Z) (buf out : list byte) (start : Z) :
  familyid ≠ 0 →
  (∀ k, (k < length buf / 512)%nat → hd7 (header_at buf k) ≠ familyid) →
  convert_from_uf2 familyid appstartaddr0 buf = Ok (out, start) →
  start = appstartaddr0 ∧ Forall (fun b => b = x00) out.
Proof.
  intros Hf Hno H. unfold convert_from_uf2 in H.
  destruct (for_each _ _ _) as [st|e'] eqn:E; [|discriminate].
  apply Ok_inj in H. injection H as <- <-.
  apply (for_each_invariant
           (fun st => appstartaddr st = appstartaddr0
                      ∧ Forall (fun b => b = x00) (concat (outp st))))
    in E; [tauto|split; [reflexivity|constructor]|].
  intros k s s' Hk [Ha Hz] Hb. apply in_seq in Hk.
  pose proof (block_hd_header_at buf k ltac:(lia)) as Hhd.
  destruct (block_body_cases familyid buf (length buf / 512) k s _ Hhd)
    as [[_ E1]|[(_ & _ & E1)|[_ E1]]]; rewrite E1 in Hb.
  - discriminate.
  - apply Ok_inj in Hb. subst s'. auto.
  - destruct (accept_block familyid (header_at buf k) (nth_block buf k) s)
      as [s1|] eqn:Ea; [|discriminate].
    cbn [mbind result_bind] in Hb. apply Ok_inj in Hb.
    rewrite (last_block_filter familyid s1 Hf) in Hb.
    assert (s' = s1) as -> by (destruct (k =? _)%nat; congruence).
    apply accept_block_unmatched in Ea as (Ha' & gap & Ho);
      [|exact Hf|apply Hno; lia].
    split; [congruence|]. rewrite Ho. apply Forall_app. split; [exact Hz|].
    apply Forall_forall. intros b Hb'. apply elem_of_replicate in Hb'. tauto.
Qed.

Lemma convert_from_uf2_filter_without_match_witness :
  convert_from_uf2 0xBBBB 0x3000 one_family_with_gap
  = Ok (replicate 8 x00, 0x3000)
  ∧ 0x3000 = 0x3000 ∧ Forall (fun b => b = x00) (replicate 8 x00).
Proof.
  split; [vm_compute; reflexivity|].
  apply (convert_from_uf2_filter_without_match 0xBBBB 0x3000
           one_family_with_gap (replicate 8 x00) 0x3000).
  - discriminate.
  - intros k Hk. change (length one_family_with_gap / 512)%nat with 2%nat in Hk.
    destruct k as [|[|k]]; [vm_compute; discriminate..|lia].
  - vm_compute. reflexivity.
Defined.

Lemma block_body_nth familyid (buf buf' : list byte) (n n' k k' : nat) st :
  nth_block buf k = nth_block buf' k' →
  (k =? n - 1)%nat = (k' =? n' - 1)%nat →
  block_body familyid buf n k st = block_body familyid buf' n' k' st.
Proof.
  intros Hb Hl. unfold block_body.
  change (slice buf (k * 512) (k * 512 + 512)) with (nth_block buf k).
  change (slice buf' (k' * 512) (k' * 512 + 512)) with (nth_block buf' k').
  rewrite Hb, Hl. reflexivity.
Qed.

Lemma for_each_shift {S} (body body' : nat → S → result S) (l : list nat) st :
  (∀ i s, In i l → body' (Datatypes.S i) s = body i s) →
  for_each body' (map Datatypes.S l) st = for_each body l st.
Proof.
  revert st. induction l as [|i l IH]; intros st H; [reflexivity|].
  cbn [map for_each]. rewrite H by (left; reflexivity).
  destruct (body i st); [|reflexivity]. cbn [mbind result_bind].
  apply IH. intros j s Hj. apply H. right. exact Hj.
Qed.

Lemma nth_block_app_l (pre rest : list byte) (k : nat) :
  (512 * (k + 1) <= length pre)%nat →
  nth_block (pre ++ rest) k = nth_block pre k.
Proof. intros H. unfold nth_block. apply slice_app_l. lia. Qed.

Lemma nth_block_app_r (pre rest : list byte) (i k : nat) :
  length pre = (512 * i)%nat →
  nth_block (pre ++ rest) (i + k) = nth_block rest k.
Proof.
  intros H. unfold nth_block.
  replace ((i + k) * 512)%nat with (length pre + k * 512)%nat by lia.
  rewrite <- Nat.add_assoc. apply slice_app_r.
Qed.

(** X8: a block with good magics and the no-flash bit set is ignored
    altogether: inserting one in front of any block of a UF2 buffer does
    not change what [convert_from_uf2] returns or raises. *)
Theorem convert_from_uf2_ignores_noflash_block
    (familyid appstartaddr0 : Z) (pre blk post : list byte) (i : nat) :
  length pre = (512 * i)%nat →
  length blk = 512%nat →
  (512 <= length post)%nat →
  good_magic (header_at blk 0) = true →
  no_flash (header_at blk 0) = true →
  convert_from_uf2 familyid appstartaddr0 (pre ++ blk ++ post)
  = convert_from_uf2 familyid appstartaddr0 (pre ++ post).
Proof.
  intros Hpre Hblk Hpost Hm Hf.
  set (hd := header_at blk 0) in *.
  assert (Hhd : unpack_header (slice blk 0 32) = Ok hd).
  { pose proof (block_hd_header_at blk 0) as H. rewrite Hblk in H.
    specialize (H ltac:(cbn; lia)). unfold block_hd, nth_block in H.
    cbn [Nat.mul Nat.add] in H. rewrite (slice_0 blk 512) in H.
    rewrite <- Hblk, firstn_all in H. exact H. }
  set (m := (length post / 512)%nat).
  assert (Hm1 : (1 <= m)%nat).
  { unfold m. apply Nat.div_le_lower_bound; lia. }
  assert (Hn : (length (pre ++ post) / 512 = i + m)%nat).
  { rewrite length_app, Hpre, Nat.mul_comm, Nat.div_add_l by lia.
    reflexivity. }
  assert (Hn' : (length (pre ++ blk ++ post) / 512 = i + Datatypes.S m)%nat).
  { rewrite !length_app, Hpre, Hblk.
    replace (512 * i + (512 + length post))%nat
      with ((i + 1) * 512 + length post)%nat by lia.
    rewrite Nat.div_add_l by lia. fold m. lia. }
  unfold convert_from_uf2. rewrite Hn, Hn'.
  rewrite (seq_app i (Datatypes.S m) 0), (seq_app i m 0).
  cbn [Nat.add seq].
  rewrite !for_each_app.
  assert (Hfront :
    for_each (block_body familyid (pre ++ blk ++ post) (i + Datatypes.S m))
             (seq 0 i) (dstate_init appstartaddr0)
    = for_each (block_body familyid (pre ++ post) (i + m))
               (seq 0 i) (dstate_init appstartaddr0)).
  { apply for_each_ext. intros k s Hk. apply in_seq in Hk.
    apply block_body_nth.
    - rewrite !nth_block_app_l by lia. reflexivity.
    - transitivity false; [|symmetry]; apply Nat.eqb_neq; lia. }
  rewrite Hfront.
  destruct (for_each (block_body familyid (pre ++ post) (i + m)) (seq 0 i)
                     (dstate_init appstartaddr0)) as [st|e]; [|reflexivity].
  cbn [mbind result_bind for_each].
  assert (Hskip : block_body familyid (pre ++ blk ++ post) (i + Datatypes.S m)
                             (i + 0) st = Ok st).
  { assert (Hb : nth_block (pre ++ blk ++ post) (i + 0) = blk).
    { rewrite (nth_block_app_r pre _ i 0 Hpre). unfold nth_block.
      cbn [Nat.mul Nat.add]. rewrite slice_app_l by lia.
      rewrite slice_0, <- Hblk. apply firstn_all. }
    destruct (block_body_cases familyid (pre ++ blk ++ post) (i + Datatypes.S m)
                               (i + 0) st hd)
      as [[E _]|[(_ & _ & E)|[E _]]].
    - unfold block_hd. rewrite Hb. exact Hhd.
    - congruence.
    - exact E.
    - unfold accepted in E. rewrite Hm, Hf in E. discriminate. }
  rewrite Nat.add_0_r in Hskip. rewrite Hskip. cbn [mbind result_bind].
  f_equal.
  rewrite <- seq_shift. rewrite for_each_shift with
    (body := block_body familyid (pre ++ post) (i + m)); [reflexivity|].
  intros k s Hk. apply in_seq in Hk.
  assert (∃ j, k = (i + j)%nat) as [j ->] by (exists (k - i)%nat; lia).
  apply block_body_nth.
  - rewrite <- Nat.add_succ_r.
    rewrite !(nth_block_app_r pre _ i _ Hpre).
    unfold nth_block.
    replace (Datatypes.S j * 512)%nat with (length blk + j * 512)%nat by lia.
    rewrite <- Nat.add_assoc. apply slice_app_r.
  - destruct (Nat.eq_dec j (m - 1)%nat) as [->|Hne].
    + transitivity true; [|symmetry]; apply Nat.eqb_eq; lia.
    + transitivity false; [|symmetry]; apply Nat.eqb_neq; lia.
Qed.

Lemma convert_from_uf2_ignores_noflash_block_witness :
  convert_from_uf2 0 0
    (mk_block 0x2000 0x1000 4 0 2 0xAAAA [x01; x02; x03; x04]
     ++ mk_block 0x2001 0x2000 4 1 2 0xBBBB [x05; x06; x07; x08]
     ++ mk_block 0x2000 0x100c 4 1 2 0xAAAA [x05; x06; x07; x08])
  = convert_from_uf2 0 0
      (mk_block 0x2000 0x1000 4 0 2 0xAAAA [x01; x02; x03; x04]
       ++ mk_block 0x2000 0x100c 4 1 2 0xAAAA [x05; x06; x07; x08]).
Proof.
  apply (convert_from_uf2_ignores_noflash_block 0 0 _ _ _ 1);
    vm_compute; first [reflexivity | lia | discriminate].
Defined.

(** ** The decoded image *)

Lemma for_each_seq_invariant {S} (P : nat → S → Prop)
    (body : nat → S → result S) (n : nat) st st' :
  P 0%nat st →
  (∀ k s s', (k < n)%nat → P k s → body k s = Ok s' → P (Datatypes.S k) s') →
  for_each body (seq 0 n) st = Ok st' → P n st'.
Proof.
  intros H0 Hstep. revert st'. induction n as [|n IH]; intros st' H.
  - apply Ok_inj in H. subst. exact H0.
  - rewrite for_each_snoc in H.
    destruct (for_each body (seq 0 n) st) as [s|] eqn:E; [|discriminate].
    cbn [mbind result_bind] in H.
    apply (Hstep n s st'); [lia| |exact H].
    apply IH; [|reflexivity]. intros k s1 s2 Hk. apply Hstep. lia.
Qed.

Lemma unpack_header_range (bs : list byte) (hd : header) :
  unpack_header bs = Ok hd →
  0 <= hd3 hd < 2 ^ 32 ∧ 0 <= hd4 hd < 2 ^ 32.
Proof.
  unfold unpack_header, unpack_Is. intros H.
  destruct (length bs =? 4 * 8)%nat eqn:E; [|discriminate].
  apply Nat.eqb_eq in E.
  do 32 (destruct bs as [|? bs]; [discriminate|]).
  destruct bs; [|discriminate].
  cbn [mbind result_bind le_words] in H. apply Ok_inj in H. subst hd.
  cbn [hd3 hd4]. split; apply le_u32_range.
Qed.

Lemma header_at_range (buf : list byte) (k : nat) :
  (k < length buf / 512)%nat →
  0 <= hd3 (header_at buf k) < 2 ^ 32 ∧ 0 <= hd4 (header_at buf k) < 2 ^ 32.
Proof.
  intros Hk. pose proof (block_hd_header_at buf k Hk) as H.
  unfold block_hd in H. exact (unpack_header_range _ _ H).
Qed.

Lemma accept_block_datalen familyid hd block st st' :
  accept_block familyid hd block st = Ok st' → hd4 hd <= 476.
Proof.
  unfold accept_block. destruct (hd4 hd >? 476) eqn:E; [discriminate|]. lia.
Qed.

Lemma accept_block_Ok_gap familyid hd block st st' gap :
  accept_block familyid hd block st = Ok st' →
  block_padding familyid hd st = Ok gap →
  0 <= gap
  ∧ concat (outp st')
    = concat (outp st) ++ replicate (Z.to_nat gap) x00
      ++ block_payload familyid hd block.
Proof.
  intros H Hp. pose proof (accept_block_datalen _ _ _ _ _ H) as Hlen.
  destruct (accept_block_gap familyid hd block st gap Hlen Hp) as [Hr Hk].
  destruct (bad_gap_dec gap) as [Hbad|Hgood].
  - rewrite (Hr Hbad) in H. discriminate.
  - destruct (Hk Hgood) as (st2 & E2 & Hout & _).
    assert (st2 = st') as -> by congruence.
    split; [|exact Hout]. unfold bad_gap in Hgood. lia.
Qed.

Section Image.
Variables (familyid fam appstartaddr0 : Z) (buf : list byte).
Hypothesis Hfam :
  ∀ k, (k < length buf / 512)%nat → flashed buf k →
       hd7 (header_at buf k) = fam.
Hypothesis Hfilter :
  familyid = 0
  ∨ (familyid = fam
     ∧ ∀ k, (k < length buf / 512)%nat → flashed buf k →
            tagged (header_at buf k) = true).

Lemma image_payload (k : nat) :
  (k < length buf / 512)%nat → flashed buf k →
  hd4 (header_at buf k) <= 476 →
  block_payload familyid (header_at buf k) (nth_block buf k)
  = slice (nth_block buf k) 32 (32 + Z.to_nat (hd4 (header_at buf k)))
  ∧ Z.of_nat (length (block_payload familyid (header_at buf k)
                                    (nth_block buf k)))
    = hd4 (header_at buf k).
Proof.
  intros Hk Hfl Hlen.
  assert (E : block_payload familyid (header_at buf k) (nth_block buf k)
              = slice (nth_block buf k) 32
                      (32 + Z.to_nat (hd4 (header_at buf k)))).
  { unfold block_payload. destruct Hfilter as [->|[-> Htag]]; [reflexivity|].
    rewrite (Htag k Hk Hfl), (Hfam k Hk Hfl), Z.eqb_refl, orb_true_r.
    reflexivity. }
  split; [exact E|]. rewrite E.
  destruct (header_at_range buf k Hk) as [_ H4].
  rewrite slice_length by (rewrite nth_block_length by exact Hk; lia). lia.
Qed.

Lemma image_start (hd : header) (s : Z) :
  hd7 hd = fam →
  (if (familyid =? 0) || (familyid =? hd7 hd) then hd3 hd else s) = hd3 hd.
Proof.
  intros H7. destruct Hfilter as [->|[-> _]]; [reflexivity|].
  rewrite H7, Z.eqb_refl, orb_true_r. reflexivity.
Qed.

Lemma placed_app (out more : list byte) (start : Z) (j : nat) :
  (j < length buf / 512)%nat →
  placed buf out start j → placed buf (out ++ more) start j.
Proof.
  unfold placed. intros Hj (H1 & H2 & H3).
  destruct (header_at_range buf j Hj) as [_ R].
  split; [exact H1|]. split; [rewrite length_app; lia|].
  rewrite <- H3. apply slice_app_l. lia.
Qed.

Lemma image_step (k : nat) (st st' : dstate) :
  (k < length buf / 512)%nat →
  image_inv buf fam appstartaddr0 k st →
  block_body familyid buf (length buf / 512) k st = Ok st' →
  image_inv buf fam appstartaddr0 (Datatypes.S k) st'.
Proof.
  intros Hk Hinv Hb.
  pose proof (block_hd_header_at buf k Hk) as Hhd.
  set (hd := header_at buf k) in *.
  destruct (block_body_cases familyid buf (length buf / 512) k st hd Hhd)
    as [[_ E]|[(_ & Hnf & E)|[Hacc E]]]; rewrite E in Hb.
  - discriminate.
  - (* a skipped block *)
    apply Ok_inj in Hb. subst st'. unfold image_inv in *.
    assert (Hk' : ¬ flashed buf k) by (unfold flashed; fold hd; congruence).
    destruct (curraddr st) as [c|].
    + destruct Hinv as (H1 & H2 & H3 & (j0 & Hj0 & F0 & B0 & A0)
                        & (j1 & Hj1 & F1 & B1 & C1) & H6).
      split; [exact H1|]. split; [exact H2|]. split; [exact H3|].
      split; [exists j0; split; [lia|auto]|].
      split.
      { exists j1. split; [lia|]. split; [exact F1|]. split; [|exact C1].
        intros j Hj. destruct (Nat.eq_dec j k) as [->|Hne]; [exact Hk'|].
        apply B1. lia. }
      intros j Hj Fj. destruct (Nat.eq_dec j k) as [->|Hne]; [contradiction|].
      apply H6; [lia|exact Fj].
    + destruct Hinv as [H1 H2]. split; [exact H1|].
      intros j Hj. destruct (Nat.eq_dec j k) as [->|Hne]; [exact Hk'|].
      apply H2. lia.
  - (* a flashed block *)
    assert (Hfl : flashed buf k).
    { unfold flashed. fold hd. unfold accepted in Hacc.
      apply andb_true_iff in Hacc as [_ Hacc]. apply negb_true_iff in Hacc.
      exact Hacc. }
    pose proof (Hfam k Hk Hfl) as H7. fold hd in H7.
    destruct (accept_block familyid hd (nth_block buf k) st) as [s1|] eqn:Ea;
      [|discriminate].
    cbn [mbind result_bind] in Hb. apply Ok_inj in Hb.
    pose proof (accept_block_datalen _ _ _ _ _ Ea) as Hlen.
    destruct (accept_block_fields _ _ _ _ _ Ea) as (Hc1 & Hf1 & Hff1 & Ha1).
    destruct (image_payload k Hk Hfl Hlen) as [Hpay Hpaylen]. fold hd in Hpay, Hpaylen.
    destruct (header_at_range buf k Hk) as [R3 R4]. fold hd in R3, R4.
    unfold image_inv in Hinv.
    destruct (curraddr st) as [c|] eqn:Hcur.
    + (* a later flashed block *)
      destruct Hinv as (H1 & H2 & H3 & (j0 & Hj0 & F0 & B0 & A0)
                        & (j1 & Hj1 & F1 & B1 & C1) & H6).
      assert (Hreset : reset_cursor familyid hd (adopt_family hd st) = st).
      { apply (reset_cursor_same_family familyid hd st c Hcur). congruence. }
      rewrite Hreset in *.
      assert (Hp : block_padding familyid hd st = Ok (hd3 hd - c)).
      { unfold block_padding, block_cursor. rewrite Hreset, Hcur.
        reflexivity. }
      destruct (accept_block_Ok_gap _ _ _ _ _ _ Ea Hp) as [Hgap Hout].
      assert (Hkeys : ∀ f, is_Some (families_found s1 !! f) → f = fam).
      { intros f Hf. rewrite Hff1 in Hf.
        apply note_family_keys in Hf as [->|Hf]; [exact H7|exact (H2 f Hf)]. }
      rewrite last_block_small in Hb by (eapply size_single_key; exact Hkeys).
      assert (st' = s1) as -> by (destruct (k =? _)%nat; congruence).
      unfold image_inv. rewrite Hc1.
      split; [congruence|]. split; [exact Hkeys|].
      split.
      { rewrite Hout, !length_app, length_replicate, Ha1. lia. }
      split; [exists j0; rewrite Ha1; split; [lia|auto]|].
      split.
      { exists k. split; [lia|]. split; [exact Hfl|]. split; [|reflexivity].
        intros j Hj. lia. }
      intros j Hj Fj. rewrite Hout, Ha1.
      destruct (Nat.eq_dec j k) as [->|Hne].
      * unfold placed. fold hd.
        assert (Hstart : appstartaddr st <= c).
        { specialize (H6 j1 Hj1 F1). unfold placed in H6.
          destruct (header_at_range buf j1 ltac:(lia)) as [_ R]. lia. }
        split; [lia|].
        split; [rewrite !length_app, length_replicate; lia|].
        rewrite app_assoc.
        replace (Z.to_nat (hd3 hd - appstartaddr st))
          with (length (concat (outp st) ++ replicate (Z.to_nat (hd3 hd - c)) x00)
                + 0)%nat
          by (rewrite length_app, length_replicate; lia).
        rewrite <- Nat.add_assoc, slice_app_r, slice_0, Nat.add_0_l.
        rewrite take_ge by lia. exact Hpay.
      * apply placed_app; [lia|]. apply H6; [lia|exact Fj].
    + (* the first flashed block *)
      destruct Hinv as [-> Hnone].
      rewrite reset_cursor_first in * by reflexivity.
      cbn [dstate_init families_found prev_flag all_flags_same outp
           appstartaddr currfamilyid] in *.
      rewrite (image_start hd appstartaddr0 H7) in Ha1.
      assert (Hp : block_padding familyid hd (dstate_init appstartaddr0)
                   = Ok 0).
      { unfold block_padding, block_cursor.
        rewrite reset_cursor_first by reflexivity. cbn [curraddr].
        rewrite Z.sub_diag. reflexivity. }
      destruct (accept_block_Ok_gap _ _ _ _ _ _ Ea Hp) as [_ Hout].
      cbn [dstate_init outp concat app] in Hout.
      change (replicate (Z.to_nat 0) x00) with (@nil byte) in Hout.
      cbn [app] in Hout.
      assert (Hkeys : ∀ f, is_Some (families_found s1 !! f) → f = fam).
      { intros f Hf. rewrite Hff1 in Hf.
        apply note_family_keys in Hf as [->|Hf]; [exact H7|].
        destruct Hf as [v Hv]. rewrite lookup_empty in Hv. discriminate. }
      rewrite last_block_small in Hb by (eapply size_single_key; exact Hkeys).
      assert (st' = s1) as -> by (destruct (k =? _)%nat; congruence).
      unfold image_inv. rewrite Hc1.
      split; [congruence|]. split; [exact Hkeys|].
      split; [rewrite Hout, Ha1; lia|].
      split.
      { exists k. split; [lia|]. split; [exact Hfl|]. split; [|exact Ha1].
        intros j Hj. apply Hnone. exact Hj. }
      split.
      { exists k. split; [lia|]. split; [exact Hfl|]. split; [|reflexivity].
        intros j Hj. lia. }
      intros j Hj Fj.
      destruct (Nat.eq_dec j k) as [->|Hne];
        [|exfalso; apply (Hnone j); [lia|exact Fj]].
      unfold placed. fold hd. rewrite Hout, Ha1, Z.sub_diag.
      split; [lia|]. split; [lia|].
      change (Z.to_nat 0) with 0%nat. rewrite slice_0, Nat.add_0_l.
      rewrite take_ge by lia. exact Hpay.
Qed.

Lemma image_decode (st : dstate) :
  decode_prefix familyid appstartaddr0 buf (length buf / 512) = Ok st →
  image_inv buf fam appstartaddr0 (length buf / 512) st.
Proof.
  unfold decode_prefix. intros H.
  apply (for_each_seq_invariant (image_inv buf fam appstartaddr0)) in H;
    [exact H| |].
  - unfold image_inv. cbn [dstate_init curraddr]. split; [reflexivity|].
    intros j Hj. lia.
  - intros k s s' Hk. apply image_step. exact Hk.
Qed.

End Image.

Lemma decode_placed
    (familyid fam appstartaddr0 : Z) (buf out : list byte) (start : Z) :
  (∀ k, (k < length buf / 512)%nat → flashed buf k →
        hd7 (header_at buf k) = fam) →
  (familyid = 0
   ∨ (familyid = fam
      ∧ ∀ k, (k < length buf / 512)%nat → flashed buf k →
             tagged (header_at buf k) = true)) →
  convert_from_uf2 familyid appstartaddr0 buf = Ok (out, start) →
  ∀ k, (k < length buf / 512)%nat → flashed buf k →
       placed buf out start k
       ∧ ((∀ j, (j < k)%nat → ¬ flashed buf j) →
          start = hd3 (header_at buf k))
       ∧ ((∀ j, (k < j < length buf / 512)%nat → ¬ flashed buf j) →
          Z.of_nat (length out)
          = hd3 (header_at buf k) + hd4 (header_at buf k) - start).
Proof.
  intros Hfam Hfilter H k Hk Fk.
  rewrite convert_from_uf2_prefix in H.
  destruct (decode_prefix _ _ _ _) as [st|] eqn:E; [|discriminate].
  cbn [mbind result_bind] in H. apply Ok_inj in H. injection H as <- <-.
  apply (image_decode familyid fam appstartaddr0 buf Hfam Hfilter) in E.
  unfold image_inv in E. destruct (curraddr st) as [c|].
  - destruct E as (_ & _ & H3 & (j0 & Hj0 & F0 & B0 & A0)
                   & (j1 & Hj1 & F1 & B1 & C1) & H6).
    split; [exact (H6 k Hk Fk)|]. split.
    + intros Hfirst. rewrite A0. f_equal.
      destruct (Nat.lt_trichotomy j0 k) as [Hlt|[->|Hgt]]; [|reflexivity|].
      * exfalso. exact (Hfirst j0 Hlt F0).
      * exfalso. exact (B0 k Hgt Fk).
    + intros Hlast. rewrite H3, C1.
      destruct (Nat.lt_trichotomy j1 k) as [Hlt|[->|Hgt]]; [|reflexivity|].
      * exfalso. apply (B1 k); [lia|exact Fk].
      * exfalso. apply (Hlast j1); [lia|exact F1].
  - destruct E as [_ Hnone]. exfalso. exact (Hnone k Hk Fk).
Qed.

(** X9: for a UF2 buffer whose flashed blocks (no-flash bit clear) all
    carry the same value [fam] in the family field, decoded with no filter,
    or with the filter [fam] when every flashed block is tagged: if
    [convert_from_uf2] returns, the start address is the target address of
    the first flashed block, every flashed block's payload lies in the
    output at its target address counted from the start address, and the
    output ends where the last flashed block ends. *)
Theorem convert_from_uf2_places_payloads
    (familyid fam appstartaddr0 : Z) (buf out : list byte) (start : Z) :
  (∀ k, (k < length buf / 512)%nat → flashed buf k →
        hd7 (header_at buf k) = fam) →
  (familyid = 0
   ∨ (familyid = fam
      ∧ ∀ k, (k < length buf / 512)%nat → flashed buf k →
             tagged (header_at buf k) = true)) →
  convert_from_uf2 familyid appstartaddr0 buf = Ok (out, start) →
  ∀ k, (k < length buf / 512)%nat → flashed buf k →
       placed buf out start k
       ∧ ((∀ j, (j < k)%nat → ¬ flashed buf j) →
          start = hd3 (header_at buf k))
       ∧ ((∀ j, (k < j < length buf / 512)%nat → ¬ flashed buf j) →
          Z.of_nat (length out)
          = hd3 (header_at buf k) + hd4 (header_at buf k) - start).
Proof. apply decode_placed. Qed.

(** ** The encoder: when it fails and what it writes *)

Lemma pack_I_Raise (v : Z) (e : exn) : pack_I v = Raise e → e = StructError.
Proof. unfold pack_I. destruct (_ && _); [discriminate|congruence]. Qed.

Lemma pack_Is_Raise (vs : list Z) (e : exn) :
  pack_Is vs = Raise e → e = StructError.
Proof.
  induction vs as [|v vs IH]; [discriminate|]. cbn [pack_Is].
  destruct (pack_I v) eqn:E; cbn [mbind result_bind].
  - destruct (pack_Is vs); cbn [mbind result_bind]; [discriminate|].
    intros H. apply IH. congruence.
  - intros H. apply (pack_I_Raise v). congruence.
Qed.

Lemma pack_Is_magic (vs : list Z) (hd : list byte) :
  pack_Is (UF2_MAGIC_START0 :: UF2_MAGIC_START1 :: vs) = Ok hd →
  take 8 hd = [x55; x46; x32; x0a; x57; x51; x5d; x9e].
Proof.
  cbn [pack_Is].
  change (pack_I UF2_MAGIC_START0) with (Ok [x55; x46; x32; x0a]).
  change (pack_I UF2_MAGIC_START1) with (Ok [x57; x51; x5d; x9e]).
  cbn [mbind result_bind]. destruct (pack_Is vs); cbn [mbind result_bind];
    [|discriminate].
  intros H. apply Ok_inj in H. subst hd. reflexivity.
Qed.

Lemma to_uf2_body_cases (familyid appstartaddr0 : Z) (file_content : list byte)
    (n k : nat) (out : list (list byte)) :
  (fields_fit familyid appstartaddr0 n k
   ∧ ∃ blk,
       to_uf2_body familyid appstartaddr0 file_content n k out
       = Ok (out ++ [blk])
       ∧ length blk = 512%nat
       ∧ take 8 blk = [x55; x46; x32; x0a; x57; x51; x5d; x9e]
       ∧ unpack_header (slice blk 0 32)
         = Ok (Header UF2_MAGIC_START0 UF2_MAGIC_START1 (family_flags familyid)
                      (Z.of_nat (256 * k) + appstartaddr0) 256
                      (Z.of_nat k) (Z.of_nat n) familyid)
       ∧ slice blk 32 288
         = slice file_content (256 * k) (256 * k + 256)
           ++ replicate
                (256 - length (slice file_content (256 * k) (256 * k + 256)))
                x00
       ∧ slice blk 288 508 = replicate 220 x00
       ∧ slice blk 508 512 = [x30; x6f; xb1; x0a])
  ∨ (¬ fields_fit familyid appstartaddr0 n k
     ∧ to_uf2_body familyid appstartaddr0 file_content n k out
       = Raise StructError).
Proof.
  unfold to_uf2_body, fields_fit.
  destruct (pack_Is _) as [hd|e] eqn:Hhd.
  - left. split; [apply pack_Is_inv in Hhd; tauto|].
    cbn [mbind result_bind].
    pose proof (pack_Is_magic _ _ Hhd) as Hmag.
    destruct (unpack_header_packed _ _ _ _ _ _ _ _ _ Hhd) as [Hl Hu].
    change (pack_I UF2_MAGIC_END) with (Ok [x30; x6f; xb1; x0a]).
    cbn [mbind result_bind].
    set (chunk := slice file_content (256 * k) (256 * k + 256)).
    assert (Hcl : (length chunk <= 256)%nat).
    { subst chunk. unfold slice. rewrite length_take. lia. }
    rewrite chunk_pad_loop_spec by lia.
    set (chunk' := chunk ++ replicate (256 - length chunk) x00).
    assert (Hcl' : length chunk' = 256%nat).
    { subst chunk'. rewrite length_app, length_replicate. lia. }
    assert (Hblk : length (hd ++ chunk' ++ datapadding ++ [x30; x6f; xb1; x0a])
                   = 512%nat).
    { rewrite !length_app, datapadding_length, Hl, Hcl'. reflexivity. }
    rewrite Hblk. cbn [Nat.eqb].
    eexists. split; [reflexivity|]. split; [exact Hblk|].
    split.
    { rewrite take_app_le by lia. exact Hmag. }
    split.
    { rewrite slice_0, take_app_length' by (symmetry; exact Hl). exact Hu. }
    split.
    { rewrite (slice_app_r_eq hd _ 32 0 256 Hl), slice_0.
      apply take_app_length'. symmetry. exact Hcl'. }
    split.
    { rewrite (slice_app_r_eq hd _ 32 256 476 Hl).
      rewrite (slice_app_r_eq chunk' _ 256 0 220 Hcl').
      rewrite slice_0. rewrite take_app_length' by reflexivity. reflexivity. }
    rewrite (slice_app_r_eq hd _ 32 476 480 Hl).
    rewrite (slice_app_r_eq chunk' _ 256 220 224 Hcl').
    rewrite (slice_app_r_eq datapadding _ 220 0 4 datapadding_length).
    reflexivity.
  - right. pose proof (pack_Is_Raise _ _ Hhd) as ->.
    split; [|reflexivity].
    intros Hfit. apply pack_Is_ok in Hfit as [bs Hbs]. congruence.
Qed.

Lemma encoded_prefix_step (familyid appstartaddr0 : Z)
    (file_content : list byte) (n k : nat) (out out' : list (list byte)) :
  encoded_prefix familyid appstartaddr0 file_content n k out →
  to_uf2_body familyid appstartaddr0 file_content n k out = Ok out' →
  encoded_prefix familyid appstartaddr0 file_content n (Datatypes.S k) out'.
Proof.
  intros [Hlen Hall] H.
  destruct (to_uf2_body_cases familyid appstartaddr0 file_content n k out)
    as [(_ & blk & E & Hblk)|[_ E]]; rewrite E in H; [|discriminate].
  apply Ok_inj in H. subst out'. split.
  - rewrite length_app, Hlen. cbn. lia.
  - intros j b Hj. apply lookup_app_Some in Hj as [Hj|[Hge Hj]].
    + exact (Hall j b Hj).
    + rewrite Hlen in *. apply list_lookup_singleton_Some in Hj as [Hj0 <-].
      assert (j = k) as -> by lia. exact Hblk.
Qed.

Lemma convert_to_uf2_blocks (familyid appstartaddr0 : Z)
    (file_content out : list byte) :
  convert_to_uf2 familyid appstartaddr0 file_content = Ok out →
  ∃ bl, out = concat bl
        ∧ encoded_prefix familyid appstartaddr0 file_content
            ((length file_content + 255) / 256)
            ((length file_content + 255) / 256) bl.
Proof.
  unfold convert_to_uf2. intros H.
  destruct (for_each _ _ _) as [bl|] eqn:E; [|discriminate].
  apply Ok_inj in H. exists bl. split; [congruence|].
  apply (for_each_seq_invariant
           (encoded_prefix familyid appstartaddr0 file_content
              ((length file_content + 255) / 256))) in E; [exact E| |].
  - split; [reflexivity|]. intros j blk Hj. discriminate.
  - intros k s s' _. apply encoded_prefix_step.
Qed.

Lemma numblocks_pos (file_content : list byte) :
  file_content ≠ [] → (0 < (length file_content + 255) / 256)%nat.
Proof.
  intros H. destruct file_content; [contradiction|]. cbn [length].
  apply Nat.div_str_pos. lia.
Qed.

(** X10: what [convert_to_uf2] writes.  The output has one 512-byte block
    per 256 bytes of input (the last chunk rounded up); block [k] holds the
    two start magics, the flags (0x2000 when a family is set), the address
    [appstartaddr + 256 k], the payload size 256, [k], the block count and
    the family ID, then the chunk padded with zeros to 256 bytes, 220 zero
    bytes and the end magic; a non-empty output is recognised by
    [is_uf2]. *)
Theorem convert_to_uf2_layout
    (familyid appstartaddr0 : Z) (file_content out : list byte) :
  convert_to_uf2 familyid appstartaddr0 file_content = Ok out →
  let n := ((length file_content + 255) / 256)%nat in
  length out = (512 * n)%nat
  ∧ (file_content ≠ [] → is_uf2 out = Ok true)
  ∧ ∀ k, (k < n)%nat →
      block_hd out k
      = Ok (Header UF2_MAGIC_START0 UF2_MAGIC_START1 (family_flags familyid)
                   (Z.of_nat (256 * k) + appstartaddr0) 256
                   (Z.of_nat k) (Z.of_nat n) familyid)
      ∧ slice (nth_block out k) 32 288
        = slice file_content (256 * k) (256 * k + 256)
          ++ replicate
               (256 - length (slice file_content (256 * k) (256 * k + 256)))
               x00
      ∧ slice (nth_block out k) 288 508 = replicate 220 x00
      ∧ slice (nth_block out k) 508 512 = [x30; x6f; xb1; x0a].
Proof.
  intros H n. apply convert_to_uf2_blocks in H as (bl & -> & Hlen & Hall).
  fold n in Hlen, Hall.
  assert (H512 : Forall (fun b => length b = 512%nat) bl).
  { apply Forall_lookup. intros j b Hj. apply (Hall j b Hj). }
  split; [rewrite concat_blocks_length by exact H512; lia|].
  split.
  - intros Hne. pose proof (numblocks_pos file_content Hne) as Hpos.
    fold n in Hpos.
    destruct (lookup_lt_is_Some_2 bl 0 ltac:(lia)) as [b Hb].
    destruct (Hall 0%nat b Hb) as (Hl & Hmag & _).
    apply is_uf2_true_iff.
    destruct bl as [|b' bl']; [discriminate|]. injection Hb as ->.
    cbn [concat]. rewrite take_app_le by lia. exact Hmag.
  - intros k Hk.
    destruct (lookup_lt_is_Some_2 bl k ltac:(lia)) as [b Hb].
    destruct (Hall k b Hb) as (_ & _ & Hhd & Hpay & Hpad & Hend).
    unfold block_hd. rewrite (nth_block_concat bl k b H512 Hb). auto.
Qed.

Lemma convert_to_uf2_layout_witness :
  let out := concat [mk_block 0 0x2000 256 0 1 0 [x01; x02; x03]] in
  let n := ((length [x01; x02; x03] + 255) / 256)%nat in
  length out = (512 * n)%nat
  ∧ ([x01; x02; x03] ≠ [] → is_uf2 out = Ok true)
  ∧ ∀ k, (k < n)%nat →
      block_hd out k
      = Ok (Header UF2_MAGIC_START0 UF2_MAGIC_START1 (family_flags 0)
                   (Z.of_nat (256 * k) + 0x2000) 256
                   (Z.of_nat k) (Z.of_nat n) 0)
      ∧ slice (nth_block out k) 32 288
        = slice [x01; x02; x03] (256 * k) (256 * k + 256)
          ++ replicate
               (256 - length (slice [x01; x02; x03] (256 * k) (256 * k + 256)))
               x00
      ∧ slice (nth_block out k) 288 508 = replicate 220 x00
      ∧ slice (nth_block out k) 508 512 = [x30; x6f; xb1; x0a].
Proof.
  apply (convert_to_uf2_layout 0 0x2000 [x01; x02; x03]).
  vm_compute. reflexivity.
Defined.

(** X11: when [convert_to_uf2] fails.  For the empty input it returns the
    empty output whatever the family ID and the base address; otherwise it
    returns exactly when the family ID is in 0..2^32-1, the base address is
    not negative and the address of the last block, [appstartaddr + 256 (n
    - 1)], is below 2^32, and raises [struct.error] when not. *)
Theorem convert_to_uf2_succeeds_iff
    (familyid appstartaddr0 : Z) (file_content : list byte) :
  let n := ((length file_content + 255) / 256)%nat in
  let fits :=
    0 <= familyid < 2 ^ 32 ∧ 0 <= appstartaddr0
    ∧ appstartaddr0 + 256 * (Z.of_nat n - 1) < 2 ^ 32 in
  convert_to_uf2 familyid appstartaddr0 [] = Ok []
  ∧ (file_content ≠ [] → fits →
     ∃ out, convert_to_uf2 familyid appstartaddr0 file_content = Ok out)
  ∧ (file_content ≠ [] → ¬ fits →
     convert_to_uf2 familyid appstartaddr0 file_content = Raise StructError).
Proof.
  intros n fits. split; [reflexivity|].
  assert (Hfit_all : fits → ∀ k, (k < n)%nat →
                     fields_fit familyid appstartaddr0 n k).
  { intros (Hf & Hb & Hl) k Hk. unfold fields_fit.
    pose proof (family_flags_range familyid).
    repeat constructor; unfold UF2_MAGIC_START0, UF2_MAGIC_START1; try lia. }
  split.
  - intros _ Hfits. unfold convert_to_uf2. fold n.
    assert (Hrun : ∀ k, (k <= n)%nat →
              ∃ bl, for_each (to_uf2_body familyid appstartaddr0 file_content n)
                             (seq 0 k) [] = Ok bl).
    { induction k as [|k IH]; intros Hk; [eexists; reflexivity|].
      destruct IH as [bl Hbl]; [lia|].
      rewrite for_each_snoc, Hbl. cbn [mbind result_bind].
      destruct (to_uf2_body_cases familyid appstartaddr0 file_content n k bl)
        as [(_ & blk & E & _)|[Hno _]]; [eauto|].
      exfalso. apply Hno, Hfit_all; [exact Hfits|lia]. }
    destruct (Hrun n ltac:(lia)) as [bl ->]. eexists. reflexivity.
  - intros Hne Hno.
    pose proof (numblocks_pos file_content Hne) as Hpos. fold n in Hpos.
    unfold convert_to_uf2. fold n.
    destruct (for_each (to_uf2_body familyid appstartaddr0 file_content n)
                       (seq 0 n) []) as [bl|e] eqn:E.
    + exfalso. apply Hno.
      assert (Hfits : ∀ k, (k < n)%nat → fields_fit familyid appstartaddr0 n k).
      { intros k Hk.
        destruct (for_each_Ok_all _ _ _ _ E k) as (s1 & s2 & Hb);
          [apply in_seq; lia|].
        destruct (to_uf2_body_cases familyid appstartaddr0 file_content n k s1)
          as [[Hfit _]|[_ E']]; [exact Hfit|congruence]. }
      pose proof (Hfits 0%nat Hpos) as H0.
      pose proof (Hfits (n - 1)%nat ltac:(lia)) as H1.
      unfold fields_fit in H0, H1.
      apply Forall_cons in H0 as [_ H0]. apply Forall_cons in H0 as [_ H0].
      apply Forall_cons in H0 as [_ H0]. apply Forall_cons in H0 as [Ha0 H0].
      apply Forall_cons in H0 as [_ H0]. apply Forall_cons in H0 as [_ H0].
      apply Forall_cons in H0 as [_ H0]. apply Forall_cons in H0 as [Hf0 _].
      apply Forall_cons in H1 as [_ H1]. apply Forall_cons in H1 as [_ H1].
      apply Forall_cons in H1 as [_ H1]. apply Forall_cons in H1 as [Ha1 _].
      unfold fits. lia.
    + cbn [mbind result_bind].
      apply for_each_Raise in E as (k & s1 & _ & Hb).
      destruct (to_uf2_body_cases familyid appstartaddr0 file_content n k s1)
        as [(_ & blk & E' & _)|[_ E']]; congruence.
Qed.

(** ** The hex parser: line ends, checksums, end of file *)

Lemma split_lines_aux_app (l rest cur : str) :
  lf_free l = true →
  split_lines_aux (l ++ 10%N :: rest) cur
  = (cur ++ l) :: split_lines_aux rest [].
Proof.
  revert cur. induction l as [|c l IH]; intros cur Hl.
  - cbn [app split_lines_aux]. rewrite N.eqb_refl, app_nil_r. reflexivity.
  - cbn [app split_lines_aux]. cbn [lf_free forallb] in Hl.
    apply andb_true_iff in Hl as [Hc Hl]. apply negb_true_iff in Hc.
    rewrite Hc, IH by exact Hl. rewrite <- app_assoc. reflexivity.
Qed.

(** [(line + "\n" + rest).split("\n")] *)
Lemma split_lines_cons (line rest : str) :
  lf_free line = true →
  split_lines (line ++ 10%N :: rest) = line :: split_lines rest.
Proof. intros H. unfold split_lines. apply (split_lines_aux_app line rest [] H). Qed.

Lemma lf_free_app (l1 l2 : str) :
  lf_free l1 = true → lf_free l2 = true → lf_free (l1 ++ l2) = true.
Proof. unfold lf_free. intros H1 H2. rewrite forallb_app, H1, H2. reflexivity. Qed.

Lemma split_lines_unlines (eol : str) (lines : list str) (rest : str) :
  forallb lf_free lines = true → lf_free eol = true →
  split_lines (unlines (eol ++ [10%N]) lines ++ rest)
  = map (fun l => l ++ eol) lines ++ split_lines rest.
Proof.
  intros Hl He. induction lines as [|l lines IH]; [reflexivity|].
  cbn [forallb] in Hl. apply andb_true_iff in Hl as [Hl Hls].
  unfold unlines in *. cbn [map concat].
  rewrite <- !app_assoc. cbn [app].
  rewrite (app_assoc l eol), split_lines_cons by (apply lf_free_app; assumption).
  cbn [app]. f_equal. exact (IH Hls).
Qed.

Lemma record_lines_inv (lines : list str) :
  record_lines lines = true →
  forallb lf_free lines = true
  ∧ Forall (fun l => Nat.Odd (length l)) lines.
Proof.
  unfold record_lines. induction lines as [|l lines IH]; intros H.
  - split; [reflexivity|constructor].
  - cbn [forallb] in H. apply andb_true_iff in H as [Hl H].
    apply andb_true_iff in Hl as [Hlf Hodd].
    destruct (IH H) as [IH1 IH2]. split.
    + cbn [forallb]. rewrite Hlf, IH1. reflexivity.
    + constructor; [apply Nat.odd_spec; exact Hodd|exact IH2].
Qed.

Section Hex_lines.
Context {U : unicode_db}.

Lemma parse_rec_fuel (f1 f2 : nat) (line : str) (i : nat) (rec : list Z) :
  (length line - i <= f1)%nat → (length line - i <= f2)%nat →
  parse_rec f1 line i rec = parse_rec f2 line i rec.
Proof.
  revert f2 i rec. induction f1 as [|f1 IH]; intros f2 i rec H1 H2.
  - destruct f2 as [|f2]; [reflexivity|]. cbn [parse_rec].
    destruct (Z.of_nat i <? Z.of_nat (length line) - 1) eqn:E; [lia|].
    reflexivity.
  - destruct f2 as [|f2]; cbn [parse_rec].
    + destruct (Z.of_nat i <? Z.of_nat (length line) - 1) eqn:E; [lia|].
      reflexivity.
    + destruct (Z.of_nat i <? Z.of_nat (length line) - 1) eqn:E;
        [|reflexivity].
      destruct (py_int (slice line i (i + 2)) 16); [|reflexivity].
      cbn [mbind result_bind]. apply IH; lia.
Qed.

(** one more character after a line of odd length is never read *)
Lemma parse_rec_trailing (fuel : nat) (line : str) (c : N) (i : nat)
    (rec : list Z) :
  (i <= length line)%nat → Nat.Even (length line - i) →
  parse_rec fuel (line ++ [c]) i rec = parse_rec fuel line i rec.
Proof.
  revert i rec. induction fuel as [|fuel IH]; intros i rec Hi Hev;
    [reflexivity|].
  cbn [parse_rec]. rewrite length_app. cbn [length].
  destruct Hev as [m Hm].
  destruct (Z.of_nat i <? Z.of_nat (length line) - 1) eqn:E.
  - assert ((Z.of_nat i <? Z.of_nat (length line + 1) - 1) = true) as ->
      by (apply Z.ltb_lt; lia).
    rewrite slice_app_l by lia.
    destruct (py_int (slice line i (i + 2)) 16); [|reflexivity].
    cbn [mbind result_bind]. apply IH; [lia|].
    exists (m - 1)%nat. lia.
  - assert ((Z.of_nat i <? Z.of_nat (length line + 1) - 1) = false) as ->
      by (apply Z.ltb_ge; lia).
    reflexivity.
Qed.

Lemma hex_line_trailing (line : str) (c : N) (st : hstate) :
  Nat.Odd (length line) →
  hex_line (line ++ [c]) st = hex_line line st.
Proof.
  intros [m Hm]. unfold hex_line.
  assert (Hidx : index (line ++ [c]) 0 = index line 0).
  { destruct line; [cbn in Hm; lia|reflexivity]. }
  rewrite Hidx.
  rewrite (parse_rec_fuel (length (line ++ [c])) (length line) (line ++ [c]))
    by (rewrite !length_app; cbn [length]; lia).
  rewrite parse_rec_trailing; [reflexivity|lia|].
  exists m. lia.
Qed.

Lemma hex_lines_trailing (lines tail : list str) (c : N) (st : hstate) :
  Forall (fun l => Nat.Odd (length l)) lines →
  hex_lines (map (fun l => l ++ [c]) lines ++ tail) st
  = hex_lines (lines ++ tail) st.
Proof.
  intros H. revert st. induction H as [|l lines Hl _ IH]; intros st;
    [reflexivity|].
  cbn [map app hex_lines]. rewrite hex_line_trailing by exact Hl.
  destruct (hex_line l st) as [[brk st']|]; [|reflexivity].
  cbn [mbind result_bind]. destruct brk; [reflexivity|]. apply IH.
Qed.

(** X12: carriage returns before the line feeds make no difference: a hex
    text whose lines (a colon followed by pairs of digits, so of odd
    length) end in CR LF converts to the same result, or raises the same
    exception, as the text with LF line ends. *)
Theorem convert_from_hex_to_uf2_crlf (familyid : Z) (lines : list str) :
  record_lines lines = true →
  convert_from_hex_to_uf2 familyid (unlines [13%N; 10%N] lines)
  = convert_from_hex_to_uf2 familyid (unlines [10%N] lines).
Proof.
  intros H. apply record_lines_inv in H as [Hlf Hodd].
  unfold convert_from_hex_to_uf2.
  pose proof (split_lines_unlines [13%N] lines [] Hlf) as H1.
  pose proof (split_lines_unlines [] lines [] Hlf) as H2.
  rewrite app_nil_r in H1, H2. cbn [app] in H1, H2.
  rewrite H1, H2 by reflexivity.
  rewrite hex_lines_trailing by exact Hodd.
  assert (Hid : ∀ ls : list (list N), map (fun l => l ++ []) ls = ls).
  { induction ls as [|l ls IH]; [reflexivity|].
    cbn [map]. rewrite app_nil_r, IH. reflexivity. }
  rewrite Hid. reflexivity.
Qed.

Lemma parse_rec_length (fuel : nat) (line : str) (i : nat) (rec r : list Z) :
  (i <= length line)%nat → Nat.Even (length line - i) →
  (length line - i <= fuel)%nat →
  parse_rec fuel line i rec = Ok r →
  (2 * length r = 2 * length rec + (length line - i))%nat.
Proof.
  revert i rec. induction fuel as [|fuel IH]; intros i rec Hi [m Hm] Hf H.
  - apply Ok_inj in H. subst r. lia.
  - cbn [parse_rec] in H.
    destruct (Z.of_nat i <? Z.of_nat (length line) - 1) eqn:E.
    + destruct (py_int (slice line i (i + 2)) 16) as [v|]; [|discriminate].
      cbn [mbind result_bind] in H.
      apply IH in H; [|lia|exists (m - 1)%nat; lia|lia].
      rewrite length_app in H. cbn [length] in H. lia.
    + apply Ok_inj in H. subst r. lia.
Qed.

(** the last pair of digits of a line is parsed after all the others *)
Lemma parse_rec_last_pair (fuel : nat) (line cs : str) (i : nat)
    (rec : list Z) :
  length cs = 2%nat →
  (i <= length line)%nat → Nat.Even (length line - i) →
  (length line + 2 - i <= fuel)%nat →
  parse_rec fuel (line ++ cs) i rec
  = (r ← parse_rec fuel line i rec; v ← py_int cs 16; Ok (r ++ [v])).
Proof.
  intros Hcs. revert i rec.
  induction fuel as [|fuel IH]; intros i rec Hi [m Hm] Hf; [lia|].
  cbn [parse_rec]. rewrite length_app, Hcs.
  assert ((Z.of_nat i <? Z.of_nat (length line + 2) - 1) = true) as ->
    by (apply Z.ltb_lt; lia).
  destruct (Z.of_nat i <? Z.of_nat (length line) - 1) eqn:E.
  - rewrite slice_app_l by lia.
    destruct (py_int (slice line i (i + 2)) 16) as [w|]; [|reflexivity].
    cbn [mbind result_bind]. apply IH; [lia|exists (m - 1)%nat; lia|lia].
  - assert (i = length line) as -> by lia.
    cbn [mbind result_bind].
    assert (slice (line ++ cs) (length line) (length line + 2) = cs) as ->.
    { unfold slice. rewrite drop_app_length.
      replace (length line + 2 - length line)%nat with 2%nat by lia.
      apply take_ge. lia. }
    destruct (py_int cs 16) as [v|]; [|reflexivity].
    cbn [mbind result_bind].
    destruct fuel as [|fuel]; [reflexivity|]. cbn [parse_rec].
    rewrite length_app, Hcs.
    assert ((Z.of_nat (length line + 2)
             <? Z.of_nat (length line + 2) - 1) = false) as ->
      by (apply Z.ltb_ge; lia).
    reflexivity.
Qed.

Lemma index_app_l {A} (l k : list A) (i : nat) :
  (i < length l)%nat → index (l ++ k) i = index l i.
Proof. intros H. unfold index. rewrite lookup_app_l by exact H. reflexivity. Qed.

Lemma index_short {A} (l : list A) (i : nat) :
  (length l <= i)%nat → index l i = Raise IndexError.
Proof. intros H. unfold index. rewrite lookup_ge_None_2 by exact H. reflexivity. Qed.

Lemma hex_line_checksum (line cs cs' : str) (v v' : Z) (st : hstate) :
  Nat.Odd (length line) → (9 <= length line)%nat → length line ≠ 11%nat →
  length cs = 2%nat → length cs' = 2%nat →
  py_int cs 16 = Ok v → py_int cs' 16 = Ok v' →
  hex_line (line ++ cs) st = hex_line (line ++ cs') st.
Proof.
  intros [m Hm] H9 H11 Hcs Hcs' Hv Hv'. unfold hex_line.
  assert (Hidx : ∀ t, index (line ++ t) 0 = index line 0).
  { intros t. apply index_app_l. lia. }
  rewrite !Hidx. destruct (index line 0) as [c0|]; [|reflexivity].
  cbn [mbind result_bind].
  destruct (negb (c0 =? chr ":")%N); [reflexivity|].
  rewrite !parse_rec_last_pair
    by first [assumption | lia | exists m; lia
             | rewrite length_app; lia].
  rewrite (parse_rec_fuel (length (line ++ cs)) (length line) line)
    by (rewrite ?length_app; lia).
  rewrite (parse_rec_fuel (length (line ++ cs')) (length line) line)
    by (rewrite ?length_app; lia).
  destruct (parse_rec (length line) line 1 []) as [rec0|] eqn:Erec;
    [|reflexivity].
  cbn [mbind result_bind]. rewrite Hv, Hv'. cbn [mbind result_bind].
  apply parse_rec_length in Erec; [|lia|exists m; lia|lia].
  cbn [length] in Erec.
  assert (Hlen : (4 <= length rec0)%nat ∧ length rec0 ≠ 5%nat) by lia.
  destruct Hlen as [H4 H5].
  rewrite !(index_app_l rec0 _ 3) by lia.
  destruct (index rec0 3) as [tp|]; [|reflexivity].
  cbn [mbind result_bind].
  assert (Hext : ∀ (k : Z → Z → result (bool * hstate)),
            (r4 ← index (rec0 ++ [v]) 4; r5 ← index (rec0 ++ [v]) 5; k r4 r5)
            = (r4 ← index (rec0 ++ [v']) 4; r5 ← index (rec0 ++ [v']) 5;
               k r4 r5)).
  { intros k. destruct (Nat.eq_dec (length rec0) 4%nat) as [E4|N4].
    - rewrite !(index_short (rec0 ++ _) 5) by (rewrite length_app; cbn; lia).
      unfold index. rewrite !lookup_app_r by lia. rewrite E4. reflexivity.
    - rewrite !(index_app_l rec0) by lia. reflexivity. }
  destruct (tp =? 4); [apply Hext|].
  destruct (tp =? 2); [apply Hext|].
  destruct (tp =? 1); [reflexivity|].
  destruct (tp =? 0); [|reflexivity].
  rewrite !(index_app_l rec0 _ 1), !(index_app_l rec0 _ 2) by lia.
  destruct (index rec0 1) as [r1|]; [|reflexivity].
  cbn [mbind result_bind].
  destruct (index rec0 2) as [r2|]; [|reflexivity].
  cbn [mbind result_bind].
  rewrite !data_loop_put_bytes by lia.
  rewrite !length_app. cbn [length].
  replace (length rec0 + 1 - 1)%nat with (length rec0) by lia.
  rewrite !slice_app_l by lia. reflexivity.
Qed.

Lemma hex_lines_replace (before after : list str) (l l' : str) :
  (∀ st, hex_line l st = hex_line l' st) →
  ∀ st, hex_lines (before ++ l :: after) st
        = hex_lines (before ++ l' :: after) st.
Proof.
  intros H. induction before as [|b before IH]; intros st.
  - cbn [app hex_lines]. rewrite H. reflexivity.
  - cbn [app hex_lines]. destruct (hex_line b st) as [[brk st']|];
      [|reflexivity].
    cbn [mbind result_bind]. destruct brk; [reflexivity|]. apply IH.
Qed.

(** X13: the checksum of a record is never verified.  Replacing the last
    two digits of any record line that has a complete header (at least the
    colon and eight digits before the checksum, and not exactly ten) by
    any other two digits gives the same result or the same exception. *)
Theorem convert_from_hex_to_uf2_ignores_checksum
    (familyid : Z) (before after : list str) (line cs cs' : str) (v v' : Z) :
  forallb lf_free (before ++ [line ++ cs; line ++ cs'] ++ after) = true →
  Nat.odd (length line) = true →
  (9 <= length line)%nat → length line ≠ 11%nat →
  length cs = 2%nat → length cs' = 2%nat →
  py_int cs 16 = Ok v → py_int cs' 16 = Ok v' →
  convert_from_hex_to_uf2 familyid
    (unlines [10%N] (before ++ (line ++ cs) :: after))
  = convert_from_hex_to_uf2 familyid
      (unlines [10%N] (before ++ (line ++ cs') :: after)).
Proof.
  intros Hlf Hodd H9 H11 Hcs Hcs' Hv Hv'.
  apply Nat.odd_spec in Hodd.
  rewrite !forallb_app in Hlf. cbn [forallb] in Hlf.
  apply andb_true_iff in Hlf as [Hb Hlf].
  apply andb_true_iff in Hlf as [Hlf Ha].
  apply andb_true_iff in Hlf as [Hl Hlf].
  apply andb_true_iff in Hlf as [Hl' _].
  unfold convert_from_hex_to_uf2.
  pose proof (split_lines_unlines [] (before ++ (line ++ cs) :: after) []) as H1.
  pose proof (split_lines_unlines [] (before ++ (line ++ cs') :: after) [])
    as H2.
  rewrite app_nil_r in H1, H2. cbn [app] in H1, H2.
  assert (Hid : ∀ ls : list (list N), map (fun l => l ++ []) ls = ls).
  { induction ls as [|l ls IH]; [reflexivity|].
    cbn [map]. rewrite app_nil_r, IH. reflexivity. }
  rewrite Hid in H1, H2.
  assert (F1 : forallb lf_free (before ++ (line ++ cs) :: after) = true).
  { rewrite forallb_app. apply andb_true_iff. split; [exact Hb|].
    change (lf_free (line ++ cs) && forallb lf_free after = true).
    rewrite Hl. exact Ha. }
  assert (F2 : forallb lf_free (before ++ (line ++ cs') :: after) = true).
  { rewrite forallb_app. apply andb_true_iff. split; [exact Hb|].
    change (lf_free (line ++ cs') && forallb lf_free after = true).
    rewrite Hl'. exact Ha. }
  rewrite (H1 F1 eq_refl), (H2 F2 eq_refl).
  rewrite <- !app_assoc. cbn [app].
  rewrite (hex_lines_replace before (after ++ split_lines [])
             (line ++ cs) (line ++ cs')); [reflexivity|].
  intros st. apply (hex_line_checksum line cs cs' v v'); assumption.
Qed.

Lemma hex_line_eof (line : str) (st : hstate) :
  record_type line = Ok (Some 1) → hex_line line st = Ok (true, st).
Proof.
  unfold record_type, hex_line. intros H.
  destruct (index line 0) as [c0|]; [|discriminate].
  cbn [mbind result_bind] in *.
  destruct (negb (c0 =? chr ":")%N); [discriminate|].
  destruct (parse_rec (length line) line 1 []) as [rec|]; [|discriminate].
  cbn [mbind result_bind] in *.
  destruct (index rec 3) as [tp|]; [|discriminate].
  cbn [mbind result_bind] in *. apply Ok_inj in H. injection H as ->.
  reflexivity.
Qed.

Lemma hex_line_break (line : str) (st st' : hstate) :
  hex_line line st = Ok (true, st') → record_type line = Ok (Some 1).
Proof.
  unfold record_type, hex_line. intros H.
  destruct (index line 0) as [c0|]; [|discriminate].
  cbn [mbind result_bind] in *.
  destruct (negb (c0 =? chr ":")%N); [discriminate|].
  destruct (parse_rec (length line) line 1 []) as [rec|]; [|discriminate].
  cbn [mbind result_bind] in *.
  destruct (index rec 3) as [tp|]; [|discriminate].
  cbn [mbind result_bind] in *.
  destruct (tp =? 4).
  { destruct (index rec 4); [|discriminate]. cbn [mbind result_bind] in H.
    destruct (index rec 5); discriminate. }
  destruct (tp =? 2).
  { destruct (index rec 4); [|discriminate]. cbn [mbind result_bind] in H.
    destruct (index rec 5); discriminate. }
  destruct (tp =? 1) eqn:E1.
  { apply Z.eqb_eq in E1. subst tp. reflexivity. }
  destruct (tp =? 0); [|discriminate].
  destruct (index rec 1); [|discriminate]. cbn [mbind result_bind] in H.
  destruct (index rec 2); [|discriminate]. cbn [mbind result_bind] in H.
  destruct (data_loop _ _ _ _ _); discriminate.
Qed.

Lemma hex_lines_stop (before after : list str) (line : str) (st : hstate) :
  record_type line = Ok (Some 1) →
  hex_lines (before ++ line :: after) st = hex_lines (before ++ [line]) st.
Proof.
  intros H. revert st. induction before as [|b before IH]; intros st.
  - cbn [app hex_lines]. rewrite (hex_line_eof line st H). reflexivity.
  - cbn [app hex_lines]. destruct (hex_line b st) as [[brk st']|];
      [|reflexivity].
    cbn [mbind result_bind]. destruct brk; [reflexivity|]. apply IH.
Qed.

(** X14: the parse stops at the first end-of-file record (record type
    01): whatever text follows the line of that record, well-formed or
    not, has no influence on the result. *)
Theorem convert_from_hex_to_uf2_stops_at_eof
    (familyid : Z) (before : list str) (eof rest : str) :
  forallb lf_free (before ++ [eof]) = true →
  record_type eof = Ok (Some 1) →
  convert_from_hex_to_uf2 familyid (unlines [10%N] (before ++ [eof]) ++ rest)
  = convert_from_hex_to_uf2 familyid (unlines [10%N] (before ++ [eof])).
Proof.
  intros Hlf Heof. unfold convert_from_hex_to_uf2.
  pose proof (split_lines_unlines [] (before ++ [eof]) rest Hlf eq_refl) as H1.
  pose proof (split_lines_unlines [] (before ++ [eof]) [] Hlf eq_refl) as H2.
  rewrite app_nil_r in H2. cbn [app] in H1, H2.
  assert (Hid : ∀ ls : list (list N), map (fun l => l ++ []) ls = ls).
  { induction ls as [|l ls IH]; [reflexivity|].
    cbn [map]. rewrite app_nil_r, IH. reflexivity. }
  rewrite Hid in H1, H2. rewrite H1, H2.
  rewrite <- !app_assoc. cbn [app].
  rewrite (hex_lines_stop before (split_lines rest) eof _ Heof).
  rewrite (hex_lines_stop before (split_lines []) eof _ Heof).
  reflexivity.
Qed.

Lemma hex_lines_needs_eof (lines : list str) (st st' : hstate) :
  hex_lines (lines ++ [[]]) st = Ok st' →
  ∃ line, In line lines ∧ record_type line = Ok (Some 1).
Proof.
  revert st. induction lines as [|l lines IH]; intros st H.
  - cbn in H. discriminate.
  - cbn [app hex_lines] in H.
    destruct (hex_line l st) as [[brk st1]|] eqn:E; [|discriminate].
    cbn [mbind result_bind] in H. destruct brk.
    + exists l. split; [left; reflexivity|].
      exact (hex_line_break l st st1 E).
    + destruct (IH st1 H) as (line & Hin & Ht).
      exists line. split; [right; exact Hin|exact Ht].
Qed.

(** X15: a hex text in which every line ends with a line feed converts
    only if it holds an end-of-file record: without one the parser reaches
    the empty string after the last line feed and raises [IndexError] on
    [line[0]] (unless an earlier line has raised already). *)
Theorem convert_from_hex_to_uf2_needs_eof
    (familyid : Z) (lines : list str) (out : list byte) (start : option Z) :
  forallb lf_free lines = true →
  convert_from_hex_to_uf2 familyid (unlines [10%N] lines) = Ok (out, start) →
  ∃ line, In line lines ∧ record_type line = Ok (Some 1).
Proof.
  intros Hlf H. unfold convert_from_hex_to_uf2 in H.
  pose proof (split_lines_unlines [] lines [] Hlf eq_refl) as H1.
  rewrite app_nil_r in H1. cbn [app] in H1.
  assert (Hid : ∀ ls : list (list N), map (fun l => l ++ []) ls = ls).
  { induction ls as [|l ls IH]; [reflexivity|].
    cbn [map]. rewrite app_nil_r, IH. reflexivity. }
  rewrite Hid in H1. rewrite H1 in H.
  destruct (hex_lines _ hstate_init) as [st|] eqn:E; [|discriminate].
  exact (hex_lines_needs_eof lines _ _ E).
Qed.

End Hex_lines.

Lemma convert_from_hex_to_uf2_crlf_witness :
  convert_from_hex_to_uf2 (U := ascii_db) 0 (unlines [13%N; 10%N] hex_sample_lines)
  = convert_from_hex_to_uf2 (U := ascii_db) 0 hex_sample.
Proof.
  apply (convert_from_hex_to_uf2_crlf (U := ascii_db) 0 hex_sample_lines).
  reflexivity.
Defined.

Lemma convert_from_hex_to_uf2_ignores_checksum_witness :
  convert_from_hex_to_uf2 (U := ascii_db) 0 hex_sample
  = convert_from_hex_to_uf2 (U := ascii_db) 0
      (unlines [10%N]
         ([str_of_string ":0201100001020A"]
          ++ (str_of_string ":020100000304" ++ str_of_string "00")
          :: [str_of_string ":02000000050603";
              str_of_string ":02012000070800";
              str_of_string ":00000001FF"])).
Proof.
  apply (convert_from_hex_to_uf2_ignores_checksum (U := ascii_db) 0
           [str_of_string ":0201100001020A"]
           [str_of_string ":02000000050603"; str_of_string ":02012000070800";
            str_of_string ":00000001FF"]
           (str_of_string ":020100000304") (str_of_string "F6")
           (str_of_string "00") 0xF6 0);
    first [reflexivity | vm_compute; lia | vm_compute; discriminate].
Defined.

Lemma convert_from_hex_to_uf2_stops_at_eof_witness :
  convert_from_hex_to_uf2 (U := ascii_db) 0
    (hex_sample ++ str_of_string "not a record")
  = convert_from_hex_to_uf2 (U := ascii_db) 0 hex_sample.
Proof.
  apply (convert_from_hex_to_uf2_stops_at_eof (U := ascii_db) 0
           [str_of_string ":0201100001020A"; str_of_string ":020100000304F6";
            str_of_string ":02000000050603"; str_of_string ":02012000070800"]
           eof_record (str_of_string "not a record")); reflexivity.
Defined.

Lemma convert_from_hex_to_uf2_needs_eof_witness :
  ∃ line, In line hex_sample_lines
          ∧ record_type (U := ascii_db) line = Ok (Some 1).
Proof.
  apply (convert_from_hex_to_uf2_needs_eof (U := ascii_db) 0 hex_sample_lines
           hex_sample_out (Some 0x110)).
  - reflexivity.
  - vm_compute. reflexivity.
Defined.

(** ** The hex converter: where the data bytes go *)

Lemma put_byte_store (a v : Z) (s1 s2 t1 : hstate) :
  blocks s1 = blocks s2 → currblock s1 = currblock s2 →
  put_byte a v s1 = Ok t1 →
  ∃ t2, put_byte a v s2 = Ok t2
        ∧ blocks t1 = blocks t2 ∧ currblock t1 = currblock t2.
Proof.
  destruct s1 as [h1 u1 c1 bl1], s2 as [h2 u2 c2 bl2].
  cbn [blocks currblock]. intros <- <-.
  unfold put_byte, needs_new_block. cbn [blocks currblock h_appstartaddr upper].
  destruct (match c1 with
            | Some k => b ← index bl1 k; Ok (negb (align256 (addr b) =? align256 a))
            | None => Ok true
            end) as [fresh|]; [|discriminate].
  cbn [mbind result_bind]. destruct fresh; cbn [currblock blocks].
  - destruct (index _ _) as [b|]; [|discriminate]. cbn [mbind result_bind].
    destruct (bytearray_set _ _ _) as [bs|]; [|discriminate].
    cbn [mbind result_bind h_appstartaddr upper currblock blocks].
    intros H. apply Ok_inj in H. subst t1. eexists. split; [reflexivity|].
    split; reflexivity.
  - destruct c1 as [k|]; [|discriminate].
    destruct (index _ _) as [b|]; [|discriminate]. cbn [mbind result_bind].
    destruct (bytearray_set _ _ _) as [bs|]; [|discriminate].
    cbn [mbind result_bind h_appstartaddr upper currblock blocks].
    intros H. apply Ok_inj in H. subst t1. eexists. split; [reflexivity|].
    split; reflexivity.
Qed.

Lemma put_bytes_store (ws : list (Z * Z)) (s1 s2 t1 : hstate) :
  blocks s1 = blocks s2 → currblock s1 = currblock s2 →
  put_bytes ws s1 = Ok t1 →
  ∃ t2, put_bytes ws s2 = Ok t2
        ∧ blocks t1 = blocks t2 ∧ currblock t1 = currblock t2.
Proof.
  revert s1 s2. induction ws as [|[a v] ws IH]; intros s1 s2 Hb Hc H.
  - apply Ok_inj in H. subst t1. exists s2. auto.
  - cbn [put_bytes] in *.
    destruct (put_byte a v s1) as [m1|] eqn:E1; [|discriminate].
    cbn [mbind result_bind] in H.
    destruct (put_byte_store a v s1 s2 m1 Hb Hc E1) as (m2 & E2 & Hb' & Hc').
    rewrite E2. cbn [mbind result_bind]. exact (IH m1 m2 Hb' Hc' H).
Qed.

Lemma put_bytes_app (w1 w2 : list (Z * Z)) (st : hstate) :
  put_bytes (w1 ++ w2) st = (st' ← put_bytes w1 st; put_bytes w2 st').
Proof.
  revert st. induction w1 as [|[a v] w1 IH]; intros st; [reflexivity|].
  cbn [app put_bytes]. destruct (put_byte a v st); [|reflexivity].
  cbn [mbind result_bind]. apply IH.
Qed.

Lemma put_byte_fields (a v : Z) (st st' : hstate) :
  put_byte a v st = Ok st' →
  h_appstartaddr st' = h_appstartaddr st ∧ upper st' = upper st.
Proof.
  unfold put_byte. intros H.
  destruct (needs_new_block a st) as [fresh|]; [|discriminate].
  cbn [mbind result_bind] in H.
  destruct fresh; cbn [currblock blocks] in H.
  - destruct (index _ _); [|discriminate]. cbn [mbind result_bind] in H.
    destruct (bytearray_set _ _ _); [|discriminate].
    cbn [mbind result_bind] in H. apply Ok_inj in H. subst st'.
    split; reflexivity.
  - destruct (currblock st); [|discriminate].
    destruct (index _ _); [|discriminate]. cbn [mbind result_bind] in H.
    destruct (bytearray_set _ _ _); [|discriminate].
    cbn [mbind result_bind] in H. apply Ok_inj in H. subst st'.
    split; reflexivity.
Qed.

Lemma put_bytes_fields (ws : list (Z * Z)) (st st' : hstate) :
  put_bytes ws st = Ok st' →
  h_appstartaddr st' = h_appstartaddr st ∧ upper st' = upper st.
Proof.
  revert st. induction ws as [|[a v] ws IH]; intros st H.
  - apply Ok_inj in H. subst st'. split; reflexivity.
  - cbn [put_bytes] in H.
    destruct (put_byte a v st) as [st1|] eqn:E; [|discriminate].
    cbn [mbind result_bind] in H.
    destruct (IH st1 H) as [-> ->]. exact (put_byte_fields a v st st1 E).
Qed.

Section Hex_store.
Context {U : unicode_db}.

(** the blocks that the parser builds are those that the block builder
    makes of the data bytes of the text *)
Lemma hex_lines_put_bytes (lines : list str) (st st' : hstate) :
  hex_lines lines st = Ok st' →
  ∃ ws st2,
    data_bytes_from (upper st) lines = Ok ws
    ∧ put_bytes ws st = Ok st2
    ∧ blocks st' = blocks st2 ∧ currblock st' = currblock st2.
Proof.
  revert st. induction lines as [|line lines IH]; intros st Hrun.
  - apply Ok_inj in Hrun. subst st'. exists [], st. auto.
  - cbn [hex_lines] in Hrun. unfold hex_line in Hrun.
    cbn [data_bytes_from].
    destruct (index line 0) as [c0|]; [|discriminate].
    cbn [mbind result_bind] in Hrun |- *.
    destruct (negb (c0 =? chr ":")%N).
    { cbn [mbind result_bind] in Hrun. exact (IH st Hrun). }
    destruct (parse_rec (length line) line 1 []) as [rec|]; [|discriminate].
    cbn [mbind result_bind] in Hrun |- *.
    destruct (index rec 3) as [tp|]; [|discriminate].
    cbn [mbind result_bind] in Hrun |- *.
    destruct (tp =? 4).
    { destruct (index rec 4) as [r4|]; [|discriminate].
      cbn [mbind result_bind] in Hrun |- *.
      destruct (index rec 5) as [r5|]; [|discriminate].
      cbn [mbind result_bind] in Hrun |- *.
      destruct (IH _ Hrun) as (ws & st2 & Hws & Hput & Hb & Hc).
      cbn [upper] in Hws.
      pose proof (fun E1 E2 => put_bytes_store ws _ st st2 E1 E2 Hput) as HH.
      destruct (HH eq_refl eq_refl) as (t2 & Hput' & Hb' & Hc').
      exists ws, t2. split; [exact Hws|]. split; [exact Hput'|].
      split; congruence. }
    destruct (tp =? 2).
    { destruct (index rec 4) as [r4|]; [|discriminate].
      cbn [mbind result_bind] in Hrun |- *.
      destruct (index rec 5) as [r5|]; [|discriminate].
      cbn [mbind result_bind] in Hrun |- *.
      destruct (IH _ Hrun) as (ws & st2 & Hws & Hput & Hb & Hc).
      cbn [upper] in Hws.
      pose proof (fun E1 E2 => put_bytes_store ws _ st st2 E1 E2 Hput) as HH.
      destruct (HH eq_refl eq_refl) as (t2 & Hput' & Hb' & Hc').
      exists ws, t2. split; [exact Hws|]. split; [exact Hput'|].
      split; congruence. }
    destruct (tp =? 1).
    { cbn [mbind result_bind] in Hrun. apply Ok_inj in Hrun.
      subst st'. exists [], st. auto. }
    destruct (tp =? 0).
    2:{ cbn [mbind result_bind] in Hrun. exact (IH st Hrun). }
    destruct (index rec 1) as [r1|]; [|discriminate].
    cbn [mbind result_bind] in Hrun |- *.
    destruct (index rec 2) as [r2|]; [|discriminate].
    cbn [mbind result_bind] in Hrun |- *.
    set (a := upper st + Z.lor (Z.shiftl r1 8) r2) in *.
    set (st1 := match h_appstartaddr st with
                | None => HState (Some a) (upper st) (currblock st) (blocks st)
                | Some _ => st
                end) in *.
    assert (Hst1 : blocks st1 = blocks st ∧ currblock st1 = currblock st
                   ∧ upper st1 = upper st).
    { subst st1. destruct (h_appstartaddr st); auto. }
    destruct Hst1 as (Hb1 & Hc1 & Hu1).
    rewrite data_loop_put_bytes in Hrun by lia.
    fold (record_bytes rec a) in Hrun.
    destruct (put_bytes (record_bytes rec a) st1) as [m1|] eqn:E1;
      [|discriminate].
    cbn [mbind result_bind] in Hrun.
    destruct (IH m1 Hrun) as (ws & st2 & Hws & Hput & Hb & Hc).
    assert (Hu : upper m1 = upper st).
    { destruct (put_bytes_fields _ _ _ E1) as [_ ->]. exact Hu1. }
    rewrite Hu in Hws. rewrite Hws. cbn [mbind result_bind].
    destruct (put_bytes_store _ st1 st m1 Hb1 Hc1 E1) as (n1 & F1 & Hb2 & Hc2).
    destruct (put_bytes_store ws m1 n1 st2 Hb2 Hc2 Hput)
      as (n2 & F2 & Hb3 & Hc3).
    exists (record_bytes rec a ++ ws), n2. split; [reflexivity|].
    split; [rewrite put_bytes_app, F1; exact F2|].
    split; congruence.
Qed.

End Hex_store.

Lemma landed_nil (bl : list Block) : landed [] bl.
Proof. intros ws1 a v ws2 H. destruct ws1; discriminate. Qed.

Lemma low_byte_inj (a a' : Z) :
  align256 a = align256 a' →
  Z.to_nat (Z.land a 0xff) = Z.to_nat (Z.land a' 0xff) → a = a'.
Proof.
  intros Hb Hl. pose proof (low_byte_range a). pose proof (low_byte_range a').
  rewrite (align_split a), (align_split a'). lia.
Qed.

Lemma put_byte_landed (a v : Z) (st st' : hstate) (W : list (Z * Z)) :
  hex_inv st → put_byte a v st = Ok st' →
  landed W (blocks st) → landed (W ++ [(a, v)]) (blocks st').
Proof.
  intros Hinv Hput HW.
  pose proof Hinv as [_ Hall].
  destruct (put_byte_ok a v st st' Hinv Hput)
    as (_ & _ & _ & front & b0 & Hcase & Hb0 & Hbl).
  assert (Hlen0 : length (bytes b0) = 256%nat).
  { destruct (opt_eqb (current_base st) (Some (align256 a))).
    - rewrite Hcase in Hall. apply Forall_app in Hall as [_ Hall].
      apply Forall_singleton in Hall as [Hl _]. exact Hl.
    - destruct Hcase as [_ ->]. apply length_replicate. }
  pose proof (low_byte_range a) as Hlow.
  intros ws1 x y ws2 Hsplit Hlater.
  destruct (exists_last_or_nil ws2) as [->|(ws2' & [a' v'] & ->)].
  - (* the byte just written *)
    apply app_inj_tail in Hsplit as [_ E]. injection E as <- <-.
    exists (length front), (MkBlock (align256 a)
              (<[Z.to_nat (Z.land a 0xff) := byte_of_Z v]> (bytes b0))).
    rewrite Hbl. split; [apply lookup_last_app|]. split; [reflexivity|].
    cbn [bytes]. apply list_lookup_insert_eq. lia.
  - (* an earlier byte *)
    rewrite app_comm_cons, app_assoc in Hsplit.
    apply app_inj_tail in Hsplit as [HWs E]. injection E as <- <-.
    assert (Hne : a ≠ x).
    { apply (Hlater (a, v)). apply in_or_app. right. left. reflexivity. }
    destruct (HW ws1 x y ws2' HWs) as (k & b & Hk & Hab & Hby).
    { intros w Hw. apply Hlater. apply in_or_app. left. exact Hw. }
    destruct (opt_eqb (current_base st) (Some (align256 a))) eqn:Ecur.
    + rewrite Hcase in Hk. rewrite Hbl.
      apply lookup_app_Some in Hk as [Hk|[Hge Hk]].
      * exists k, b. split; [apply lookup_app_l_Some; exact Hk|auto].
      * apply list_lookup_singleton_Some in Hk as [Hk0 <-].
        exists (length front), (MkBlock (align256 a)
              (<[Z.to_nat (Z.land a 0xff) := byte_of_Z v]> (bytes b0))).
        split; [apply lookup_last_app|]. split; [cbn [addr]; congruence|].
        cbn [bytes]. rewrite list_lookup_insert_ne; [exact Hby|].
        intros Hoff. apply Hne. apply low_byte_inj; congruence.
    + destruct Hcase as [-> _]. rewrite Hbl.
      exists k, b. split; [apply lookup_app_l_Some; exact Hk|auto].
Qed.

Lemma put_bytes_landed (ws : list (Z * Z)) (st st' : hstate)
    (W : list (Z * Z)) :
  hex_inv st → landed W (blocks st) → put_bytes ws st = Ok st' →
  hex_inv st' ∧ landed (W ++ ws) (blocks st').
Proof.
  revert st W. induction ws as [|[a v] ws IH]; intros st W Hinv HW Hrun.
  - apply Ok_inj in Hrun. subst st'. rewrite app_nil_r. auto.
  - cbn [put_bytes] in Hrun.
    destruct (put_byte a v st) as [st1|] eqn:E1; [|discriminate].
    cbn [mbind result_bind] in Hrun.
    destruct (put_byte_ok a v st st1 Hinv E1) as (Hinv1 & _).
    pose proof (put_byte_landed a v st st1 W Hinv E1 HW) as HW1.
    destruct (IH st1 (W ++ [(a, v)]) Hinv1 HW1 Hrun) as [Hinv' HW'].
    split; [exact Hinv'|]. rewrite <- app_assoc in HW'. exact HW'.
Qed.

Lemma put_byte_value (a v : Z) (st st' : hstate) :
  put_byte a v st = Ok st' → 0 <= v < 256.
Proof.
  unfold put_byte. intros H.
  destruct (needs_new_block a st) as [fresh|]; [|discriminate].
  cbn [mbind result_bind] in H.
  destruct (currblock _) as [k|]; [|discriminate].
  destruct (index _ k) as [b|]; [|discriminate].
  cbn [mbind result_bind] in H.
  destruct (bytearray_set _ _ _) as [bs|] eqn:E; [|discriminate].
  apply bytearray_set_ok in E. tauto.
Qed.

Lemma put_bytes_values (ws : list (Z * Z)) (st st' : hstate) :
  put_bytes ws st = Ok st' → Forall (fun w => 0 <= w.2 < 256) ws.
Proof.
  revert st. induction ws as [|[a v] ws IH]; intros st H; [constructor|].
  cbn [put_bytes] in H.
  destruct (put_byte a v st) as [st1|] eqn:E1; [|discriminate].
  cbn [mbind result_bind] in H. constructor.
  - exact (put_byte_value a v st st1 E1).
  - exact (IH st1 H).
Qed.

Section Hex_content.
Context {U : unicode_db}.

(** the blocks behind a successful conversion *)
Lemma hex_convert_blocks (familyid : Z) (buf : str) (out : list byte)
    (start : option Z) :
  convert_from_hex_to_uf2 familyid buf = Ok (out, start) →
  ∃ ws bl es,
    data_bytes buf = Ok ws
    ∧ Forall (fun w => 0 <= w.2 < 256) ws
    ∧ Forall (fun b => length (bytes b) = 256%nat) bl
    ∧ Forall (fun b => align256 (addr b) = addr b) bl
    ∧ map addr bl = new_runs None (map (fun w => align256 w.1) ws)
    ∧ landed ws bl
    ∧ (start = None → bl = [])
    ∧ encoded_as familyid bl (length bl) (seq 0 (length bl)) es
    ∧ out = concat es.
Proof.
  unfold convert_from_hex_to_uf2, encode_blocks. intros Hrun.
  destruct (hex_lines (split_lines buf) hstate_init) as [st|] eqn:Est;
    [|discriminate].
  cbn [mbind result_bind] in Hrun.
  destruct (for_each _ _ []) as [res|] eqn:Eres; [|discriminate].
  cbn [mbind result_bind] in Hrun. apply Ok_inj in Hrun.
  injection Hrun as <- <-.
  destruct (hex_lines_put_bytes _ _ _ Est) as (ws & st2 & Hws & Hput & Hb & _).
  assert (Hinv0 : hex_inv hstate_init) by (split; [reflexivity|constructor]).
  destruct (put_bytes_landed ws hstate_init st2 [] Hinv0 (landed_nil _) Hput)
    as [[_ Hall] Hland].
  destruct (encode_loop_spec _ _ _ _ _ Eres) as (es & Hes & ->).
  exists ws, (blocks st), es. split; [exact Hws|].
  split; [exact (put_bytes_values ws _ _ Hput)|].
  split.
  { rewrite Hb. eapply Forall_impl; [exact Hall|]. intros b [H _]. exact H. }
  split.
  { rewrite Hb. eapply Forall_impl; [exact Hall|]. intros b [_ H]. exact H. }
  split.
  { rewrite Hb.
    assert (HW0 : written_by [] (blocks hstate_init))
      by (intros k b p y Hk; discriminate).
    destruct (put_bytes_spec ws hstate_init st2 [] Hinv0 HW0 Hput)
      as (_ & _ & _ & Had & _).
    exact Had. }
  split; [rewrite Hb; exact Hland|].
  split; [|split; [exact Hes|reflexivity]].
  (* no start address, no block *)
  clear -Est. intros Hnone.
  assert (Hgen : ∀ lines s s',
            hex_lines lines s = Ok s' →
            (h_appstartaddr s = None → blocks s = []) →
            h_appstartaddr s' = None → blocks s' = []).
  { clear. induction lines as [|line lines IH]; intros s s' Hrun Hs Hn.
    - apply Ok_inj in Hrun. subst s'. auto.
    - cbn [hex_lines] in Hrun.
      destruct (hex_line line s) as [[brk s1]|] eqn:E; [|discriminate].
      cbn [mbind result_bind] in Hrun.
      assert (H1 : h_appstartaddr s1 = None → blocks s1 = []).
      { clear IH Hrun Hn. unfold hex_line in E.
        destruct (index line 0) as [c0|]; [|discriminate].
        cbn [mbind result_bind] in E.
        destruct (negb (c0 =? chr ":")%N).
        { apply Ok_inj in E. injection E as _ <-. exact Hs. }
        destruct (parse_rec _ _ _ _) as [rec|]; [|discriminate].
        cbn [mbind result_bind] in E.
        destruct (index rec 3) as [tp|]; [|discriminate].
        cbn [mbind result_bind] in E.
        destruct (tp =? 4).
        { destruct (index rec 4); [|discriminate].
          cbn [mbind result_bind] in E.
          destruct (index rec 5); [|discriminate].
          cbn [mbind result_bind] in E. apply Ok_inj in E.
          injection E as _ <-. exact Hs. }
        destruct (tp =? 2).
        { destruct (index rec 4); [|discriminate].
          cbn [mbind result_bind] in E.
          destruct (index rec 5); [|discriminate].
          cbn [mbind result_bind] in E. apply Ok_inj in E.
          injection E as _ <-. exact Hs. }
        destruct (tp =? 1).
        { apply Ok_inj in E. injection E as _ <-. exact Hs. }
        destruct (tp =? 0).
        2:{ apply Ok_inj in E. injection E as _ <-. exact Hs. }
        destruct (index rec 1) as [r1|]; [|discriminate].
        cbn [mbind result_bind] in E.
        destruct (index rec 2) as [r2|]; [|discriminate].
        cbn [mbind result_bind] in E.
        rewrite data_loop_put_bytes in E by lia.
        destruct (put_bytes _ _) as [m1|] eqn:E1; [|discriminate].
        cbn [mbind result_bind] in E. apply Ok_inj in E.
        injection E as _ <-. intros Hn. exfalso.
        destruct (put_bytes_fields _ _ _ E1) as [Hkeep _].
        rewrite Hkeep in Hn.
        destruct (h_appstartaddr s) eqn:Eh; [congruence|discriminate]. }
      destruct brk.
      + apply Ok_inj in Hrun. subst s'. auto.
      + exact (IH s1 s' Hrun H1 Hn). }
  apply (Hgen _ _ _ Est); [reflexivity|exact Hnone].
Qed.

End Hex_content.

(** ** The hex converter: the blocks it writes *)

Lemma Block_encode_layout (familyid : Z) (b : Block) (k n : Z) (e : list byte) :
  length (bytes b) = 256%nat →
  Block_encode familyid b k n = Ok e →
  ∃ hd,
    length hd = 32%nat
    ∧ take 8 hd = [x55; x46; x32; x0a; x57; x51; x5d; x9e]
    ∧ unpack_header hd
      = Ok (Header UF2_MAGIC_START0 UF2_MAGIC_START1 (family_flags familyid)
                   (addr b) 256 k n familyid)
    ∧ e = hd ++ bytes b ++ replicate 220 x00 ++ [x30; x6f; xb1; x0a].
Proof.
  intros Hlen He. unfold Block_encode in He.
  destruct (pack_Is _) as [hd|] eqn:Ehd; [|discriminate].
  cbn [mbind result_bind] in He.
  pose proof (pack_Is_magic _ _ Ehd) as Hmag.
  destruct (unpack_header_packed _ _ _ _ _ _ _ _ _ Ehd) as [Hl Hu].
  change (pack_I UF2_MAGIC_END) with (Ok [x30; x6f; xb1; x0a]) in He.
  cbn [mbind result_bind] in He. apply Ok_inj in He. subst e.
  rewrite slice_0, take_ge by lia.
  rewrite encode_pad_loop_spec by (rewrite length_app; lia).
  rewrite length_app, Hl, Hlen.
  exists hd. split; [exact Hl|]. split; [exact Hmag|]. split; [exact Hu|].
  rewrite <- !app_assoc. reflexivity.
Qed.

Lemma encoded_as_layout (familyid : Z) (bl : list Block)
    (es : list (list byte)) :
  Forall (fun b => length (bytes b) = 256%nat) bl →
  encoded_as familyid bl (length bl) (seq 0 (length bl)) es →
  length es = length bl
  ∧ Forall (fun e => length e = 512%nat) es
  ∧ ∀ k b, bl !! k = Some b →
      ∃ hd,
        length hd = 32%nat
        ∧ take 8 hd = [x55; x46; x32; x0a; x57; x51; x5d; x9e]
        ∧ unpack_header hd
          = Ok (Header UF2_MAGIC_START0 UF2_MAGIC_START1
                       (family_flags familyid) (addr b) 256 (Z.of_nat k)
                       (Z.of_nat (length bl)) familyid)
        ∧ es !! k
          = Some (hd ++ bytes b ++ replicate 220 x00 ++ [x30; x6f; xb1; x0a]).
Proof.
  intros Hall Hes.
  assert (Hlen : length es = length bl).
  { apply Forall2_length in Hes. rewrite length_seq in Hes. congruence. }
  split; [exact Hlen|].
  rewrite Forall_forall in Hall.
  split.
  - apply Forall_forall. intros e He.
    apply list_elem_of_lookup in He as [i Hi].
    destruct (Forall2_lookup_r _ _ _ _ _ Hes Hi) as (j & Hj & b' & Hb' & Henc).
    assert (Hl : length (bytes b') = 256%nat)
      by (apply Hall, list_elem_of_lookup; eauto).
    destruct (Block_encode_layout _ _ _ _ _ Hl Henc) as (hd & Hhd & _ & _ & ->).
    rewrite !length_app, Hhd, Hl, length_replicate. reflexivity.
  - intros k b Hk.
    assert (Hkl : (k < length bl)%nat) by (eapply lookup_lt_Some; exact Hk).
    destruct (Forall2_lookup_l _ _ _ k k Hes) as (e & He & b' & Hb' & Henc).
    { apply lookup_seq_lt. exact Hkl. }
    assert (b' = b) as -> by congruence.
    assert (Hl : length (bytes b) = 256%nat)
      by (apply Hall, list_elem_of_lookup; eauto).
    destruct (Block_encode_layout _ _ _ _ _ Hl Henc)
      as (hd & Hhd & Hmag & Hu & ->).
    exists hd. auto.
Qed.

Section Hex_output.
Context {U : unicode_db}.

(** X16: what [convert_from_hex_to_uf2] writes.  Every block of the output
    holds the two start magics, the flags (0x2000 when a family is set), a
    256-aligned target address, the payload size 256, its index, the block
    count and the family ID, and after the 256 payload bytes 220 zero
    bytes and the end magic.  A non-empty output is recognised by [is_uf2]
    and comes with a start address; without a data record the start
    address stays [None] and the output is empty. *)
Theorem convert_from_hex_to_uf2_layout
    (familyid : Z) (buf : str) (out : list byte) (start : option Z) :
  convert_from_hex_to_uf2 familyid buf = Ok (out, start) →
  (length out mod 512 = 0)%nat
  ∧ (out ≠ [] → is_uf2 out = Ok true ∧ start ≠ None)
  ∧ ∀ k, (k < length out / 512)%nat →
      ∃ base,
        align256 base = base
        ∧ block_hd out k
          = Ok (Header UF2_MAGIC_START0 UF2_MAGIC_START1
                       (family_flags familyid) base 256 (Z.of_nat k)
                       (Z.of_nat (length out / 512)) familyid)
        ∧ slice (nth_block out k) 288 508 = replicate 220 x00
        ∧ slice (nth_block out k) 508 512 = [x30; x6f; xb1; x0a].
Proof.
  intros H.
  destruct (hex_convert_blocks _ _ _ _ H)
    as (ws & bl & es & _ & _ & Hall & Halign & _ & _ & Hnone & Hes & ->).
  destruct (encoded_as_layout familyid bl es Hall Hes) as (Hlen & H512 & Hblk).
  pose proof (concat_blocks_length es H512) as Hout.
  assert (Hn : (length (concat es) / 512 = length bl)%nat).
  { rewrite numblocks_concat by exact H512. exact Hlen. }
  split.
  { rewrite Hout, Nat.mul_comm. apply Nat.Div0.mod_mul. }
  split.
  - intros Hne.
    destruct bl as [|b0 bl'].
    { destruct es; [contradiction|discriminate]. }
    split; [|intros Hs; specialize (Hnone Hs); discriminate].
    destruct (Hblk 0%nat b0 eq_refl) as (hd & Hhd & Hmag & _ & He).
    destruct es as [|e0 es']; [discriminate|]. injection He as ->.
    apply is_uf2_true_iff. cbn [concat].
    rewrite <- !app_assoc, take_app_le by lia. exact Hmag.
  - intros k Hk. rewrite Hn in *.
    destruct (lookup_lt_is_Some_2 bl k Hk) as [b Hb].
    destruct (Hblk k b Hb) as (hd & Hhd & _ & Hu & He).
    exists (addr b).
    pose proof (nth_block_concat es k _ H512 He) as Hnb.
    unfold block_hd. rewrite Hnb.
    assert (Hbl : length (bytes b) = 256%nat).
    { rewrite Forall_forall in Hall. apply Hall, list_elem_of_lookup. eauto. }
    split.
    { rewrite Forall_forall in Halign. apply Halign, list_elem_of_lookup.
      eauto. }
    split.
    { rewrite slice_0, take_app_length' by (symmetry; exact Hhd). exact Hu. }
    split.
    { rewrite (slice_app_r_eq hd _ 32 256 476 Hhd).
      rewrite (slice_app_r_eq (bytes b) _ 256 0 220 Hbl).
      rewrite slice_0, take_app_length' by (rewrite length_replicate; lia).
      reflexivity. }
    rewrite (slice_app_r_eq hd _ 32 476 480 Hhd).
    rewrite (slice_app_r_eq (bytes b) _ 256 220 224 Hbl).
    rewrite (slice_app_r_eq (replicate 220 x00) _ 220 0 4)
      by apply length_replicate.
    reflexivity.
Qed.

(** X17: where the data bytes go.  After a successful conversion, every
    data byte of the text whose address is not written again later in the
    text is found in the output, in a block whose target address is the
    byte's address with the low eight bits cleared, at the payload offset
    given by those low eight bits; and every data byte is in 0..255. *)
Theorem convert_from_hex_to_uf2_places_bytes
    (familyid : Z) (buf : str) (out : list byte) (start : option Z)
    (ws1 ws2 : list (Z * Z)) (a v : Z) :
  convert_from_hex_to_uf2 familyid buf = Ok (out, start) →
  data_bytes buf = Ok (ws1 ++ (a, v) :: ws2) →
  (∀ w, In w ws2 → w.1 ≠ a) →
  0 <= v < 256
  ∧ ∃ k hd,
      (k < length out / 512)%nat
      ∧ block_hd out k = Ok hd ∧ hd3 hd = align256 a
      ∧ nth_block out k !! (32 + Z.to_nat (Z.land a 0xff))%nat
        = Some (byte_of_Z v).
Proof.
  intros H Hws Hlater.
  destruct (hex_convert_blocks _ _ _ _ H)
    as (ws & bl & es & Hws' & Hval & Hall & _ & _ & Hland & _ & Hes & ->).
  assert (ws = ws1 ++ (a, v) :: ws2) as -> by congruence.
  split.
  { rewrite Forall_forall in Hval.
    apply (Hval (a, v)). apply list_elem_of_In, in_or_app. right. left.
    reflexivity. }
  destruct (Hland ws1 a v ws2 eq_refl Hlater) as (k & b & Hk & Hab & Hby).
  destruct (encoded_as_layout familyid bl es Hall Hes) as (Hlen & H512 & Hblk).
  destruct (Hblk k b Hk) as (hd & Hhd & _ & Hu & He).
  pose proof (nth_block_concat es k _ H512 He) as Hnb.
  exists k. eexists. split.
  { rewrite numblocks_concat by exact H512. rewrite Hlen.
    eapply lookup_lt_Some. exact Hk. }
  unfold block_hd. rewrite Hnb.
  split; [rewrite slice_0, take_app_length' by (symmetry; exact Hhd); exact Hu|].
  split; [exact Hab|].
  rewrite lookup_app_r by lia. rewrite Hhd.
  replace (32 + Z.to_nat (Z.land a 255) - 32)%nat
    with (Z.to_nat (Z.land a 255)) by lia.
  apply lookup_app_l_Some. exact Hby.
Qed.

End Hex_output.

(** ** The driver *)

Lemma written_data_app (t1 t2 : list event) :
  written_data (t1 ++ t2) = written_data t1 ++ written_data t2.
Proof.
  induction t1 as [|ev t1 IH]; [reflexivity|].
  destruct ev; cbn [app written_data]; rewrite IH; reflexivity.
Qed.

Lemma bind_Uncaught {A B} (t : list event) (e : exn) (f : A → io B) :
  (IO t (Uncaught e) ≫= f) = IO t (Uncaught e).
Proof. reflexivity. Qed.

Lemma bind_IO_Return {A B} (t : list event) (x : A) (f : A → io B) :
  (IO t (Return x) ≫= f) = IO (t ++ trace_of (f x)) (outcome_of (f x)).
Proof. cbn [mbind io_bind]. destruct (f x). reflexivity. Qed.

Lemma write_file_ok (E : env) (name : str) (data : list byte) :
  open_wb E name = true →
  write_file E name (PBytes data) = IO (file_written name data) (Return ()).
Proof. intros H. unfold write_file. rewrite H. reflexivity. Qed.

Lemma for_io_flash (E : env) (ds : list str) (data : list byte) :
  (∀ d, In d ds → ∃ id, board_id E d = Ok id) →
  (∀ d, In d ds → open_wb E (d ++ str_of_string "/NEW.UF2") = true) →
  for_io (fun d => _ ← lift (board_id E d);
                   write_file E (d ++ str_of_string "/NEW.UF2") (PBytes data))
         ds
  = IO (flashed_drives ds data) (Return ()).
Proof.
  intros Hid Hopen. induction ds as [|d ds IH]; [reflexivity|].
  cbn [for_io]. destruct (Hid d) as [id Hd]; [left; reflexivity|].
  rewrite Hd, bind_lift_Ok.
  rewrite write_file_ok by (apply Hopen; left; reflexivity).
  rewrite bind_IO_Return, IH.
  - reflexivity.
  - intros d' Hd'. apply Hid. right. exact Hd'.
  - intros d' Hd'. apply Hopen. right. exact Hd'.
Qed.

Section Driver.
Context {U : unicode_db}.

(** [main] up to the conversion, for a run that gets that far *)
Lemma main_to_deliver (E : env) (patience : nat) (a : args)
    (input : str) (b f : Z) (inpbuf : list byte) (u : bool)
    (outbuf : pybuf) (ext : ext_t) (s : option Z) :
  arg_list a = false →
  arg_input a = Some input → input ≠ [] →
  py_int (arg_base a) 0 = Ok b →
  resolve_family registry (arg_family a) = IO [] (Return f) →
  read_input E input = Ok inpbuf →
  is_uf2 inpbuf = Ok u →
  convert_input a f b inpbuf u = Ok (outbuf, ext, s) →
  main E patience a = deliver E patience a outbuf ext s.
Proof.
  intros Hlist Hin Hne Hb Hf Hread Hu Hconv.
  unfold main.
  generalize (@load_families_registry U). generalize (@load_families U).
  intros families ->.
  rewrite Hb, !bind_lift_Ok, Hf.
  rewrite bind_IO_Return. rewrite Hlist, Hin.
  destruct input as [|c input]; [contradiction|].
  rewrite bind_mret, Hread, bind_lift_Ok, Hu, bind_lift_Ok, Hconv,
    bind_lift_Ok.
  cbn [app]. destruct (deliver E patience a outbuf ext s). reflexivity.
Qed.

Lemma if_same {A} (c : bool) (x : A) : (if c then x else x) = x.
Proof. destruct c; reflexivity. Qed.

(** X18: converting without flashing.  When [--convert] is given, or the
    conversion does not yield UF2 (UF2 input decoded to [.bin], or
    [--carray]), a run that gets through the conversion writes the result
    to exactly one file, the one named by [--output] or else
    ["flash." + ext], and does not look for a drive. *)
Theorem main_saves_conversion (E : env) (patience : nat) (a : args)
    (input : str) (b f : Z) (inpbuf out : list byte) (u : bool)
    (ext : ext_t) (s : Z) :
  arg_list a = false →
  arg_input a = Some input → input ≠ [] →
  py_int (arg_base a) 0 = Ok b →
  resolve_family registry (arg_family a) = IO [] (Return f) →
  read_input E input = Ok inpbuf →
  is_uf2 inpbuf = Ok u →
  convert_input a f b inpbuf u = Ok (PBytes out, ext, Some s) →
  arg_convert a = true ∨ ext ≠ ExtUf2 →
  output_name a ext ≠ [] →
  open_wb E (output_name a ext) = true →
  main E patience a
  = IO (file_written (output_name a ext) out) (Return ()).
Proof.
  intros Hlist Hin Hne Hb Hf Hread Hu Hconv Hmode Hname Hopen.
  rewrite (main_to_deliver E patience a input b f inpbuf u _ _ _
             Hlist Hin Hne Hb Hf Hread Hu Hconv).
  unfold deliver. cbv beta iota. rewrite if_same, bind_mret.
  assert (Hc : arg_convert a || negb (is_ext_uf2 ext) = true).
  { destruct Hmode as [->|Hext]; [reflexivity|].
    destruct ext; [contradiction|..]; apply orb_true_r. }
  rewrite Hc.
  assert (Hflash : is_ext_uf2 ext && negb (arg_convert a) = false).
  { apply orb_true_iff in Hc as [->|Hc]; [apply andb_false_r|].
    apply negb_true_iff in Hc. rewrite Hc. reflexivity. }
  rewrite Hflash. cbn [andb].
  unfold output_name in *.
  destruct (arg_output a) as [o|].
  - destruct o as [|c o]; [contradiction|].
    rewrite write_file_ok by exact Hopen. reflexivity.
  - destruct (str_of_string "flash." ++ ext_str ext) as [|c o] eqn:En;
      [contradiction|].
    rewrite write_file_ok by exact Hopen. reflexivity.
Qed.

(** X19: flashing.  Without [--convert], a run whose conversion yields
    UF2 first saves the result if [--output] names a file, and then, when
    drives are present, writes it as [NEW.UF2] to every drive, in the
    order in which [get_drives] lists them. *)
Theorem main_flashes_every_drive (E : env) (patience : nat) (a : args)
    (input : str) (b f : Z) (inpbuf out : list byte) (u : bool) (s : Z)
    (d : str) (ds : list str) :
  arg_list a = false →
  arg_input a = Some input → input ≠ [] →
  py_int (arg_base a) 0 = Ok b →
  resolve_family registry (arg_family a) = IO [] (Return f) →
  read_input E input = Ok inpbuf →
  is_uf2 inpbuf = Ok u →
  convert_input a f b inpbuf u = Ok (PBytes out, ExtUf2, Some s) →
  arg_convert a = false → arg_info a = false →
  get_drives E 0 = Ok (d :: ds) →
  (∀ d', In d' (d :: ds) → ∃ id, board_id E d' = Ok id) →
  (∀ name, open_wb E name = true) →
  main E patience a
  = IO ((if str_truthy (arg_output a)
         then file_written (output_name a ExtUf2) out else [])
        ++ flashed_drives (d :: ds) out)
       (Return ()).
Proof.
  intros Hlist Hin Hne Hb Hf Hread Hu Hconv Hc Hi Hdr Hid Hopen.
  rewrite (main_to_deliver E patience a input b f inpbuf u _ _ _
             Hlist Hin Hne Hb Hf Hread Hu Hconv).
  unfold deliver. cbv beta iota. rewrite if_same, bind_mret, Hc, Hi.
  cbn [is_ext_uf2 negb orb andb]. rewrite Hdr, bind_lift_Ok, bind_mret.
  rewrite for_io_flash; [|exact Hid|intros; apply Hopen].
  unfold output_name.
  destruct (arg_output a) as [[|c o]|]; cbn [str_truthy].
  - rewrite bind_mret. reflexivity.
  - rewrite write_file_ok by apply Hopen. rewrite bind_IO_Return. reflexivity.
  - rewrite bind_mret. reflexivity.
Qed.

(** X20: no drive.  Without [--convert], [--wait] and [--output], a run
    whose conversion yields UF2 and that finds no drive writes nothing,
    prints ["No drive to deploy."] to standard error and exits with
    status 1. *)
Theorem main_without_drive (E : env) (patience : nat) (a : args)
    (input : str) (b f : Z) (inpbuf : list byte) (outbuf : pybuf) (u : bool)
    (s : Z) :
  arg_list a = false →
  arg_input a = Some input → input ≠ [] →
  py_int (arg_base a) 0 = Ok b →
  resolve_family registry (arg_family a) = IO [] (Return f) →
  read_input E input = Ok inpbuf →
  is_uf2 inpbuf = Ok u →
  convert_input a f b inpbuf u = Ok (outbuf, ExtUf2, Some s) →
  arg_convert a = false → arg_info a = false → arg_wait a = false →
  str_truthy (arg_output a) = false →
  get_drives E 0 = Ok [] →
  main E patience a
  = IO [EStderr (str_of_string "No drive to deploy.")]
       (Uncaught (SystemExit 1)).
Proof.
  intros Hlist Hin Hne Hb Hf Hread Hu Hconv Hc Hi Hw Ho Hdr.
  rewrite (main_to_deliver E patience a input b f inpbuf u _ _ _
             Hlist Hin Hne Hb Hf Hread Hu Hconv).
  unfold deliver. cbv beta iota. rewrite if_same, bind_mret, Hc, Hi, Hw.
  cbn [is_ext_uf2 negb orb andb]. rewrite Hdr.
  destruct (arg_output a) as [[|c o]|]; try discriminate;
    cbn [str_truthy negb]; rewrite bind_mret, bind_lift_Ok; reflexivity.
Qed.

Lemma wait_loop_polling (E : env) (patience n : nat) :
  (∀ k, get_drives E k = Ok []) → wait_loop E patience n = IO [] Polling.
Proof.
  intros H. revert n. induction patience as [|p IH]; intros n; [reflexivity|].
  cbn [wait_loop]. rewrite H, bind_lift_Ok. apply IH.
Qed.

(** X21: waiting.  With [--wait] and without [--convert], a run whose
    conversion yields UF2 and that never finds a drive does not come to an
    end: however long it is watched it is still polling, having written at
    most the [--output] file. *)
Theorem main_waits_for_a_drive (E : env) (patience : nat) (a : args)
    (input : str) (b f : Z) (inpbuf out : list byte) (u : bool) (s : Z) :
  arg_list a = false →
  arg_input a = Some input → input ≠ [] →
  py_int (arg_base a) 0 = Ok b →
  resolve_family registry (arg_family a) = IO [] (Return f) →
  read_input E input = Ok inpbuf →
  is_uf2 inpbuf = Ok u →
  convert_input a f b inpbuf u = Ok (PBytes out, ExtUf2, Some s) →
  arg_convert a = false → arg_info a = false → arg_wait a = true →
  (∀ k, get_drives E k = Ok []) →
  (∀ name, open_wb E name = true) →
  main E patience a
  = IO (if str_truthy (arg_output a)
        then file_written (output_name a ExtUf2) out else [])
       Polling.
Proof.
  intros Hlist Hin Hne Hb Hf Hread Hu Hconv Hc Hi Hw Hdr Hopen.
  rewrite (main_to_deliver E patience a input b f inpbuf u _ _ _
             Hlist Hin Hne Hb Hf Hread Hu Hconv).
  unfold deliver. cbv beta iota. rewrite if_same, bind_mret, Hc, Hi, Hw.
  cbn [is_ext_uf2 negb orb andb]. rewrite Hdr, bind_lift_Ok.
  rewrite wait_loop_polling by exact Hdr.
  unfold output_name.
  destruct (arg_output a) as [[|c o]|]; cbn [str_truthy].
  - rewrite bind_mret. reflexivity.
  - rewrite write_file_ok by apply Hopen. cbn [mbind io_bind app].
    reflexivity.
  - rewrite bind_mret. reflexivity.
Qed.

(** X22: a run without an input file.  Unless [--list] is given, a run
    whose base address and family are accepted but that names no input
    file (none, or the empty string) prints ["Need input file"] to standard
    error and exits with status 1, having read and written nothing. *)
Theorem main_needs_input (E : env) (patience : nat) (a : args) (b f : Z) :
  arg_list a = false →
  str_truthy (arg_input a) = false →
  py_int (arg_base a) 0 = Ok b →
  resolve_family registry (arg_family a) = IO [] (Return f) →
  main E patience a
  = IO [EStderr (str_of_string "Need input file")] (Uncaught (SystemExit 1)).
Proof.
  intros Hlist Hin Hb Hf. unfold main.
  generalize (@load_families_registry U). generalize (@load_families U).
  intros families ->.
  rewrite Hb, !bind_lift_Ok, Hf, bind_IO_Return, Hlist.
  destruct (arg_input a) as [[|c s]|]; try discriminate; reflexivity.
Qed.

Lemma written_data_bind {A B} (m : io A) (f : A → io B) (d : list byte) :
  In d (written_data (trace_of (m ≫= f))) →
  In d (written_data (trace_of m))
  ∨ ∃ x, outcome_of m = Return x ∧ In d (written_data (trace_of (f x))).
Proof.
  rewrite trace_bind, written_data_app. intros H.
  apply in_app_or in H as [H|H]; [left; exact H|].
  destruct (outcome_of m) as [x| |]; [|destruct H..].
  right. exists x. auto.
Qed.

Lemma written_data_lift {A} (r : result A) : written_data (trace_of (lift r)) = [].
Proof. destruct r; reflexivity. Qed.

Lemma written_data_wait (E : env) (patience n : nat) :
  written_data (trace_of (wait_loop E patience n)) = [].
Proof.
  revert n. induction patience as [|p IH]; intros n; [reflexivity|].
  cbn [wait_loop]. rewrite trace_bind, written_data_app, written_data_lift.
  destruct (get_drives E n) as [[|d ds]|]; cbn [lift outcome_of app];
    [apply IH|reflexivity..].
Qed.

Lemma written_data_write_file (E : env) (name : str) (buf : pybuf)
    (d : list byte) :
  In d (written_data (trace_of (write_file E name buf))) → buf = PBytes d.
Proof.
  unfold write_file. destruct (open_wb E name); [|intros []].
  destruct buf; cbn [trace_of written_data]; [|intros []].
  intros [->|[]]. reflexivity.
Qed.

Lemma written_data_deliver (E : env) (patience : nat) (a : args)
    (outbuf : pybuf) (ext : ext_t) (s : option Z) (d : list byte) :
  In d (written_data (trace_of (deliver E patience a outbuf ext s))) →
  outbuf = PBytes d.
Proof.
  unfold deliver. intros H.
  apply written_data_bind in H as [H|(_ & _ & H)].
  { destruct (_ && _); [destruct s|]; destruct H. }
  apply written_data_bind in H as [H|(_ & _ & H)].
  { match type of H with
    | In _ (written_data (trace_of (match ?o with _ => _ end))) =>
        destruct o as [[|c o']|]
    end; try destruct H.
    exact (written_data_write_file _ _ _ _ H). }
  destruct (_ && _); [|destruct H].
  apply written_data_bind in H as [H|(ds & _ & H)].
  { rewrite written_data_lift in H. destruct H. }
  apply written_data_bind in H as [H|(ds' & _ & H)].
  { destruct ds as [|d0 ds]; [|destruct H].
    destruct (arg_wait a); [rewrite written_data_wait in H; destruct H|].
    destruct (negb _); destruct H. }
  clear -H. induction ds' as [|d0 ds' IH]; [destruct H|].
  cbn [for_io] in H.
  apply written_data_bind in H as [H|(_ & _ & H)]; [|exact (IH H)].
  apply written_data_bind in H as [H|(_ & _ & H)].
  { rewrite written_data_lift in H. destruct H. }
  exact (written_data_write_file _ _ _ _ H).
Qed.

Lemma written_data_resolve (families : list (str * Z)) (family : str) :
  written_data (trace_of (resolve_family families family)) = [].
Proof.
  unfold resolve_family. destruct (dict_get _ _); [reflexivity|].
  destruct (py_int family 0) as [v|[]]; reflexivity.
Qed.

Lemma written_data_list_drives (E : env) :
  written_data (trace_of (list_drives E)) = [].
Proof.
  unfold list_drives. rewrite trace_bind, written_data_app, written_data_lift.
  cbn [app].
  destruct (lift (get_drives E 0)) as [t [ds|e|]] eqn:Eds;
    cbn [outcome_of]; try reflexivity.
  clear Eds. induction ds as [|d ds IH]; [reflexivity|].
  cbn [for_io].
  rewrite trace_bind, written_data_app, trace_bind, written_data_app,
    written_data_lift.
  cbn [app].
  destruct (board_id E d); cbn [lift outcome_of trace_of mret io_ret];
    [exact IH|reflexivity].
Qed.

(** X23: what a run writes.  Every byte string that [main] writes to a
    file, be it the output file or [NEW.UF2] on a drive, is the output
    buffer that the conversion chain computed from the input file; with
    [--deploy] it is the input file itself, byte for byte, whatever its
    format.  In particular [--list] writes nothing. *)
Theorem main_writes_only_the_conversion (E : env) (patience : nat) (a : args)
    (d : list byte) :
  In d (written_data (trace_of (main E patience a))) →
  arg_list a = false
  ∧ ∃ input b f inpbuf u ext s,
      arg_input a = Some input
      ∧ read_input E input = Ok inpbuf
      ∧ py_int (arg_base a) 0 = Ok b
      ∧ outcome_of (resolve_family registry (arg_family a)) = Return f
      ∧ is_uf2 inpbuf = Ok u
      ∧ convert_input a f b inpbuf u = Ok (PBytes d, ext, s)
      ∧ (arg_deploy a = true → d = inpbuf).
Proof.
  unfold main. generalize (@load_families_registry U).
  generalize (@load_families U). intros fams -> H.
  apply written_data_bind in H as [H|(b & Hb & H)].
  { rewrite written_data_lift in H. destruct H. }
  apply written_data_bind in H as [H|(families & Hfam & H)].
  { rewrite written_data_lift in H. destruct H. }
  cbn in Hfam. injection Hfam as <-.
  apply written_data_bind in H as [H|(f & Hf & H)].
  { rewrite written_data_resolve in H. destruct H. }
  destruct (arg_list a).
  { rewrite written_data_list_drives in H. destruct H. }
  split; [reflexivity|].
  apply written_data_bind in H as [H|(input & Hin & H)].
  { destruct (arg_input a) as [[|c s]|]; destruct H. }
  apply written_data_bind in H as [H|(inpbuf & Hread & H)].
  { rewrite written_data_lift in H. destruct H. }
  apply written_data_bind in H as [H|(u & Hu & H)].
  { rewrite written_data_lift in H. destruct H. }
  apply written_data_bind in H as [H|([[outbuf ext] s] & Hconv & H)].
  { rewrite written_data_lift in H. destruct H. }
  apply written_data_deliver in H. subst outbuf.
  exists input, b, f, inpbuf, u, ext, s.
  assert (Hlift : ∀ A (r : result A) (x : A),
            outcome_of (lift r) = Return x → r = Ok x).
  { intros A [y|e] x Hx; cbn in Hx; congruence. }
  apply Hlift in Hb, Hread, Hu, Hconv.
  split.
  { destruct (arg_input a) as [[|c s0]|]; cbn in Hin; congruence. }
  split; [exact Hread|]. split; [exact Hb|]. split; [exact Hf|].
  split; [exact Hu|]. split; [exact Hconv|].
  intros Hdep. unfold convert_input in Hconv. rewrite Hdep in Hconv.
  apply Ok_inj in Hconv. congruence.
Qed.

(** X24: a hex file without data.  [convert_from_hex_to_uf2] leaves the
    start address [None] when the text holds no data record; unless
    [--deploy] or [--info] is given, [main] then fails with [TypeError] on
    the ["0x%x"] of its report line, before it writes anything. *)
Theorem main_hex_without_data_record (E : env) (patience : nat) (a : args)
    (input : str) (b f : Z) (inpbuf out : list byte) (text : str) :
  arg_list a = false →
  arg_input a = Some input → input ≠ [] →
  py_int (arg_base a) 0 = Ok b →
  resolve_family registry (arg_family a) = IO [] (Return f) →
  read_input E input = Ok inpbuf →
  is_uf2 inpbuf = Ok false →
  is_hex inpbuf = Ok true →
  utf8_decode inpbuf = Some text →
  convert_from_hex_to_uf2 f text = Ok (out, None) →
  arg_deploy a = false → arg_info a = false →
  main E patience a = IO [] (Uncaught TypeError).
Proof.
  intros Hlist Hin Hne Hb Hf Hread Hu Hh Htext Hconv Hdep Hinfo.
  rewrite (main_to_deliver E patience a input b f inpbuf false
             (PBytes out) ExtUf2 None Hlist Hin Hne Hb Hf Hread Hu).
  - unfold deliver. rewrite Hdep, Hinfo. reflexivity.
  - unfold convert_input. rewrite Hdep, Hh. cbn [andb mbind result_bind].
    rewrite Htext, Hconv. reflexivity.
Qed.

End Driver.

Lemma main_saves_conversion_witness :
  main (U := ascii_db) (env_with bin_sample [])
       0 (args_plain None false true false false false false)
  = IO (file_written (str_of_string "flash.uf2") bin_sample_uf2) (Return ()).
Proof.
  apply (main_saves_conversion (U := ascii_db) (env_with bin_sample []) 0
           (args_plain None false true false false false false)
           (str_of_string "in.bin") 0x2000 0 bin_sample bin_sample_uf2 false
           ExtUf2 0x2000);
    first [ vm_compute; reflexivity | discriminate
          | left; reflexivity ].
Defined.

Lemma main_flashes_every_drive_witness :
  main (U := ascii_db)
       (env_with bin_sample [str_of_string "/media/A"; str_of_string "/media/B"])
       0 (args_plain (Some (str_of_string "out.uf2"))
                     false false false false false false)
  = IO (file_written (str_of_string "out.uf2") bin_sample_uf2
        ++ flashed_drives [str_of_string "/media/A"; str_of_string "/media/B"]
                          bin_sample_uf2)
       (Return ()).
Proof.
  apply (main_flashes_every_drive (U := ascii_db)
           (env_with bin_sample
                     [str_of_string "/media/A"; str_of_string "/media/B"]) 0
           (args_plain (Some (str_of_string "out.uf2"))
                       false false false false false false)
           (str_of_string "in.bin") 0x2000 0 bin_sample bin_sample_uf2 false
           0x2000 (str_of_string "/media/A") [str_of_string "/media/B"]);
    first [ vm_compute; reflexivity | discriminate
          | intros; eexists; reflexivity | intros; reflexivity ].
Defined.

Lemma main_without_drive_witness :
  main (U := ascii_db) (env_with bin_sample [])
       0 (args_plain None false false false false false false)
  = IO [EStderr (str_of_string "No drive to deploy.")]
       (Uncaught (SystemExit 1)).
Proof.
  apply (main_without_drive (U := ascii_db) (env_with bin_sample []) 0
           (args_plain None false false false false false false)
           (str_of_string "in.bin") 0x2000 0 bin_sample
           (PBytes bin_sample_uf2) false 0x2000);
    first [ vm_compute; reflexivity | discriminate ].
Defined.

Lemma main_waits_for_a_drive_witness :
  main (U := ascii_db) (env_with bin_sample [])
       1000 (args_plain None false false false true false false)
  = IO [] Polling.
Proof.
  apply (main_waits_for_a_drive (U := ascii_db) (env_with bin_sample []) 1000
           (args_plain None false false false true false false)
           (str_of_string "in.bin") 0x2000 0 bin_sample bin_sample_uf2 false
           0x2000);
    first [ vm_compute; reflexivity | discriminate | intros; reflexivity ].
Defined.

Lemma main_needs_input_witness :
  main (U := ascii_db) (env_with bin_sample []) 0
       (Args None (str_of_string "0x2000") (str_of_string "0x0") None None
             false false false false false false)
  = IO [EStderr (str_of_string "Need input file")] (Uncaught (SystemExit 1)).
Proof.
  apply (main_needs_input (U := ascii_db) (env_with bin_sample []) 0 _ 0x2000 0);
    vm_compute; reflexivity.
Defined.

Lemma main_writes_only_the_conversion_witness :
  arg_list (args_plain (Some (str_of_string "out.uf2"))
                       false false true false false false) = false
  ∧ ∃ input b f inpbuf u ext s,
      arg_input (args_plain (Some (str_of_string "out.uf2"))
                            false false true false false false) = Some input
      ∧ read_input (env_with bin_sample []) input = Ok inpbuf
      ∧ py_int (U := ascii_db)
               (arg_base (args_plain (Some (str_of_string "out.uf2"))
                                     false false true false false false)) 0
        = Ok b
      ∧ outcome_of
          (resolve_family (U := ascii_db) registry
             (arg_family (args_plain (Some (str_of_string "out.uf2"))
                                     false false true false false false)))
        = Return f
      ∧ is_uf2 inpbuf = Ok u
      ∧ convert_input (U := ascii_db)
                      (args_plain (Some (str_of_string "out.uf2"))
                                  false false true false false false)
                      f b inpbuf u
        = Ok (PBytes bin_sample, ext, s)
      ∧ (arg_deploy (args_plain (Some (str_of_string "out.uf2"))
                                false false true false false false) = true →
         bin_sample = inpbuf).
Proof.
  apply (main_writes_only_the_conversion (U := ascii_db)
           (env_with bin_sample []) 0
           (args_plain (Some (str_of_string "out.uf2"))
                       false false true false false false) bin_sample).
  vm_compute. left. reflexivity.
Defined.

Lemma main_hex_without_data_record_witness :
  main (U := ascii_db) (env_with hex_eof_bytes [])
       0 (args_plain None false true false false false false)
  = IO [] (Uncaught TypeError).
Proof.
  apply (main_hex_without_data_record (U := ascii_db)
           (env_with hex_eof_bytes []) 0
           (args_plain None false true false false false false)
           (str_of_string "in.bin") 0x2000 0 hex_eof_bytes [] eof_record);
    first [ vm_compute; reflexivity | discriminate ].
Defined.

(** ** Instances *)

Lemma uf2_is_not_hex_witness : is_hex two_families = Ok false.
Proof. apply (uf2_is_not_hex two_families). vm_compute. reflexivity. Defined.

Lemma is_hex_text_decodes_witness :
  ∃ text, utf8_decode hex_eof_bytes = Some text
          ∧ length text = length hex_eof_bytes
          ∧ ascii_bytes text = hex_eof_bytes.
Proof.
  apply (is_hex_text_decodes hex_eof_bytes). vm_compute. reflexivity.
Defined.

Lemma convert_from_uf2_places_payloads_witness :
  placed one_family_with_gap
         ([x01; x02; x03; x04] ++ replicate 8 x00 ++ [x05; x06; x07; x08])
         0x1000 1
  ∧ ((∀ j, (j < 1)%nat → ¬ flashed one_family_with_gap j) →
     0x1000 = hd3 (header_at one_family_with_gap 1))
  ∧ ((∀ j, (1 < j < length one_family_with_gap / 512)%nat →
           ¬ flashed one_family_with_gap j) →
     Z.of_nat (length ([x01; x02; x03; x04] ++ replicate 8 x00
                       ++ [x05; x06; x07; x08]))
     = hd3 (header_at one_family_with_gap 1)
       + hd4 (header_at one_family_with_gap 1) - 0x1000).
Proof.
  apply (convert_from_uf2_places_payloads 0xAAAA 0xAAAA 0 one_family_with_gap
           ([x01; x02; x03; x04] ++ replicate 8 x00 ++ [x05; x06; x07; x08])
           0x1000).
  - intros k Hk _.
    change (length one_family_with_gap / 512)%nat with 2%nat in Hk.
    destruct k as [|[|k]]; [vm_compute; reflexivity..|lia].
  - right. split; [reflexivity|]. intros k Hk _.
    change (length one_family_with_gap / 512)%nat with 2%nat in Hk.
    destruct k as [|[|k]]; [vm_compute; reflexivity..|lia].
  - vm_compute. reflexivity.
  - vm_compute. lia.
  - vm_compute. reflexivity.
Defined.

Lemma convert_to_uf2_succeeds_iff_witness :
  (∃ out, convert_to_uf2 0 0xFFFFFFFF [x01] = Ok out)
  ∧ convert_to_uf2 0 0xFFFFFF00 (replicate 257 x01) = Raise StructError.
Proof.
  split.
  - apply (convert_to_uf2_succeeds_iff 0 0xFFFFFFFF [x01]);
      [discriminate|vm_compute; intuition discriminate].
  - apply (convert_to_uf2_succeeds_iff 0 0xFFFFFF00 (replicate 257 x01));
      [discriminate|].
    intros (_ & _ & H). vm_compute in H. discriminate H.
Defined.

Lemma convert_from_hex_to_uf2_layout_witness :
  (length hex_sample_out mod 512 = 0)%nat
  ∧ (hex_sample_out ≠ [] → is_uf2 hex_sample_out = Ok true ∧ Some 0x110 ≠ None)
  ∧ ∀ k, (k < length hex_sample_out / 512)%nat →
      ∃ base,
        align256 base = base
        ∧ block_hd hex_sample_out k
          = Ok (Header UF2_MAGIC_START0 UF2_MAGIC_START1
                       (family_flags 0) base 256 (Z.of_nat k)
                       (Z.of_nat (length hex_sample_out / 512)) 0)
        ∧ slice (nth_block hex_sample_out k) 288 508 = replicate 220 x00
        ∧ slice (nth_block hex_sample_out k) 508 512 = [x30; x6f; xb1; x0a].
Proof.
  apply (convert_from_hex_to_uf2_layout (U := ascii_db) 0 hex_sample
           hex_sample_out (Some 0x110)).
  vm_compute. reflexivity.
Defined.

Lemma convert_from_hex_to_uf2_places_bytes_witness :
  0 <= 1 < 256
  ∧ ∃ k hd,
      (k < length hex_sample_out / 512)%nat
      ∧ block_hd hex_sample_out k = Ok hd ∧ hd3 hd = align256 0x110
      ∧ nth_block hex_sample_out k !! (32 + Z.to_nat (Z.land 0x110 0xff))%nat
        = Some (byte_of_Z 1).
Proof.
  apply (convert_from_hex_to_uf2_places_bytes (U := ascii_db) 0 hex_sample
           hex_sample_out (Some 0x110) []
           [(0x111, 2); (0x100, 3); (0x101, 4); (0, 5); (1, 6); (0x120, 7);
            (0x121, 8)] 0x110 1).
  - vm_compute. reflexivity.
  - vm_compute. reflexivity.
  - intros w Hw. repeat (destruct Hw as [<-|Hw]; [discriminate|]).
    destruct Hw.
Defined.

(** ** From hex to UF2 and back to an image *)

Lemma slice_lookup {A} (l k : list A) (i n j : nat) (x : A) :
  slice l i (i + n) = k → k !! j = Some x → l !! (i + j)%nat = Some x.
Proof.
  unfold slice. intros <- H.
  replace (i + n - i)%nat with n in H by lia.
  apply lookup_take_Some in H as [H _]. rewrite lookup_drop in H. exact H.
Qed.

Lemma family_flags_no_flash (familyid : Z) :
  truthy (Z.land (family_flags familyid) 1) = false.
Proof. destruct (family_flags_cases familyid) as [[_ ->]|[_ ->]]; reflexivity. Qed.

Section Hex_roundtrip.
Context {U : unicode_db}.

(** the headers and payloads of a converted hex text, block by block *)
Lemma hex_output_blocks (familyid : Z) (buf : str) (out : list byte)
    (start : option Z) :
  convert_from_hex_to_uf2 familyid buf = Ok (out, start) →
  ∃ ws bl,
    data_bytes buf = Ok ws
    ∧ landed ws bl
    ∧ map addr bl = new_runs None (map (fun w => align256 w.1) ws)
    ∧ (length out mod 512 = 0)%nat
    ∧ (length out / 512)%nat = length bl
    ∧ ∀ k b, bl !! k = Some b →
        header_at out k
        = Header UF2_MAGIC_START0 UF2_MAGIC_START1 (family_flags familyid)
                 (addr b) 256 (Z.of_nat k) (Z.of_nat (length bl)) familyid
        ∧ slice (nth_block out k) 32 (32 + 256) = bytes b.
Proof.
  intros H.
  destruct (hex_convert_blocks _ _ _ _ H)
    as (ws & bl & es & Hws & _ & Hall & _ & Had & Hland & _ & Hes & ->).
  destruct (encoded_as_layout familyid bl es Hall Hes) as (Hlen & H512 & Hblk).
  exists ws, bl. split; [exact Hws|]. split; [exact Hland|].
  split; [exact Had|].
  split.
  { rewrite concat_blocks_length by exact H512.
    rewrite Nat.mul_comm. apply Nat.Div0.mod_mul. }
  split; [rewrite numblocks_concat by exact H512; exact Hlen|].
  intros k b Hk.
  destruct (Hblk k b Hk) as (hd & Hhd & _ & Hu & He).
  pose proof (nth_block_concat es k _ H512 He) as Hnb.
  assert (Hbl : length (bytes b) = 256%nat).
  { rewrite Forall_forall in Hall. apply Hall, list_elem_of_lookup. eauto. }
  split.
  - unfold header_at, block_hd. rewrite Hnb.
    rewrite slice_0, take_app_length' by (symmetry; exact Hhd).
    rewrite Hu. reflexivity.
  - rewrite Hnb. rewrite (slice_app_r_eq hd _ 32 0 256 Hhd), slice_0.
    apply take_app_length'. symmetry. exact Hbl.
Qed.

(** X25: from hex to UF2 and back.  When the blocks that
    [convert_from_hex_to_uf2] makes of a hex text are in ascending order
    (each starts at or after the end of the one before, at most 10 MiB
    further), [convert_from_uf2] decodes its output, under no filter or the
    family it was made with, to an image that starts at the first data
    address with the low eight bits cleared and holds every data byte of
    the text that is not overwritten later at its address counted from
    that start. *)
Theorem hex_to_uf2_and_back (familyid filter appstartaddr0 : Z) (buf : str)
    (uf2 : list byte) (start : option Z) :
  convert_from_hex_to_uf2 familyid buf = Ok (uf2, start) →
  in_order uf2 = true →
  filter = 0 ∨ filter = familyid →
  ∃ img s,
    convert_from_uf2 filter appstartaddr0 uf2 = Ok (img, s)
    ∧ ∀ ws, data_bytes buf = Ok ws →
        (∀ a1 v1 ws', ws = (a1, v1) :: ws' → s = align256 a1)
        ∧ ∀ ws1 a v ws2,
            ws = ws1 ++ (a, v) :: ws2 → (∀ w, In w ws2 → w.1 ≠ a) →
            s <= a ∧ img !! Z.to_nat (a - s) = Some (byte_of_Z v).
Proof.
  intros Hconv Hord Hfilter.
  destruct (hex_output_blocks _ _ _ _ Hconv)
    as (ws & bl & Hws & Hland & Had & Hmod & Hn & Hblk).
  (* the output is well formed *)
  assert (Hhdr : ∀ k, (k < length uf2 / 512)%nat →
            ∃ b, bl !! k = Some b
                 ∧ header_at uf2 k
                   = Header UF2_MAGIC_START0 UF2_MAGIC_START1
                            (family_flags familyid) (addr b) 256 (Z.of_nat k)
                            (Z.of_nat (length bl)) familyid
                 ∧ slice (nth_block uf2 k) 32 (32 + 256) = bytes b).
  { intros k Hk. rewrite Hn in Hk.
    destruct (lookup_lt_is_Some_2 bl k Hk) as [b Hb].
    exists b. split; [exact Hb|]. exact (Hblk k b Hb). }
  assert (Hwf : wf_uf2 uf2 = true).
  { unfold wf_uf2. apply andb_true_iff. split; [apply Nat.eqb_eq, Hmod|].
    apply forallb_forall. intros hd Hhd. unfold uf2_headers in Hhd.
    apply in_map_iff in Hhd as (k & <- & Hk). apply in_seq in Hk.
    destruct (Hhdr k ltac:(lia)) as (b & _ & -> & _). reflexivity. }
  assert (Hfl : ∀ k, (k < length uf2 / 512)%nat → flashed uf2 k).
  { intros k Hk. destruct (Hhdr k Hk) as (b & _ & Hh & _).
    unfold flashed, no_flash. rewrite Hh. apply family_flags_no_flash. }
  destruct (ordered_prefix filter appstartaddr0 uf2 Hwf Hord
              (length uf2 / 512) ltac:(lia)) as (st & Hrun & _).
  exists (concat (outp st)), (appstartaddr st).
  assert (Hdec : convert_from_uf2 filter appstartaddr0 uf2
                 = Ok (concat (outp st), appstartaddr st)).
  { rewrite convert_from_uf2_prefix, Hrun. reflexivity. }
  split; [exact Hdec|].
  intros ws' Hws'. assert (ws' = ws) as -> by congruence.
  assert (Hplaced : ∀ k, (k < length uf2 / 512)%nat →
            placed uf2 (concat (outp st)) (appstartaddr st) k
            ∧ ((∀ j, (j < k)%nat → ¬ flashed uf2 j) →
               appstartaddr st = hd3 (header_at uf2 k))).
  { intros k Hk.
    assert (Hfam' : ∀ j, (j < length uf2 / 512)%nat → flashed uf2 j →
              hd7 (header_at uf2 j) = familyid).
    { intros j Hj _. destruct (Hhdr j Hj) as (b & _ & -> & _). reflexivity. }
    assert (Hfil' : filter = 0
              ∨ (filter = familyid
                 ∧ ∀ j, (j < length uf2 / 512)%nat → flashed uf2 j →
                        tagged (header_at uf2 j) = true)).
    { destruct Hfilter as [->| ->]; [left; reflexivity|].
      destruct (Z.eq_dec familyid 0) as [->|Hne]; [left; reflexivity|].
      right. split; [reflexivity|]. intros j Hj _.
      destruct (Hhdr j Hj) as (b & _ & -> & _). unfold tagged. cbn [hd2].
      destruct (family_flags_cases familyid) as [[? _]|[_ ->]];
        [contradiction|reflexivity]. }
    destruct (decode_placed filter familyid appstartaddr0 uf2
                (concat (outp st)) (appstartaddr st) Hfam' Hfil' Hdec
                k Hk (Hfl k Hk)) as (Hp & Hfirst & _).
    split; [exact Hp|exact Hfirst]. }
  split.
  - intros a1 v1 ws' ->. cbn [map new_runs opt_eqb] in Had.
    destruct bl as [|b0 bl']; [discriminate|]. injection Had as Hb0 _.
    assert (H0 : (0 < length uf2 / 512)%nat) by (rewrite Hn; cbn; lia).
    destruct (Hplaced 0%nat H0) as [_ Hs]. rewrite Hs by (intros j Hj; lia).
    destruct (Hhdr 0%nat H0) as (b & Hb & -> & _). cbn [hd3].
    injection Hb as <-. exact Hb0.
  - intros ws1 a v ws2 -> Hlater.
    destruct (Hland ws1 a v ws2 eq_refl Hlater) as (k & b & Hk & Hab & Hby).
    assert (Hkn : (k < length uf2 / 512)%nat)
      by (rewrite Hn; eapply lookup_lt_Some; exact Hk).
    destruct (Hplaced k Hkn) as [(Hle & _ & Hsl) _].
    destruct (Hblk k b Hk) as [Hh Hpay]. rewrite Hh in Hle, Hsl.
    cbn [hd3 hd4] in Hle, Hsl. rewrite Hab in Hle, Hsl.
    change (Z.to_nat 256) with 256%nat in Hsl. rewrite Hpay in Hsl.
    pose proof (low_byte_range a) as Hlow.
    pose proof (align_split a) as Hsplit.
    split; [lia|].
    replace (Z.to_nat (a - appstartaddr st))
      with (Z.to_nat (align256 a - appstartaddr st)
            + Z.to_nat (Z.land a 0xff))%nat by lia.
    exact (slice_lookup _ _ _ _ _ _ Hsl Hby).
Qed.

End Hex_roundtrip.

Lemma hex_to_uf2_and_back_witness :
  ∃ img s,
    convert_from_uf2 0 0x2000 hex_ascending_uf2 = Ok (img, s)
    ∧ ∀ ws, data_bytes (U := ascii_db) hex_ascending = Ok ws →
        (∀ a1 v1 ws', ws = (a1, v1) :: ws' → s = align256 a1)
        ∧ ∀ ws1 a v ws2,
            ws = ws1 ++ (a, v) :: ws2 → (∀ w, In w ws2 → w.1 ≠ a) →
            s <= a ∧ img !! Z.to_nat (a - s) = Some (byte_of_Z v).
Proof.
  apply (hex_to_uf2_and_back (U := ascii_db) 0 0 0x2000 hex_ascending
           hex_ascending_uf2 (Some 0x10)).
  - vm_compute. reflexivity.
  - vm_compute. reflexivity.
  - left. reflexivity.
Defined.

(** ** The C array *)

Lemma digits_value_snoc (base : Z) (ds : list N) (c : N) :
  digits_value base (ds ++ [c])
  = digits_value base ds * base + default 0 (digit_value c).
Proof. unfold digits_value. rewrite fold_left_app. reflexivity. Qed.

Lemma dec_digit (d : N) :
  (d < 10)%N →
  digit_value (48 + d) = Some (Z.of_N d) ∧ digit_below 10 (48 + d) = true.
Proof.
  intros Hd. unfold digit_below.
  assert (H : digit_value (48 + d) = Some (Z.of_N d)).
  { unfold digit_value.
    assert (H1 : (48 <=? 48 + d)%N = true) by (apply N.leb_le; lia).
    assert (H2 : (48 + d <=? 57)%N = true) by (apply N.leb_le; lia).
    rewrite H1, H2. cbn [andb]. f_equal. lia. }
  rewrite H. split; [reflexivity|]. apply Z.ltb_lt. lia.
Qed.

Lemma dec_go_spec (fuel : nat) (n : N) (acc : str) :
  (n < 2 ^ N.of_nat fuel)%N → (0 < fuel)%nat →
  ∃ ds, dec_go fuel n acc = ds ++ acc
        ∧ forallb (digit_below 10) ds = true
        ∧ digits_value 10 ds = Z.of_N n
        ∧ (n ≠ 0%N → head ds ≠ Some 48%N).
Proof.
  revert n acc. induction fuel as [|fuel IH]; intros n acc Hn Hf; [lia|].
  cbn [dec_go].
  assert (Hm : (n mod 10 < 10)%N) by (apply N.mod_lt; lia).
  destruct (dec_digit (n mod 10) Hm) as [Hv Hb].
  destruct (n / 10 =? 0)%N eqn:Eq.
  - apply N.eqb_eq in Eq.
    assert (Hsmall : (n < 10)%N).
    { apply N.div_small_iff in Eq; lia. }
    exists [(48 + n mod 10)%N]. split; [reflexivity|].
    cbn [forallb]. rewrite Hb. split; [reflexivity|].
    rewrite N.mod_small by exact Hsmall. split.
    + unfold digits_value. cbn [fold_left].
      rewrite N.mod_small in Hv by exact Hsmall. rewrite Hv. cbn [default].
      unfold id. lia.
    + intros Hne. cbn [head]. intros H. injection H as H. lia.
  - apply N.eqb_neq in Eq.
    assert (Hge : (10 <= n)%N).
    { destruct (N.lt_ge_cases n 10) as [Hlt|Hge]; [|exact Hge].
      apply N.div_small in Hlt. contradiction. }
    assert (Hdiv : (n / 10 < 2 ^ N.of_nat fuel)%N).
    { apply N.Div0.div_lt_upper_bound.
      rewrite Nat2N.inj_succ, N.pow_succ_r' in Hn. lia. }
    assert (Hf' : (0 < fuel)%nat).
    { destruct fuel; [|lia]. cbn in Hn. lia. }
    destruct (IH (n / 10)%N ((48 + n mod 10)%N :: acc) Hdiv Hf')
      as (ds & E & Hall & Hval & Hhd).
    exists (ds ++ [(48 + n mod 10)%N]). split.
    { rewrite E, <- app_assoc. reflexivity. }
    split.
    { rewrite forallb_app, Hall. cbn [forallb]. rewrite Hb. reflexivity. }
    split.
    { rewrite digits_value_snoc, Hval, Hv. cbn [default]. unfold id.
      pose proof (N.div_mod n 10 ltac:(lia)) as Hdm. lia. }
    intros _. specialize (Hhd Eq).
    destruct ds as [|d ds]; [|exact Hhd].
    unfold digits_value in Hval. cbn in Hval. lia.
Qed.

Lemma fmt_d_spec (n : nat) :
  forallb (digit_below 10) (fmt_d n) = true
  ∧ digits_value 10 (fmt_d n) = Z.of_nat n
  ∧ (n ≠ 0%nat → head (fmt_d n) ≠ Some 48%N).
Proof.
  unfold fmt_d.
  destruct (dec_go_spec (S (N.to_nat (N.size (N.of_nat n)))) (N.of_nat n) [])
    as (ds & E & Hall & Hval & Hhd).
  - rewrite Nat2N.inj_succ, N2Nat.id, N.pow_succ_r'.
    pose proof (N.size_gt (N.of_nat n)). lia.
  - lia.
  - rewrite E, app_nil_r. split; [exact Hall|]. split; [lia|].
    intros Hn. apply Hhd. lia.
Qed.

Lemma fmt_02x_spec (b : byte) :
  ∃ h l, fmt_02x b = str_of_string "0x" ++ [h; l] ++ str_of_string ", "
         ∧ forallb (digit_below 16) [h; l] = true
         ∧ digits_value 16 [h; l] = Z_of_byte b.
Proof.
  destruct b; eexists; eexists; (split; [vm_compute; reflexivity|]);
    split; vm_compute; reflexivity.
Qed.

Lemma carray_loop_app (file_content : list byte) (i : nat) (out : str) :
  carray_loop file_content i out = out ++ carray_loop file_content i [].
Proof.
  revert i out. induction file_content as [|b r IH]; intros i out.
  - cbn [carray_loop]. rewrite app_nil_r. reflexivity.
  - cbn [carray_loop]. rewrite IH. rewrite (IH _ (_ ++ fmt_02x b)).
    destruct (i mod 16 =? 0)%nat; rewrite <- ?app_assoc; reflexivity.
Qed.

(** the items after the first of a row follow without a line feed *)
Lemma carray_loop_within (r rest : list byte) (i : nat) :
  (0 < i mod 16)%nat → (i mod 16 + length r <= 16)%nat →
  carray_loop (r ++ rest) i []
  = row_text r ++ carray_loop rest (i + length r) [].
Proof.
  revert i. induction r as [|b r IH]; intros i Hi Hlen.
  - cbn [app length row_text map concat]. rewrite Nat.add_0_r. reflexivity.
  - cbn [app carray_loop length] in *.
    assert (E : (i mod 16 =? 0)%nat = false) by (apply Nat.eqb_neq; lia).
    rewrite E, carray_loop_app. cbn [app].
    unfold row_text. cbn [map concat]. rewrite <- app_assoc. f_equal.
    destruct r as [|b' r'].
    + cbn [app length map concat]. rewrite Nat.add_1_r. reflexivity.
    + assert (Hs : (Datatypes.S i mod 16 = i mod 16 + 1)%nat).
      { cbn [length] in Hlen.
        pose proof (Nat.div_mod i 16 ltac:(lia)) as Hd.
        symmetry. apply (Nat.mod_unique _ 16 (i / 16)); lia. }
      fold (row_text (b' :: r')). rewrite IH by lia.
      do 2 f_equal. lia.
Qed.

(** a row starts with a line feed *)
Lemma carray_loop_row (b : byte) (r rest : list byte) (k : nat) :
  (length (b :: r) <= 16)%nat →
  carray_loop ((b :: r) ++ rest) (16 * k) []
  = [10%N] ++ row_text (b :: r)
    ++ carray_loop rest (16 * k + length (b :: r)) [].
Proof.
  intros Hlen. cbn [app carray_loop length] in *.
  assert (E : ((16 * k) mod 16 =? 0)%nat = true).
  { apply Nat.eqb_eq. rewrite Nat.mul_comm. apply Nat.Div0.mod_mul. }
  rewrite E, carray_loop_app. cbn [app]. f_equal.
  unfold row_text. cbn [map concat]. rewrite <- app_assoc. f_equal.
  destruct r as [|b' r'].
  - cbn [app length map concat]. rewrite Nat.add_1_r. reflexivity.
  - assert (Hs : (Datatypes.S (16 * k) mod 16 = 1)%nat).
    { symmetry. apply (Nat.mod_unique _ 16 k); lia. }
    fold (row_text (b' :: r')). rewrite carray_loop_within by lia.
    do 2 f_equal. lia.
Qed.

Lemma carray_loop_rows (fuel : nat) (file_content : list byte) (k : nat) :
  (length file_content <= fuel)%nat →
  carray_loop file_content (16 * k) [] ++ [10%N]
  = [10%N] ++ concat (map (fun r => row_text r ++ [10%N])
                          (carray_rows fuel file_content)).
Proof.
  revert file_content k.
  induction fuel as [|fuel IH]; intros [|b r] k Hlen; try reflexivity.
  { cbn [length] in Hlen. lia. }
  cbn [carray_rows map concat].
  rewrite <- (take_drop 16 (b :: r)) at 1.
  change (take 16 (b :: r)) with (b :: take 15 r) at 1.
  rewrite carray_loop_row.
  2:{ cbn [length]. rewrite length_take. lia. }
  change (b :: take 15 r) with (take 16 (b :: r)).
  rewrite <- !app_assoc. f_equal. f_equal.
  destruct (drop 16 (b :: r)) as [|b' r'] eqn:Ed.
  - destruct fuel; reflexivity.
  - assert (Hl : length (drop 16 (b :: r)) = Datatypes.S (length r')).
    { rewrite Ed. reflexivity. }
    rewrite length_drop in Hl.
    assert (Ht : length (take 16 (b :: r)) = 16%nat).
    { rewrite length_take. lia. }
    rewrite Ht. replace (16 * k + 16)%nat with (16 * Datatypes.S k)%nat by lia.
    rewrite IH; [reflexivity|]. cbn [length] in Hl, Hlen |- *. lia.
Qed.

Lemma carray_rows_length (fuel : nat) (file_content : list byte) :
  (length file_content <= fuel)%nat →
  length (carray_rows fuel file_content)
  = ((length file_content + 15) / 16)%nat.
Proof.
  revert file_content.
  induction fuel as [|fuel IH]; intros [|b r] Hlen; try reflexivity.
  { cbn [length] in Hlen. lia. }
  cbn [carray_rows]. cbn [length] in Hlen |- *.
  rewrite IH by (rewrite length_drop; cbn [length]; lia).
  rewrite length_drop. cbn [length].
  destruct (Nat.le_gt_cases (Datatypes.S (length r)) 16) as [Hs|Hb].
  - replace (Datatypes.S (length r) - 16)%nat with 0%nat by lia.
    change ((0 + 15) / 16)%nat with 0%nat.
    apply (Nat.div_unique _ 16 1 (length r)); lia.
  - replace (Datatypes.S (length r) + 15)%nat
      with ((Datatypes.S (length r) - 16 + 15) + 1 * 16)%nat by lia.
    rewrite Nat.div_add by lia. lia.
Qed.

Lemma slice_drop {A} (l : list A) (n a b : nat) :
  slice (drop n l) a b = slice l (n + a) (n + b).
Proof.
  unfold slice. rewrite drop_drop. f_equal. lia.
Qed.

Lemma carray_rows_lookup (fuel : nat) (file_content : list byte) (k : nat) :
  (k < length (carray_rows fuel file_content))%nat →
  carray_rows fuel file_content !! k
  = Some (slice file_content (16 * k) (16 * k + 16)).
Proof.
  revert file_content k.
  induction fuel as [|fuel IH]; intros [|b r] k Hk;
    try (cbn [carray_rows length] in Hk; lia).
  cbn [carray_rows] in Hk |- *. destruct k as [|k].
  - cbn [lookup list_lookup]. rewrite slice_0. reflexivity.
  - cbn [length] in Hk. rewrite lookup_cons_ne_0 by lia. cbn [Nat.pred].
    rewrite IH by lia. rewrite slice_drop. do 2 f_equal; lia.
Qed.

Lemma fmt_02x_ascii (b : byte) :
  forallb (fun c => c <? 128)%N (fmt_02x b) = true.
Proof. destruct b; vm_compute; reflexivity. Qed.

Lemma row_text_ascii (row : list byte) :
  forallb (fun c => c <? 128)%N (row_text row) = true.
Proof.
  unfold row_text. induction row as [|b r IH]; [reflexivity|].
  cbn [map concat]. rewrite forallb_app, fmt_02x_ascii, IH. reflexivity.
Qed.

Lemma unlines_ascii (lines : list str) :
  forallb (fun l => forallb (fun c => c <? 128)%N l) lines = true →
  forallb (fun c => c <? 128)%N (unlines [10%N] lines) = true.
Proof.
  unfold unlines. induction lines as [|l ls IH]; intros H; [reflexivity|].
  cbn [forallb] in H. apply andb_true_iff in H as [Hl Hls].
  cbn [map concat]. rewrite !forallb_app, Hl, IH by exact Hls. reflexivity.
Qed.

Lemma utf8_decode_ascii_bytes (s : str) :
  forallb (fun c => c <? 128)%N s = true →
  utf8_decode (ascii_bytes s) = Some s.
Proof.
  intros H. rewrite forallb_forall in H.
  assert (Hc : ∀ c, In c s → Z_of_byte (byte_of_Z (Z.of_N c)) = Z.of_N c).
  { intros c Hin. apply H, N.ltb_lt in Hin.
    rewrite Z_of_byte_of_Z. apply Z.mod_small. lia. }
  rewrite utf8_decode_ascii.
  - f_equal. unfold ascii_bytes. rewrite map_map.
    rewrite <- (map_id s) at 2. apply map_ext_in.
    intros c Hin. rewrite (Hc c Hin). apply N2Z.id.
  - unfold ascii_bytes. apply Forall_map, Forall_forall.
    intros c Hin%list_elem_of_In. cbn beta. rewrite (Hc c Hin).
    apply H, N.ltb_lt in Hin. lia.
Qed.

Lemma convert_to_carray_unlines (file_content : list byte) :
  convert_to_carray file_content
  = ascii_bytes
      (unlines [10%N]
         (carray_lines (length file_content)
            (carray_rows (length file_content) file_content))).
Proof.
  unfold convert_to_carray. cbv zeta. f_equal.
  rewrite carray_loop_app.
  unfold carray_lines, unlines.
  rewrite !map_app, !concat_app, map_map. cbn [map concat].
  rewrite !app_nil_r, <- !app_assoc. do 5 f_equal.
  rewrite !app_assoc.
  change (carray_loop file_content 0 [])
    with (carray_loop file_content (16 * 0) []).
  rewrite (carray_loop_rows (length file_content) file_content 0)
    by reflexivity.
  reflexivity.
Qed.

(** X26: what [convert_to_carray] writes.  The output is ASCII text of
    [2 + ceil(n / 16) + 1] lines, each ended by a line feed: the
    declaration of [bindata_len] with the number [n] of input bytes in
    decimal (digits only, without a leading zero), the opening of
    [bindata], one line for every 16 input bytes in order (the last line
    takes the rest), and the closing brace; every item of a line is [0x],
    two hexadecimal digits that denote the byte, a comma and a space. *)
Theorem convert_to_carray_lines (file_content : list byte) :
  let n := length file_content in
  ∃ rows,
    convert_to_carray file_content
    = ascii_bytes (unlines [10%N] (carray_lines n rows))
    ∧ utf8_decode (convert_to_carray file_content)
      = Some (unlines [10%N] (carray_lines n rows))
    ∧ length rows = ((n + 15) / 16)%nat
    ∧ (∀ k, (k < length rows)%nat →
            rows !! k
            = Some (slice file_content (16 * k) (16 * k + 16)))
    ∧ forallb (digit_below 10) (fmt_d n) = true
    ∧ digits_value 10 (fmt_d n) = Z.of_nat n
    ∧ (n ≠ 0%nat → head (fmt_d n) ≠ Some 48%N)
    ∧ ∀ b, ∃ h l,
        fmt_02x b = str_of_string "0x" ++ [h; l] ++ str_of_string ", "
        ∧ forallb (digit_below 16) [h; l] = true
        ∧ digits_value 16 [h; l] = Z_of_byte b.
Proof.
  intros n. exists (carray_rows n file_content).
  split; [apply convert_to_carray_unlines|].
  split.
  { rewrite convert_to_carray_unlines. apply utf8_decode_ascii_bytes.
    apply unlines_ascii. unfold carray_lines.
    rewrite !forallb_app. cbn [forallb]. rewrite !forallb_app.
    destruct (fmt_d_spec n) as (Hd & _).
    rewrite (digits_lt128 10 _ Hd).
    assert (Hrows : ∀ rows : list (list byte),
              forallb (fun l => forallb (fun c => c <? 128)%N l)
                      (map row_text rows) = true).
    { induction rows as [|r rs IH]; [reflexivity|].
      cbn [map forallb]. rewrite row_text_ascii, IH. reflexivity. }
    rewrite Hrows. vm_compute. reflexivity. }
  split; [apply carray_rows_length; reflexivity|].
  split; [apply carray_rows_lookup|].
  destruct (fmt_d_spec n) as (Hd & Hv & Hz).
  split; [exact Hd|]. split; [exact Hv|]. split; [exact Hz|].
  apply fmt_02x_spec.
Qed.
